(** * Bend-sheet calculation core: a shallow embedding and its properties

    The development follows [core/calculations.py],
    [core/geometry_extraction.py] and
    [commands/createBendSheet/bend_sheet_generator.py].

    Python floats are modelled as exact rationals ([Q]): every arithmetic
    operation is the exact one, value comparison ([==] in Python) is [Qeq],
    and rounding is not modelled; the module [Binary64] repeats the
    totals of the bend sheet with binary64 numbers, where the order of
    the additions matters.  Python exceptions are modelled by the
    [result] type: a call either returns [Ok v] or raises [Raise e]. *)

From Stdlib Require Import QArith Qabs Qminmax ZArith List String Bool Lia.
From Stdlib Require Decimal DecimalString DecimalZ.
From Stdlib Require Import Permutation Lqa.
From Stdlib Require PrimFloat.
Import ListNotations.

Local Open Scope Q_scope.

(* ------------------------------------------------------------------ *)
(** ** Exceptions *)

(** The exceptions the modelled code can raise.  [ZeroVectorError] is
    the one of [core/geometry.py] (its message is not kept); [IndexError]
    is what a list index out of range raises. *)
Inductive exn : Type :=
| ValueError (msg : string)
| ZeroVectorError
| IndexError.

(** The class name of a raised exception, as Python reports it. *)
Definition exn_name (e : exn) : string :=
  match e with
  | ValueError _ => "ValueError"
  | ZeroVectorError => "ZeroVectorError"
  | IndexError => "IndexError"
  end.

Inductive result (A : Type) : Type :=
| Ok (a : A)
| Raise (e : exn).

Arguments Ok {A} a.
Arguments Raise {A} e.

Definition bind {A B : Type} (m : result A) (k : A -> result B) : result B :=
  match m with
  | Ok a => k a
  | Raise e => Raise e
  end.

Notation "x <- m ;; k" := (bind m (fun x => k))
  (at level 61, m at next level, right associativity).

(* ------------------------------------------------------------------ *)
(** ** Python helpers *)

(** [str(n)] for a Python [int]. *)
Definition str_int (n : Z) : string :=
  DecimalString.NilZero.string_of_int (Z.to_int n).

(** [str(n)] for a length [n = len(xs)]. *)
Definition str_nat (n : nat) : string := str_int (Z.of_nat n).

(** [xs[i]] for [0 <= i]: raises [IndexError] out of range. *)
Definition get {A : Type} (xs : list A) (i : nat) : result A :=
  match nth_error xs i with
  | Some x => Ok x
  | None => Raise IndexError
  end.

(** [[f(i) for i in range(n)]] for an [f] that may raise: the calls are
    made in order and the first exception ends the loop. *)
Fixpoint for_range {A : Type} (f : nat -> result A) (i n : nat)
    : result (list A) :=
  match n with
  | O => Ok []
  | S n' =>
      x <- f i ;;
      xs <- for_range f (S i) n' ;;
      Ok (x :: xs)
  end.

(** [enumerate(xs)], counting from [i]. *)
Fixpoint enumerate_from {A : Type} (i : nat) (xs : list A) : list (nat * A) :=
  match xs with
  | [] => []
  | x :: rest => (i, x) :: enumerate_from (S i) rest
  end.

(** [a < b] and [a > b] on numbers. *)
Definition Qltb (a b : Q) : bool := negb (Qle_bool b a).
Definition Qgtb (a b : Q) : bool := Qltb b a.

(** Python's two-argument [max(a, b)]: [b] when [b > a], else [a]. *)
Definition max2 (a b : Q) : Q := if Qgtb b a then b else a.

(** Python's [sum(xs)], which starts from [0] and adds left to right. *)
Definition sum (xs : list Q) : Q := fold_left Qplus xs 0.

(** Python's [any(p(x) for x in xs)]. *)
Definition any {A : Type} (p : A -> bool) (xs : list A) : bool := existsb p xs.

(* ------------------------------------------------------------------ *)
(** ** models/types.py *)

Definition Vector3D : Type := (Q * Q * Q)%type.
Definition Point3D : Type := (Q * Q * Q)%type.

(** [ElementType = Literal["line", "arc"]] and
    [SegmentType = Literal["straight", "bend"]]. *)
Inductive ElementType : Type := elem_line | elem_arc.
Inductive SegmentType : Type := seg_straight | seg_bend.

Definition SegmentType_eqb (a b : SegmentType) : bool :=
  match a, b with
  | seg_straight, seg_straight | seg_bend, seg_bend => true
  | _, _ => false
  end.

(** Tuple indexing [p[0]], [p[1]], [p[2]]. *)
Definition idx0 (p : Q * Q * Q) : Q := fst (fst p).
Definition idx1 (p : Q * Q * Q) : Q := snd (fst p).
Definition idx2 (p : Q * Q * Q) : Q := snd p.

(* ------------------------------------------------------------------ *)
(** ** models/units.py *)

Module UnitConfig.
Record t : Type := mk {
  is_metric : bool;
  unit_name : string;
  unit_symbol : string;
  cm_to_unit : Q;
  default_tube_od : string;
  default_precision : Z;
  valid_precisions : list Z
}.
End UnitConfig.

(* ------------------------------------------------------------------ *)
(** ** models/bend_data.py

    The dataclasses of [models/bend_data.py] are not part of the sources
    at hand.  Their fields are the keyword arguments of the constructor
    calls in [core/calculations.py] and [bend_sheet_generator.py], with
    the types of section 3 of the specification. *)

(** Modelled from the spec: the dataclass [StraightSection]. *)
Module StraightSection.
Record t : Type := mk {
  number : Z;
  length : Q;
  start : Point3D;
  end_ : Point3D;
  vector : Vector3D
}.
End StraightSection.

(** Modelled from the spec: the dataclass [BendData]. *)
Module BendData.
Record t : Type := mk {
  number : Z;
  angle : Q;
  rotation : option Q;
  arc_length : Q
}.
End BendData.

(** Modelled from the spec: the dataclass [PathSegment]. *)
Module PathSegment.
Record t : Type := mk {
  segment_type : SegmentType;
  name : string;
  length : Q;
  starts_at : Q;
  ends_at : Q;
  bend_angle : option Q;
  rotation : option Q
}.
End PathSegment.

(** Modelled from the spec: the dataclass [MarkPosition]. *)
Module MarkPosition.
Record t : Type := mk {
  bend_num : Z;
  mark_position : Q;
  bend_angle : Q;
  rotation : option Q
}.
End MarkPosition.

(* ------------------------------------------------------------------ *)
(** ** core/calculations.py: [build_segments_and_marks] *)

(** The segment appended for a straight met at index [i] of the loop. *)
Definition straight_segment (bends : list BendData.t) (i : nat)
    (straight : StraightSection.t) (cumulative : Q) : PathSegment.t :=
  PathSegment.mk
    seg_straight
    ("Straight " ++ str_int (StraightSection.number straight))
    (StraightSection.length straight)
    cumulative
    (cumulative + StraightSection.length straight)
    None
    (* bends[i].rotation if i < len(bends) else None *)
    match nth_error bends i with
    | Some b => BendData.rotation b
    | None => None
    end.

(** The segment appended for a bend. *)
Definition bend_segment (b : BendData.t) (cumulative : Q) : PathSegment.t :=
  PathSegment.mk
    seg_bend
    ("BEND " ++ str_int (BendData.number b))
    (BendData.arc_length b)
    cumulative
    (cumulative + BendData.arc_length b)
    (Some (BendData.angle b))
    None.

(** The [for i, straight in enumerate(straights)] loop, from index [i]
    on, threading [segments] and [cumulative]. *)
Fixpoint segments_loop (bends : list BendData.t) (i : nat)
    (straights : list StraightSection.t)
    (segments : list PathSegment.t) (cumulative : Q)
    : list PathSegment.t * Q :=
  match straights with
  | [] => (segments, cumulative)
  | s :: rest =>
      let segments := segments ++ [straight_segment bends i s cumulative] in
      let cumulative := cumulative + StraightSection.length s in
      match nth_error bends i with
      | Some b =>
          let segments := segments ++ [bend_segment b cumulative] in
          let cumulative := cumulative + BendData.arc_length b in
          segments_loop bends (S i) rest segments cumulative
      | None => segments_loop bends (S i) rest segments cumulative
      end
  end.

(** The inner [for seg in segments] search of the mark loop: the
    [starts_at] of the first bend segment called [name], or
    [bend_starts_at]'s initial value when there is none. *)
Fixpoint find_bend_start (name : string) (segments : list PathSegment.t)
    (bend_starts_at : Q) : Q :=
  match segments with
  | [] => bend_starts_at
  | seg :: rest =>
      if SegmentType_eqb (PathSegment.segment_type seg) seg_bend
         && String.eqb (PathSegment.name seg) name
      then PathSegment.starts_at seg
      else find_bend_start name rest bend_starts_at
  end.

Definition mark_of (segments : list PathSegment.t) (die_offset : Q)
    (b : BendData.t) : MarkPosition.t :=
  let bend_starts_at :=
    find_bend_start ("BEND " ++ str_int (BendData.number b)) segments 0 in
  MarkPosition.mk
    (BendData.number b)
    (bend_starts_at - die_offset)
    (BendData.angle b)
    (BendData.rotation b).

Definition build_segments_and_marks
    (straights : list StraightSection.t) (bends : list BendData.t)
    (extra_material die_offset : Q)
    : list PathSegment.t * list MarkPosition.t :=
  let segments := fst (segments_loop bends 0 straights [] extra_material) in
  let mark_positions := map (mark_of segments die_offset) bends in
  (segments, mark_positions).

(** The test suite's [make_straight]. *)
Definition make_straight (num : Z) (length : Q) : StraightSection.t :=
  StraightSection.mk num length (0, 0, 0) (length, 0, 0) (length, 0, 0).

(* ------------------------------------------------------------------ *)
(** ** core/geometry.py

    [core/geometry.py] is not part of the sources at hand; only its tests
    are. *)

(** Modelled from the spec: [cross_product] of [core/geometry.py], with
    the standard definition (section 4.1 of the specification, and the
    unit-vector cases of [test_geometry.py]). *)
Definition cross_product (a b : Vector3D) : Vector3D :=
  (idx1 a * idx2 b - idx2 a * idx1 b,
   idx2 a * idx0 b - idx0 a * idx2 b,
   idx0 a * idx1 b - idx1 a * idx0 b).

(** Modelled from the spec: the functions of [core/geometry.py] that need
    a square root or an arc tangent, and [math.radians], which needs the
    constant pi.  They are kept abstract, as the operations of this
    class: nothing below depends on the values they return.  As section
    4.1 of the specification says, [angle_between_vectors] and
    [calculate_rotation] either return a number or raise
    [ZeroVectorError] ([None] here). *)
Class Geometry : Type := {
  magnitude : Vector3D -> Q;
  distance_between_points : Point3D -> Point3D -> Q;
  angle_between_vectors : Vector3D -> Vector3D -> option Q;
  calculate_rotation : Vector3D -> Vector3D -> option Q;
  (** [math.radians] *)
  radians : Q -> Q
}.

(** A call of a [core/geometry.py] function that may raise. *)
Definition or_zero_vector_error {A : Type} (o : option A) : result A :=
  match o with
  | Some a => Ok a
  | None => Raise ZeroVectorError
  end.

(* ------------------------------------------------------------------ *)
(** ** Sketch entities (the Fusion API objects the code reads)

    Of a sketch line the code reads the world geometry of its two sketch
    points; of a sketch arc it reads these and its radius. *)

Module SketchLine.
Record t : Type := mk {
  startSketchPoint : Point3D;
  endSketchPoint : Point3D
}.
End SketchLine.

Module SketchArc.
Record t : Type := mk {
  startSketchPoint : Point3D;
  endSketchPoint : Point3D;
  radius : Q
}.
End SketchArc.

(** ** core/geometry_extraction.py *)

Definition get_sketch_entity_endpoints (entity : SketchLine.t)
    : Point3D * Point3D :=
  (SketchLine.startSketchPoint entity, SketchLine.endSketchPoint entity).

(** A path element wraps a sketch line ([element_type == "line"]) or a
    sketch arc ([element_type == "arc"]). *)
Inductive PathElement : Type :=
| LineElement (entity : SketchLine.t)
| ArcElement (entity : SketchArc.t).

Definition element_type (e : PathElement) : ElementType :=
  match e with
  | LineElement _ => elem_line
  | ArcElement _ => elem_arc
  end.

(** [max(t)] for a 3-tuple [t]: the first of the greatest items. *)
Definition max3 (t : Q * Q * Q) : Q := max2 (max2 (idx0 t) (idx1 t)) (idx2 t).

(** [t[idx]] for [idx] in 0..2. *)
Definition tuple_get (t : Q * Q * Q) (idx : nat) : Q :=
  match idx with
  | O => idx0 t
  | S O => idx1 t
  | _ => idx2 t
  end.

Definition determine_primary_axis (start end_ : Point3D)
    : string * nat * string * string :=
  let displacement : Vector3D :=
    (idx0 end_ - idx0 start, idx1 end_ - idx1 start, idx2 end_ - idx2 start) in
  let abs_disp : Vector3D :=
    (Qabs (idx0 displacement), Qabs (idx1 displacement),
     Qabs (idx2 displacement)) in
  let max_disp := max3 abs_disp in
  let '(axis, idx) :=
    if Qeq_bool (idx0 abs_disp) max_disp then ("X"%string, 0%nat)
    else if Qeq_bool (idx1 abs_disp) max_disp then ("Y"%string, 1%nat)
    else ("Z"%string, 2%nat) in
  let current :=
    if Qgtb (tuple_get displacement idx) 0
    then ("+" ++ axis)%string else ("-" ++ axis)%string in
  let opposite :=
    if Qgtb (tuple_get displacement idx) 0
    then ("-" ++ axis)%string else ("+" ++ axis)%string in
  (axis, idx, current, opposite).

(* ------------------------------------------------------------------ *)
(** ** core/calculations.py: [validate_clr_consistency] *)

Definition CLR_TOLERANCE_RATIO : Q := 0.002.

Definition validate_clr_consistency (arcs : list SketchArc.t)
    (units : UnitConfig.t) : Q * bool * list Q :=
  let clr_values :=
    map (fun a => SketchArc.radius a * UnitConfig.cm_to_unit units) arcs in
  match clr_values with
  | [] => (0, false, [])
  | clr :: _ =>
      if Qle_bool clr 0 then (0, true, clr_values)
      else
        let tolerance := max2 (clr * CLR_TOLERANCE_RATIO) 0.001 in
        let has_mismatch :=
          any (fun c => Qgtb (Qabs (c - clr)) tolerance) clr_values in
        (clr, has_mismatch, clr_values)
  end.

(* ------------------------------------------------------------------ *)
(** ** core/calculations.py: [calculate_straights_and_bends] *)

Section Calculations.
Context {G : Geometry}.

(** One step of orientation: the pair is reversed when its second
    point is strictly nearer to [ref] than its first. *)
Definition orient (ref : Point3D) (p : Point3D * Point3D)
    : Point3D * Point3D :=
  let '(curr_start, curr_end) := p in
  if Qltb (distance_between_points curr_end ref)
          (distance_between_points curr_start ref)
  then (curr_end, curr_start)
  else (curr_start, curr_end).

(** The [for i in range(1, len(line_points))] loop; [prev_end] is
    [corrected[i - 1][1]]. *)
Fixpoint orient_remaining (prev_end : Point3D)
    (line_points : list (Point3D * Point3D)) : list (Point3D * Point3D) :=
  match line_points with
  | [] => []
  | p :: rest =>
      let c := orient prev_end p in
      c :: orient_remaining (snd c) rest
  end.

(** The list [corrected] for a non-empty [line_points]. *)
Definition corrected_lines (path_start : Point3D)
    (first : Point3D * Point3D) (rest : list (Point3D * Point3D))
    : list (Point3D * Point3D) :=
  let '(first_start, first_end) := first in
  let c0 :=
    if Qltb (distance_between_points first_end path_start)
            (distance_between_points first_start path_start)
    then (first_end, first_start)
    else (first_start, first_end) in
  c0 :: orient_remaining (snd c0) rest.

Definition vector_of (p : Point3D * Point3D) : Vector3D :=
  let '(start, end_) := p in
  (idx0 end_ - idx0 start, idx1 end_ - idx1 start, idx2 end_ - idx2 start).

Definition scale_point (units : UnitConfig.t) (p : Point3D) : Point3D :=
  (idx0 p * UnitConfig.cm_to_unit units,
   idx1 p * UnitConfig.cm_to_unit units,
   idx2 p * UnitConfig.cm_to_unit units).

(** The [StraightSection] built at index [i] of [enumerate(corrected)]. *)
Definition straight_of (units : UnitConfig.t)
    (ip : nat * (Point3D * Point3D)) : StraightSection.t :=
  let '(i, (start, end_)) := ip in
  let vector := vector_of (start, end_) in
  let length_cm := magnitude vector in
  let length_display := length_cm * UnitConfig.cm_to_unit units in
  StraightSection.mk
    (Z.of_nat i + 1)
    length_display
    (scale_point units start)
    (scale_point units end_)
    vector.

(** The [BendData] built at index [i] of the last loop. *)
Definition bend_of (vectors normals : list Vector3D) (clr : Q) (i : nat)
    : result BendData.t :=
  v0 <- get vectors i ;;
  v1 <- get vectors (i + 1) ;;
  bend_angle <- or_zero_vector_error (angle_between_vectors v0 v1) ;;
  let arc_length := clr * radians bend_angle in
  rotation <-
    (if (0 <? i)%nat then
       n0 <- get normals (i - 1) ;;
       n1 <- get normals i ;;
       r <- or_zero_vector_error (calculate_rotation n0 n1) ;;
       Ok (Some r)
     else Ok None) ;;
  Ok (BendData.mk (Z.of_nat i + 1) bend_angle rotation arc_length).

Definition insufficient_vectors_message (n_vectors n_arcs : nat) : string :=
  ("Insufficient vectors (" ++ str_nat n_vectors ++ ") for "
     ++ str_nat n_arcs ++ " arcs - expected at least arcs + 1 vectors")%string.

Definition calculate_straights_and_bends
    (lines : list SketchLine.t) (arcs : list SketchArc.t)
    (path_start : Point3D) (clr : Q) (units : UnitConfig.t)
    : result (list StraightSection.t * list BendData.t) :=
  let line_points := map get_sketch_entity_endpoints lines in
  match line_points with
  | [] => Raise (ValueError "No lines provided - cannot calculate bend data")
  | first :: rest =>
      let corrected := corrected_lines path_start first rest in
      let straights := map (straight_of units) (enumerate_from 0 corrected) in
      let vectors := map vector_of corrected in
      if (List.length vectors <? List.length arcs + 1)%nat then
        Raise (ValueError
                 (insufficient_vectors_message (List.length vectors)
                                               (List.length arcs)))
      else
        normals <-
          for_range
            (fun i =>
               v0 <- get vectors i ;;
               v1 <- get vectors (i + 1) ;;
               Ok (cross_product v0 v1))
            0 (List.length arcs) ;;
        bends <- for_range (bend_of vectors normals clr) 0 (List.length arcs) ;;
        Ok (straights, bends)
  end.

End Calculations.

(* ------------------------------------------------------------------ *)
(** ** commands/createBendSheet/bend_sheet_generator.py *)

(** Modelled from the spec: [input_parser.py] is not part of the sources
    at hand; these are the attributes of the parsed parameters that
    [generate] reads. *)
Module BendSheetParams.
Record t : Type := mk {
  tube_od : Q;
  die_offset : Q;
  precision : Z;
  min_grip : Q;
  min_tail : Q;
  bender_name : string;
  die_name : string
}.
End BendSheetParams.

(** Modelled from the spec: [BendSheetData] belongs to
    [models/bend_data.py]; its fields are the keyword arguments of the
    constructor call in [generate]. *)
Module BendSheetData.
Record t : Type := mk {
  component_name : string;
  tube_od : Q;
  clr : Q;
  die_offset : Q;
  precision : Z;
  min_grip : Q;
  travel_direction : string;
  starts_with_arc : bool;
  ends_with_arc : bool;
  clr_mismatch : bool;
  clr_values : list Q;
  continuity_errors : list string;
  straights : list StraightSection.t;
  bends : list BendData.t;
  segments : list PathSegment.t;
  mark_positions : list MarkPosition.t;
  extra_material : Q;
  total_centerline : Q;
  total_cut_length : Q;
  units : UnitConfig.t;
  bender_name : string;
  die_name : string;
  grip_violations : list Z;
  min_tail : Q;
  tail_violation : bool
}.
End BendSheetData.

Module GenerationResult.
Record t : Type := mk {
  success : bool;
  data : option BendSheetData.t;
  error : string
}.
End GenerationResult.

(** [[e.entity for e in ordered_path if e.element_type == "line"]] *)
Fixpoint lines_of (ordered_path : list PathElement) : list SketchLine.t :=
  match ordered_path with
  | [] => []
  | LineElement l :: rest => l :: lines_of rest
  | ArcElement _ :: rest => lines_of rest
  end.

(** [[e.entity for e in ordered_path if e.element_type == "arc"]] *)
Fixpoint arcs_of (ordered_path : list PathElement) : list SketchArc.t :=
  match ordered_path with
  | [] => []
  | LineElement _ :: rest => arcs_of rest
  | ArcElement a :: rest => a :: arcs_of rest
  end.

(** The grip check: the numbers of the straights of [straights[:-1]]
    shorter than [min_grip]. *)
Definition grip_violations_of (min_grip : Q)
    (straights : list StraightSection.t) : list Z :=
  if Qgtb min_grip 0 && (1 <? List.length straights)%nat then
    map StraightSection.number
        (filter (fun s => Qltb (StraightSection.length s) min_grip)
                (removelast straights))
  else [].

(** The tail check on [straights[-1]]. *)
Definition tail_violation_of (min_tail : Q)
    (straights : list StraightSection.t) : bool :=
  if Qgtb min_tail 0 && (0 <? List.length straights)%nat then
    match rev straights with
    | last_straight :: _ => Qltb (StraightSection.length last_straight) min_tail
    | [] => false
    end
  else false.

Section Generator.
Context {G : Geometry}.

(** [BendSheetGenerator(units).generate(...)] *)
Definition generate (units : UnitConfig.t)
    (ordered_path : list PathElement) (start_point : Point3D)
    (params : BendSheetParams.t) (component_name travel_direction : string)
    (starts_with_arc ends_with_arc : bool) : result GenerationResult.t :=
  let lines := lines_of ordered_path in
  let arcs := arcs_of ordered_path in
  let '(clr, clr_mismatch, clr_values) :=
    validate_clr_consistency arcs units in
  sb <- calculate_straights_and_bends lines arcs start_point clr units ;;
  let '(straights, bends) := sb in
  match straights with
  | [] =>
      Ok (GenerationResult.mk false None
            "No straight sections found in path. Cannot generate bend sheet.")
  | first_straight :: _ =>
      let first_feed :=
        StraightSection.length first_straight
        - BendSheetParams.die_offset params in
      let extra_material :=
        if Qgtb (BendSheetParams.min_grip params) 0
        then max2 0 (BendSheetParams.min_grip params - first_feed)
        else 0 in
      let grip_violations :=
        grip_violations_of (BendSheetParams.min_grip params) straights in
      let tail_violation :=
        tail_violation_of (BendSheetParams.min_tail params) straights in
      let '(segments, mark_positions) :=
        build_segments_and_marks straights bends extra_material
          (BendSheetParams.die_offset params) in
      let total_straights := sum (map StraightSection.length straights) in
      let total_arcs := sum (map BendData.arc_length bends) in
      let total_centerline := total_straights + total_arcs in
      let total_cut_length := total_centerline + extra_material in
      let sheet_data :=
        BendSheetData.mk
          component_name
          (BendSheetParams.tube_od params)
          clr
          (BendSheetParams.die_offset params)
          (BendSheetParams.precision params)
          (BendSheetParams.min_grip params)
          travel_direction
          starts_with_arc
          ends_with_arc
          clr_mismatch
          clr_values
          []
          straights
          bends
          segments
          mark_positions
          extra_material
          total_centerline
          total_cut_length
          units
          (BendSheetParams.bender_name params)
          (BendSheetParams.die_name params)
          grip_violations
          (BendSheetParams.min_tail params)
          tail_violation in
      Ok (GenerationResult.mk true (Some sheet_data) "")
  end.

End Generator.

(* ------------------------------------------------------------------ *)
(** ** Vocabulary of the statements *)

(** What [segments_loop] appends, written without the accumulator. *)
Fixpoint timeline (bends : list BendData.t) (i : nat)
    (straights : list StraightSection.t) (cumulative : Q)
    : list PathSegment.t :=
  match straights with
  | [] => []
  | s :: rest =>
      let after_straight := cumulative + StraightSection.length s in
      straight_segment bends i s cumulative ::
      match nth_error bends i with
      | Some b =>
          bend_segment b after_straight ::
          timeline bends (S i) rest (after_straight + BendData.arc_length b)
      | None => timeline bends (S i) rest after_straight
      end
  end.

(** Each segment starts where the one before it ends, the first at [c]. *)
Fixpoint chained (c : Q) (segments : list PathSegment.t) : Prop :=
  match segments with
  | [] => True
  | seg :: rest =>
      PathSegment.starts_at seg = c /\ chained (PathSegment.ends_at seg) rest
  end.

(** [ends_at] of the last segment, [c] for an empty timeline. *)
Fixpoint final_end (c : Q) (segments : list PathSegment.t) : Q :=
  match segments with
  | [] => c
  | seg :: rest => final_end (PathSegment.ends_at seg) rest
  end.

(** [segments[-1]], when there is one. *)
Definition last_segment (segments : list PathSegment.t)
    : option PathSegment.t :=
  nth_error segments (List.length segments - 1).

Definition is_straight (seg : PathSegment.t) : bool :=
  SegmentType_eqb (PathSegment.segment_type seg) seg_straight.

(** The straight segments of a timeline, in order. *)
Definition straight_segments (segments : list PathSegment.t)
    : list PathSegment.t :=
  filter is_straight segments.

(** The rotation the straight at index [i] is given. *)
Definition following_rotation (bends : list BendData.t) (i : nat)
    : option Q :=
  match nth_error bends i with
  | Some b => BendData.rotation b
  | None => None
  end.

(** The lengths of the segments of a timeline, in the order of the
    segments: the length of each straight, followed by the arc length of
    the bend at its index when there is one. *)
Fixpoint lengths_in_order (bends : list BendData.t) (i : nat)
    (straights : list StraightSection.t) : list Q :=
  match straights with
  | [] => []
  | s :: rest =>
      StraightSection.length s ::
      match nth_error bends i with
      | Some b => BendData.arc_length b :: lengths_in_order bends (S i) rest
      | None => lengths_in_order bends (S i) rest
      end
  end.

(** The list [corrected] of [calculate_straights_and_bends]. *)
Definition oriented_lines {G : Geometry} (path_start : Point3D)
    (line_points : list (Point3D * Point3D)) : list (Point3D * Point3D) :=
  match line_points with
  | [] => []
  | first :: rest => corrected_lines path_start first rest
  end.

(** The point the line at index [i] is oriented against: the path start
    for the first line, [corrected[i - 1][1]] for the others. *)
Definition reference_point (path_start : Point3D)
    (corrected : list (Point3D * Point3D)) (i : nat) : option Point3D :=
  match i with
  | O => Some path_start
  | S j => option_map snd (nth_error corrected j)
  end.

Definition swap_pair (p : Point3D * Point3D) : Point3D * Point3D :=
  (snd p, fst p).

(** The same sketch line with its two sketch points exchanged. *)
Definition swap_line (l : SketchLine.t) : SketchLine.t :=
  SketchLine.mk (SketchLine.endSketchPoint l) (SketchLine.startSketchPoint l).

(** [lines'] is [lines] with the endpoints of some lines exchanged. *)
Definition endpoints_swapped (lines lines' : list SketchLine.t) : Prop :=
  Forall2 (fun l l' => l' = l \/ l' = swap_line l) lines lines'.

(** No line has its two endpoints at the same distance from the point it
    is oriented against ([ref] for the first one). *)
Fixpoint distinct_distances {G : Geometry} (ref : Point3D)
    (line_points : list (Point3D * Point3D)) : Prop :=
  match line_points with
  | [] => True
  | p :: rest =>
      ~ distance_between_points (fst p) ref
        == distance_between_points (snd p) ref
      /\ distinct_distances (snd (orient ref p)) rest
  end.

(** The radii of the arcs in display units. *)
Definition clr_display (arcs : list SketchArc.t) (units : UnitConfig.t)
    : list Q :=
  map (fun a => SketchArc.radius a * UnitConfig.cm_to_unit units) arcs.

(** [end - start], componentwise. *)
Definition displacement_of (start end_ : Point3D) : Vector3D :=
  (idx0 end_ - idx0 start, idx1 end_ - idx1 start, idx2 end_ - idx2 start).

(** ** Sample data

    A geometry to run the definitions with: lengths and distances are
    sums of absolute coordinate differences, which are the Euclidean ones
    for the axis-parallel lines used below; a zero vector raises, any
    other pair of vectors is taken to be at a right angle. *)

Definition is_zero_vector (v : Vector3D) : bool :=
  Qeq_bool (idx0 v) 0 && Qeq_bool (idx1 v) 0 && Qeq_bool (idx2 v) 0.

Definition sample_geometry : Geometry := {|
  magnitude v := Qabs (idx0 v) + Qabs (idx1 v) + Qabs (idx2 v);
  distance_between_points p q :=
    Qabs (idx0 q - idx0 p) + Qabs (idx1 q - idx1 p) + Qabs (idx2 q - idx2 p);
  angle_between_vectors a b :=
    if is_zero_vector a || is_zero_vector b then None else Some 90;
  calculate_rotation n1 n2 :=
    if is_zero_vector n1 || is_zero_vector n2 then None else Some 90;
  radians x := x * (355 # 113) / 180
|}.

(** The unit configuration of the tests: one display unit per cm. *)
Definition sample_units : UnitConfig.t :=
  UnitConfig.mk true "cm" "cm" 1 "2.5" 1%Z [0%Z; 1%Z; 2%Z; 5%Z; 10%Z].

(** Three lines along X, Y and Z, joined head to tail from the origin;
    the second is stored end first. *)
Definition sample_lines : list SketchLine.t :=
  [SketchLine.mk (0, 0, 0) (10, 0, 0);
   SketchLine.mk (10, 8, 0) (10, 0, 0);
   SketchLine.mk (10, 8, 0) (10, 8, 6)].

Definition sample_arc : SketchArc.t :=
  SketchArc.mk (0, 0, 0) (0, 0, 0) 2.

Definition sample_path : list PathElement :=
  [LineElement (SketchLine.mk (0, 0, 0) (10, 0, 0));
   ArcElement sample_arc;
   LineElement (SketchLine.mk (10, 8, 0) (10, 0, 0));
   ArcElement sample_arc;
   LineElement (SketchLine.mk (10, 8, 0) (10, 8, 6))].

Definition sample_params : BendSheetParams.t :=
  BendSheetParams.mk 1 2 1%Z 9 7 "bender" "die".

(** What [calculate_straights_and_bends] returns on the sample lines
    with two arcs between them and a CLR of 2. *)
Definition sample_straights : list StraightSection.t :=
  Eval vm_compute in
    match calculate_straights_and_bends (G := sample_geometry) sample_lines
            [sample_arc; sample_arc] (0, 0, 0) 2 sample_units with
    | Ok (straights, _) => straights
    | Raise _ => []
    end.

Definition sample_bends : list BendData.t :=
  Eval vm_compute in
    match calculate_straights_and_bends (G := sample_geometry) sample_lines
            [sample_arc; sample_arc] (0, 0, 0) 2 sample_units with
    | Ok (_, bends) => bends
    | Raise _ => []
    end.

(** The data [generate] returns on the sample path. *)
Definition sample_sheet : option BendSheetData.t :=
  Eval vm_compute in
    match generate (G := sample_geometry) sample_units sample_path (0, 0, 0)
            sample_params "part" "+X" false false with
    | Ok r => GenerationResult.data r
    | Raise _ => None
    end.

(* ------------------------------------------------------------------ *)
(** ** models/units.py: [UnitConfig.from_design] *)

Definition VALID_PRECISIONS_IMPERIAL : list Z := [0; 4; 8; 16; 32]%Z.
Definition VALID_PRECISIONS_METRIC : list Z := [0; 1; 2; 5; 10]%Z.
Definition DEFAULT_PRECISION_IMPERIAL : Z := 16.
Definition DEFAULT_PRECISION_METRIC : Z := 1.

(** Of a design the code reads [unitsManager.defaultLengthUnits]. *)
Module UnitsManager.
Record t : Type := mk {
  defaultLengthUnits : string
}.
End UnitsManager.

Module Design.
Record t : Type := mk {
  unitsManager : UnitsManager.t
}.
End Design.

(** The one-character string holding a double quote, the unit symbol of
    the inch. *)
Definition double_quote : string :=
  String (Ascii.ascii_of_nat 34) EmptyString.

(** The dict literal of [from_design], in the order it is written. *)
Definition unit_configs : list (string * UnitConfig.t) :=
  [("in"%string,
    UnitConfig.mk false "in" double_quote (1.0 / 2.54) "1.75"
      DEFAULT_PRECISION_IMPERIAL VALID_PRECISIONS_IMPERIAL);
   ("ft"%string,
    UnitConfig.mk false "ft" "'" (1.0 / 30.48) "0.146"
      DEFAULT_PRECISION_IMPERIAL VALID_PRECISIONS_IMPERIAL);
   ("mm"%string,
    UnitConfig.mk true "mm" "mm" 10.0 "44.45"
      DEFAULT_PRECISION_METRIC VALID_PRECISIONS_METRIC);
   ("cm"%string,
    UnitConfig.mk true "cm" "cm" 1.0 "4.445"
      DEFAULT_PRECISION_METRIC VALID_PRECISIONS_METRIC);
   ("m"%string,
    UnitConfig.mk true "m" "m" 0.01 "0.04445"
      DEFAULT_PRECISION_METRIC VALID_PRECISIONS_METRIC)].

(** [d.get(key)] on a dict written as the list of its items. *)
Definition dict_get {V : Type} (d : list (string * V)) (key : string)
    : option V :=
  match find (fun kv => String.eqb (fst kv) key) d with
  | Some kv => Some (snd kv)
  | None => None
  end.

(** [sorted(xs)] on strings, which Python orders by code point. *)
Fixpoint insert_sorted (x : string) (xs : list string) : list string :=
  match xs with
  | [] => [x]
  | y :: ys => if String.leb x y then x :: xs else y :: insert_sorted x ys
  end.

Definition sorted (xs : list string) : list string :=
  fold_right insert_sorted [] xs.

Definition from_design (design : Design.t) : result UnitConfig.t :=
  let units_mgr := Design.unitsManager design in
  let default_units := UnitsManager.defaultLengthUnits units_mgr in
  match dict_get unit_configs default_units with
  | None =>
      let supported := String.concat ", " (sorted (map fst unit_configs)) in
      Raise (ValueError
               ("Unsupported unit system: '" ++ default_units
                  ++ "'. Supported units: " ++ supported)%string)
  | Some config => Ok config
  end.

(* ------------------------------------------------------------------ *)
(** ** core/geometry_extraction.py: [get_free_endpoint] *)

(** Modelled from the spec: [points_are_close] of [core/geometry.py],
    called with its default tolerance.  Section 4.1 of the specification
    gives it as a test on two points; nothing below depends on which
    points it finds close. *)
Class Proximity : Type := {
  points_are_close : Point3D -> Point3D -> bool
}.

(** [PathElement.__post_init__]: the endpoints are those of the entity. *)
Definition endpoints (e : PathElement) : Point3D * Point3D :=
  match e with
  | LineElement l =>
      (SketchLine.startSketchPoint l, SketchLine.endSketchPoint l)
  | ArcElement a =>
      (SketchArc.startSketchPoint a, SketchArc.endSketchPoint a)
  end.

(** A [PathElement] object as the code holds it: [object_id] is the
    identity that [is] compares, [element] the value of its fields. *)
Module ElementRef.
Record t : Type := mk {
  object_id : nat;
  element : PathElement
}.
End ElementRef.

(** [a is b] *)
Definition is_same (a b : ElementRef.t) : bool :=
  Nat.eqb (ElementRef.object_id a) (ElementRef.object_id b).

Section FreeEndpoint.
Context {P : Proximity}.

(** The [for other in all_elements] loop for the endpoint [ep]: the
    final value of [connected]. *)
Fixpoint connected_to_other (ep : Point3D) (element : ElementRef.t)
    (all_elements : list ElementRef.t) : bool :=
  match all_elements with
  | [] => false
  | other :: rest =>
      if is_same other element then connected_to_other ep element rest
      else if points_are_close ep (fst (endpoints (ElementRef.element other)))
              || points_are_close ep
                   (snd (endpoints (ElementRef.element other)))
      then true
      else connected_to_other ep element rest
  end.

Definition get_free_endpoint (element : ElementRef.t)
    (all_elements : list ElementRef.t) : Point3D :=
  let '(ep0, ep1) := endpoints (ElementRef.element element) in
  if negb (connected_to_other ep0 element all_elements) then ep0
  else if negb (connected_to_other ep1 element all_elements) then ep1
  else ep0.

End FreeEndpoint.

(* ------------------------------------------------------------------ *)
(** ** Vocabulary of the further statements *)

(** Some element of [all_elements] other than [element] has an endpoint
    close to [ep]. *)
Definition touches_other {P : Proximity} (ep : Point3D)
    (element : ElementRef.t) (all_elements : list ElementRef.t) : Prop :=
  exists other,
    In other all_elements
    /\ ElementRef.object_id other <> ElementRef.object_id element
    /\ (points_are_close ep (fst (endpoints (ElementRef.element other))) = true
        \/ points_are_close ep (snd (endpoints (ElementRef.element other)))
           = true).

(** Consecutive elements are of different kinds. *)
Fixpoint alternating (path : list PathElement) : Prop :=
  match path with
  | [] => True
  | e :: rest =>
      match rest with
      | [] => True
      | e' :: _ => element_type e <> element_type e' /\ alternating rest
      end
  end.

Definition is_arc (e : PathElement) : bool :=
  match e with
  | LineElement _ => false
  | ArcElement _ => true
  end.

(** [path'] is [path] with the endpoints of some of its lines
    exchanged. *)
Definition path_endpoints_swapped (path path' : list PathElement) : Prop :=
  Forall2
    (fun e e' =>
       e' = e
       \/ exists l, e = LineElement l /\ e' = LineElement (swap_line l))
    path path'.

(** Each line has an endpoint on the point it is oriented against
    ([ref] for the first one); when that is its stored end, its stored
    start lies at a positive distance. *)
Fixpoint laid_head_to_tail {G : Geometry} (ref : Point3D)
    (line_points : list (Point3D * Point3D)) : Prop :=
  match line_points with
  | [] => True
  | p :: rest =>
      (fst p = ref
       \/ (snd p = ref /\ 0 < distance_between_points (fst p) ref))
      /\ laid_head_to_tail (snd (orient ref p)) rest
  end.

(** Each pair starts where the one before it ends, the first at [ref]. *)
Fixpoint connected_chain (ref : Point3D)
    (corrected : list (Point3D * Point3D)) : Prop :=
  match corrected with
  | [] => True
  | c :: rest => fst c = ref /\ connected_chain (snd c) rest
  end.

(** A proximity test to run the definitions with: within a tenth of a
    unit on every axis. *)
Definition sample_proximity : Proximity := {|
  points_are_close p q :=
    Qle_bool (Qabs (idx0 q - idx0 p)) 0.1
    && Qle_bool (Qabs (idx1 q - idx1 p)) 0.1
    && Qle_bool (Qabs (idx2 q - idx2 p)) 0.1
|}.

(** The chain of [test_middle_element_has_no_free_endpoint]. *)
Definition sample_chain : list ElementRef.t :=
  [ElementRef.mk 1 (LineElement (SketchLine.mk (0, 0, 0) (1, 0, 0)));
   ElementRef.mk 2 (ArcElement (SketchArc.mk (1, 0, 0) (2, 0, 0) 1));
   ElementRef.mk 3 (LineElement (SketchLine.mk (2, 0, 0) (3, 0, 0)))].

(* ------------------------------------------------------------------ *)
(** ** The totals in binary floating point

    The program computes with Python floats, which are IEEE 754 binary64
    numbers.  This module repeats, with the binary64 numbers of the
    kernel and on the lengths alone, the part of [generate] that runs
    from the extra material to the totals, and the loop of
    [build_segments_and_marks] over the segments.  It is used to run the
    two ways in which the program adds up the same lengths. *)
Module Binary64.
Import PrimFloat.
#[local] Set Warnings "-inexact-float".
Local Open Scope float_scope.

(** Python's [max(a, b)] of two floats: [b] when [b > a], else [a]. *)
Definition max2 (a b : float) : float := if a <? b then b else a.

(** [sum(xs)]: the additions are made from left to right, from 0.  (From
    Python 3.12 on, [sum] compensates the rounding errors of a list of
    floats; for lists of at most two floats the result is the same.) *)
Definition sum (xs : list float) : float := fold_left add xs 0.

(** The [for i, straight in enumerate(straights)] loop of
    [build_segments_and_marks], from index [i] on: the pairs
    [(starts_at, ends_at)] of the segments appended, given the lengths of
    the straights and the arc lengths of the bends. *)
Fixpoint segments_loop (arc_lengths : list float) (i : nat)
    (lengths : list float) (cumulative : float) : list (float * float) :=
  match lengths with
  | [] => []
  | length :: rest =>
      let straight := (cumulative, cumulative + length) in
      let cumulative := cumulative + length in
      match nth_error arc_lengths i with
      | Some arc_length =>
          straight :: (cumulative, cumulative + arc_length)
          :: segments_loop arc_lengths (S i) rest (cumulative + arc_length)
      | None => straight :: segments_loop arc_lengths (S i) rest cumulative
      end
  end.

(** [segments[-1].ends_at], when there is a segment. *)
Definition last_ends_at (segments : list (float * float)) : option float :=
  option_map snd (nth_error segments (List.length segments - 1)).

(** [generate] from the extra material to the totals, for straights of
    the given lengths and bends of the given arc lengths: the extra
    material, the segments and the total cut length.  [generate] gets
    here with at least one straight. *)
Definition totals (min_grip die_offset : float)
    (lengths arc_lengths : list float)
    : option (float * list (float * float) * float) :=
  match lengths with
  | [] => None
  | first_length :: _ =>
      let first_feed := first_length - die_offset in
      let extra_material :=
        if 0 <? min_grip then max2 0 (min_grip - first_feed) else 0 in
      let segments := segments_loop arc_lengths 0 lengths extra_material in
      let total_straights := sum lengths in
      let total_arcs := sum arc_lengths in
      let total_centerline := total_straights + total_arcs in
      let total_cut_length := total_centerline + extra_material in
      Some (extra_material, segments, total_cut_length)
  end.

End Binary64.

(** ** Tactics *)

(** One or more steps of the search on segments that are given by their
    constructors. *)
Ltac find_step :=
  cbn [find_bend_start straight_segment bend_segment
       PathSegment.segment_type PathSegment.name PathSegment.starts_at
       SegmentType_eqb andb].

(* ------------------------------------------------------------------ *)
(** ** The test suite, replayed on the model *)

(** [test_multi_bend_path]: five segments, marks at 9 and 21. *)
Example test_multi_bend_path :
  let '(segments, marks) :=
    build_segments_and_marks
      [make_straight 1 10; make_straight 2 8; make_straight 3 12]
      [BendData.mk 1 45 None 4; BendData.mk 2 90 (Some 30) 6] 0 1 in
  map PathSegment.segment_type segments
  = [seg_straight; seg_bend; seg_straight; seg_bend; seg_straight]
  /\ map MarkPosition.bend_num marks = [1%Z; 2%Z]
  /\ map MarkPosition.mark_position marks = [9; 21].
Proof. vm_compute. repeat split. Qed.

(** [test_empty_bends]: two straight segments and no mark. *)
Example test_empty_bends :
  let '(segments, marks) :=
    build_segments_and_marks [make_straight 1 10; make_straight 2 10] [] 0 0 in
  map PathSegment.segment_type segments = [seg_straight; seg_straight]
  /\ marks = [].
Proof. vm_compute. repeat split. Qed.

(** [test_rotation_on_segments] *)
Example test_rotation_on_segments :
  map PathSegment.rotation
    (fst (build_segments_and_marks
            [make_straight 1 10; make_straight 2 10; make_straight 3 10]
            [BendData.mk 1 45 None 5; BendData.mk 2 90 (Some 30) 5] 0 0))
  = [None; None; Some 30; None; None].
Proof. reflexivity. Qed.

(** [test_single_arc], [test_zero_clr_returns_mismatch],
    [test_negative_clr_returns_mismatch] and
    [test_multiple_arcs_first_zero]. *)
Example test_validate_clr :
  validate_clr_consistency [SketchArc.mk (0, 0, 0) (1, 0, 0) 5.0] sample_units
  = (5.0, false, [5.0])
  /\ validate_clr_consistency [SketchArc.mk (0, 0, 0) (1, 0, 0) 0] sample_units
     = (0, true, [0])
  /\ validate_clr_consistency
       [SketchArc.mk (0, 0, 0) (1, 0, 0) (-1)] sample_units
     = (0, true, [-1])
  /\ fst (validate_clr_consistency
            [SketchArc.mk (0, 0, 0) (1, 0, 0) 0;
             SketchArc.mk (1, 0, 0) (2, 0, 0) 5.0] sample_units)
     = (0, true).
Proof. vm_compute. repeat split. Qed.

(** [test_primary_axis_x_positive], [test_primary_axis_y_negative],
    [test_zero_displacement_returns_x], [test_tie_between_x_and_y],
    [test_tie_between_y_and_z] and [test_all_three_equal]. *)
Example test_determine_primary_axis :
  determine_primary_axis (0, 0, 0) (10, 1, 0.5)
  = ("X", 0%nat, "+X", "-X")%string
  /\ determine_primary_axis (0, 10, 0) (1, 0, 0.5)
     = ("Y", 1%nat, "-Y", "+Y")%string
  /\ determine_primary_axis (5, 5, 5) (5, 5, 5)
     = ("X", 0%nat, "-X", "+X")%string
  /\ determine_primary_axis (0, 0, 0) (10, 10, 0)
     = ("X", 0%nat, "+X", "-X")%string
  /\ determine_primary_axis (0, 0, 0) (0, 10, 10)
     = ("Y", 1%nat, "+Y", "-Y")%string
  /\ determine_primary_axis (0, 0, 0) (5, 5, 5)
     = ("X", 0%nat, "+X", "-X")%string.
Proof. vm_compute. repeat split. Qed.

(** [test_cross_product_unit_vectors] and
    [test_cross_product_antiparallel]. *)
Example test_cross_product :
  cross_product (1, 0, 0) (0, 1, 0) = (0, 0, 1)
  /\ cross_product (0, 1, 0) (1, 0, 0) = (0, 0, -1).
Proof. vm_compute. repeat split. Qed.

(* ------------------------------------------------------------------ *)
(** ** Lemmas on the Python helpers *)

Lemma Qltb_lt (a b : Q) : Qltb a b = true <-> a < b.
Proof.
  unfold Qltb. rewrite negb_true_iff.
  split; intro H.
  - apply Qnot_le_lt. intro Hle. apply Qle_bool_iff in Hle. congruence.
  - destruct (Qle_bool b a) eqn:E; [|reflexivity].
    apply Qle_bool_iff in E. exfalso. apply (Qlt_not_le _ _ H E).
Qed.

Lemma Qltb_ge (a b : Q) : Qltb a b = false <-> b <= a.
Proof.
  unfold Qltb. rewrite negb_false_iff. apply Qle_bool_iff.
Qed.

Lemma Qgtb_gt (a b : Q) : Qgtb a b = true <-> b < a.
Proof. unfold Qgtb. apply Qltb_lt. Qed.

Lemma Qgtb_le (a b : Q) : Qgtb a b = false <-> a <= b.
Proof. unfold Qgtb. apply Qltb_ge. Qed.

Lemma max2_ge_l (a b : Q) : a <= max2 a b.
Proof.
  unfold max2. destruct (Qgtb b a) eqn:E.
  - apply Qgtb_gt in E. apply Qlt_le_weak, E.
  - apply Qle_refl.
Qed.

Lemma max2_ge_r (a b : Q) : b <= max2 a b.
Proof.
  unfold max2. destruct (Qgtb b a) eqn:E.
  - apply Qle_refl.
  - apply Qgtb_le in E. exact E.
Qed.

Lemma max2_cases (a b : Q) : max2 a b = a \/ max2 a b = b.
Proof. unfold max2. destruct (Qgtb b a); auto. Qed.

(** Python's [max] is the mathematical maximum. *)
Lemma max2_Qmax (a b : Q) : max2 a b == Qmax a b.
Proof.
  unfold max2. destruct (Qgtb b a) eqn:E.
  - apply Qgtb_gt in E. symmetry. apply Q.max_r. apply Qlt_le_weak, E.
  - apply Qgtb_le in E. symmetry. apply Q.max_l. exact E.
Qed.

Lemma sum_from (xs : list Q) (a : Q) : fold_left Qplus xs a == a + sum xs.
Proof.
  unfold sum. revert a.
  induction xs as [|x xs IH]; intro a; simpl.
  - ring.
  - rewrite (IH (a + x)), (IH (0 + x)). ring.
Qed.

Lemma sum_cons (x : Q) (xs : list Q) : sum (x :: xs) == x + sum xs.
Proof. unfold sum at 1. simpl. rewrite sum_from. ring. Qed.

Lemma sum_nil : sum [] == 0.
Proof. reflexivity. Qed.

(** [str] is one-to-one on integers. *)
Lemma to_int_not_nil (n : Z) :
  Z.to_int n <> Decimal.Pos Decimal.Nil
  /\ Z.to_int n <> Decimal.Neg Decimal.Nil.
Proof.
  pose proof (DecimalZ.to_of (Z.to_int n)) as H.
  rewrite DecimalZ.of_to in H.
  split; intro E; rewrite E in H; discriminate H.
Qed.

Lemma str_int_inj (n m : Z) : str_int n = str_int m -> n = m.
Proof.
  unfold str_int. intro H.
  destruct (to_int_not_nil n) as [Hn1 Hn2].
  destruct (to_int_not_nil m) as [Hm1 Hm2].
  pose proof (DecimalString.NilZero.isi _ Hn1 Hn2) as En.
  pose proof (DecimalString.NilZero.isi _ Hm1 Hm2) as Em.
  rewrite H in En. rewrite En in Em.
  injection Em as Em.
  rewrite <- (DecimalZ.of_to n), <- (DecimalZ.of_to m).
  now rewrite Em.
Qed.

Lemma bend_name_eqb (n m : Z) :
  String.eqb ("BEND " ++ str_int n) ("BEND " ++ str_int m) = Z.eqb n m.
Proof.
  destruct (Z.eqb_spec n m) as [->|Hne].
  - apply String.eqb_refl.
  - apply String.eqb_neq. intro H. apply Hne, str_int_inj.
    simpl in H. now inversion H.
Qed.

(* ------------------------------------------------------------------ *)
(** ** The segment loop *)

Lemma segments_loop_timeline bends straights :
  forall i segments cumulative,
    segments_loop bends i straights segments cumulative
    = (segments ++ timeline bends i straights cumulative,
       final_end cumulative (timeline bends i straights cumulative)).
Proof.
  induction straights as [|s rest IH]; intros i segments cumulative; simpl.
  - now rewrite app_nil_r.
  - destruct (nth_error bends i) as [b|]; rewrite IH; simpl;
      repeat rewrite <- app_assoc; reflexivity.
Qed.

Lemma build_segments_timeline straights bends extra_material die_offset :
  fst (build_segments_and_marks straights bends extra_material die_offset)
  = timeline bends 0 straights extra_material.
Proof.
  unfold build_segments_and_marks. simpl.
  now rewrite segments_loop_timeline.
Qed.

Lemma build_marks straights bends extra_material die_offset :
  snd (build_segments_and_marks straights bends extra_material die_offset)
  = map (mark_of (timeline bends 0 straights extra_material) die_offset) bends.
Proof.
  unfold build_segments_and_marks. simpl.
  now rewrite segments_loop_timeline.
Qed.

Lemma timeline_chained bends straights :
  forall i cumulative, chained cumulative (timeline bends i straights cumulative).
Proof.
  induction straights as [|s rest IH]; intros i cumulative; simpl; [exact I|].
  split; [reflexivity|].
  destruct (nth_error bends i) as [b|]; simpl.
  - split; [reflexivity|]. apply IH.
  - apply IH.
Qed.

(** In a chained list, neighbours meet. *)
Lemma chained_adjacent segments :
  forall c k a b,
    chained c segments ->
    nth_error segments k = Some a ->
    nth_error segments (S k) = Some b ->
    PathSegment.ends_at a = PathSegment.starts_at b.
Proof.
  induction segments as [|seg rest IH]; intros c k a b Hc Ha Hb.
  - destruct k; discriminate Ha.
  - destruct Hc as [_ Hrest]. destruct k as [|k].
    + injection Ha as <-. destruct rest as [|seg' rest']; [discriminate Hb|].
      injection Hb as <-. destruct Hrest as [Hs _]. now rewrite Hs.
    + apply (IH _ k a b Hrest Ha Hb).
Qed.

Lemma final_end_last segments :
  forall c seg,
    last_segment segments = Some seg ->
    final_end c segments = PathSegment.ends_at seg.
Proof.
  unfold last_segment.
  induction segments as [|s rest IH]; intros c seg H.
  - discriminate H.
  - simpl. destruct rest as [|s' rest'].
    + injection H as <-. reflexivity.
    + apply IH. simpl in H. simpl. now rewrite Nat.sub_0_r in *.
Qed.

(** The running offset after the loop, as a sum. *)
Lemma timeline_final_end bends straights :
  forall i cumulative,
    final_end cumulative (timeline bends i straights cumulative)
    == cumulative
       + sum (map StraightSection.length straights)
       + sum (map BendData.arc_length
                  (firstn (List.length straights) (skipn i bends))).
Proof.
  induction straights as [|s rest IH]; intros i cumulative.
  - simpl. rewrite sum_nil. ring.
  - cbn [timeline final_end straight_segment PathSegment.ends_at].
    cbn [map List.length]. rewrite sum_cons.
    destruct (nth_error bends i) as [b|] eqn:Hb.
    + cbn [final_end bend_segment PathSegment.ends_at].
      rewrite IH.
      assert (Hskip : skipn i bends = b :: skipn (S i) bends).
      { clear -Hb. revert i Hb.
        induction bends as [|x xs IHb]; intros [|i] Hb; try discriminate Hb.
        - now injection Hb as ->.
        - simpl in Hb. cbn [skipn]. now apply IHb. }
      rewrite Hskip. cbn [firstn map]. rewrite sum_cons. ring.
    + rewrite IH.
      apply nth_error_None in Hb.
      rewrite (skipn_all2 bends) by lia.
      rewrite (skipn_all2 bends) by lia.
      rewrite !firstn_nil. simpl. rewrite sum_nil. ring.
Qed.

Lemma timeline_nonempty bends i s rest cumulative :
  exists seg,
    last_segment (timeline bends i (s :: rest) cumulative) = Some seg.
Proof.
  unfold last_segment.
  set (l := timeline bends i (s :: rest) cumulative).
  assert (Hl : (0 < List.length l)%nat) by (subst l; simpl; lia).
  destruct (nth_error l (List.length l - 1)) as [seg|] eqn:E.
  - now exists seg.
  - apply nth_error_None in E. lia.
Qed.

(* ------------------------------------------------------------------ *)
(** ** The mark search *)

(** The bend at index [k + i], whose number no bend from [k] to
    [k + i - 1] shares, is given the segment at position [2 * i + 1] of
    the timeline built from index [k], and the search by name stops on
    that segment. *)
Lemma find_bend_start_timeline bends b :
  forall i straights k cumulative,
    nth_error bends (k + i) = Some b ->
    (i < List.length straights)%nat ->
    (forall j b', (k <= j < k + i)%nat -> nth_error bends j = Some b' ->
                  BendData.number b' <> BendData.number b) ->
    exists c,
      nth_error (timeline bends k straights cumulative) (2 * i + 1)
      = Some (bend_segment b c)
      /\ find_bend_start ("BEND " ++ str_int (BendData.number b))
           (timeline bends k straights cumulative) 0 = c.
Proof.
  induction i as [|i IH]; intros straights k cumulative Hb Hlen Hfresh;
    (destruct straights as [|s rest]; [simpl in Hlen; lia|]).
  - rewrite Nat.add_0_r in Hb. cbn [timeline]. rewrite Hb.
    exists (cumulative + StraightSection.length s). split; [reflexivity|].
    find_step. now rewrite bend_name_eqb, Z.eqb_refl.
  - cbn [timeline].
    destruct (nth_error bends k) as [bk|] eqn:Hk.
    + destruct (IH rest (S k)
                  (cumulative + StraightSection.length s
                   + BendData.arc_length bk)) as [c [Hnth Hfind]].
      * replace (S k + i)%nat with (k + S i)%nat by lia. exact Hb.
      * simpl in Hlen. lia.
      * intros j b' Hj. apply Hfresh. lia.
      * exists c. split.
        -- replace (2 * S i + 1)%nat with (S (S (2 * i + 1))) by lia.
           exact Hnth.
        -- find_step. rewrite bend_name_eqb.
           destruct (Z.eqb_spec (BendData.number bk) (BendData.number b))
             as [E|_]; [|exact Hfind].
           exfalso. apply (Hfresh k bk); [lia|exact Hk|exact E].
    + apply nth_error_None in Hk.
      assert (nth_error bends (k + S i) <> None) by congruence.
      apply nth_error_Some in H. lia.
Qed.

(* ------------------------------------------------------------------ *)
(** ** Claims on [build_segments_and_marks] *)

(** C1 (as amended).  Two straights of length 10 and one bend of arc
    length 5, with 2 of extra material and a die offset of 0.5, give
    three segments running 2 to 12, 12 to 17 and 17 to 27 and one mark at
    11.5, whatever the numbers, angle and rotation are.  In general the
    bend at index [i] has a segment in the timeline when
    [i < len(straights)]; it is the segment at index [2 * i + 1]; and
    when no earlier bend bears the same number, the mark of that bend is
    this segment's [starts_at] minus the die offset. *)
Theorem C1_mark_positions :
  (forall s1 s2 b,
      StraightSection.length s1 == 10 ->
      StraightSection.length s2 == 10 ->
      BendData.arc_length b == 5 ->
      exists g1 g2 g3 m,
        build_segments_and_marks [s1; s2] [b] 2 0.5 = ([g1; g2; g3], [m])
        /\ PathSegment.starts_at g1 == 2 /\ PathSegment.ends_at g1 == 12
        /\ PathSegment.starts_at g2 == 12 /\ PathSegment.ends_at g2 == 17
        /\ PathSegment.starts_at g3 == 17 /\ PathSegment.ends_at g3 == 27
        /\ MarkPosition.mark_position m == 11.5)
  /\
  (forall straights bends extra_material die_offset i b,
      nth_error bends i = Some b ->
      (i < List.length straights)%nat ->
      (forall j b', (j < i)%nat -> nth_error bends j = Some b' ->
                    BendData.number b' <> BendData.number b) ->
      exists seg m,
        nth_error
          (fst (build_segments_and_marks straights bends
                  extra_material die_offset)) (2 * i + 1) = Some seg
        /\ PathSegment.segment_type seg = seg_bend
        /\ PathSegment.name seg
           = ("BEND " ++ str_int (BendData.number b))%string
        /\ PathSegment.length seg = BendData.arc_length b
        /\ nth_error
             (snd (build_segments_and_marks straights bends
                     extra_material die_offset)) i = Some m
        /\ MarkPosition.bend_num m = BendData.number b
        /\ MarkPosition.mark_position m
           = PathSegment.starts_at seg - die_offset).
Proof.
  split.
  - intros s1 s2 b H1 H2 Hb.
    unfold build_segments_and_marks.
    rewrite segments_loop_timeline.
    cbn [timeline nth_error fst app map].
    unfold mark_of. find_step.
    rewrite String.eqb_refl.
    do 4 eexists. split; [reflexivity|].
    cbn [straight_segment bend_segment PathSegment.starts_at
         PathSegment.ends_at MarkPosition.mark_position].
    rewrite H1, H2, Hb.
    repeat split; reflexivity.
  - intros straights bends extra_material die_offset i b Hb Hlen Hfresh.
    rewrite build_segments_timeline, build_marks.
    destruct (find_bend_start_timeline bends b i straights 0 extra_material)
      as [c [Hnth Hfind]]; [exact Hb|exact Hlen| |].
    + intros j b' Hj. apply Hfresh. lia.
    + exists (bend_segment b c),
             (mark_of (timeline bends 0 straights extra_material)
                      die_offset b).
      repeat split; try reflexivity.
      * exact Hnth.
      * now rewrite nth_error_map, Hb.
      * unfold mark_of. cbn [MarkPosition.mark_position]. now rewrite Hfind.
Qed.

(** C1 at the example of [test_single_bend_path]. *)
Lemma C1_mark_positions_witness :
  (exists g1 g2 g3 m,
      build_segments_and_marks [make_straight 1 10; make_straight 2 10]
        [BendData.mk 1 45 None 5] 2 0.5 = ([g1; g2; g3], [m])
      /\ PathSegment.starts_at g1 == 2 /\ PathSegment.ends_at g1 == 12
      /\ PathSegment.starts_at g2 == 12 /\ PathSegment.ends_at g2 == 17
      /\ PathSegment.starts_at g3 == 17 /\ PathSegment.ends_at g3 == 27
      /\ MarkPosition.mark_position m == 11.5)
  /\
  exists seg m,
    nth_error
      (fst (build_segments_and_marks
              [make_straight 1 10; make_straight 2 10]
              [BendData.mk 1 45 None 5] 2 0.5)) (2 * 0 + 1) = Some seg
    /\ PathSegment.segment_type seg = seg_bend
    /\ PathSegment.name seg = "BEND 1"%string
    /\ PathSegment.length seg = 5
    /\ nth_error
         (snd (build_segments_and_marks
                 [make_straight 1 10; make_straight 2 10]
                 [BendData.mk 1 45 None 5] 2 0.5)) 0 = Some m
    /\ MarkPosition.bend_num m = 1%Z
    /\ MarkPosition.mark_position m = PathSegment.starts_at seg - 0.5.
Proof.
  split.
  - apply (proj1 C1_mark_positions (make_straight 1 10) (make_straight 2 10)
             (BendData.mk 1 45 None 5)); reflexivity.
  - apply (proj2 C1_mark_positions
             [make_straight 1 10; make_straight 2 10]
             [BendData.mk 1 45 None 5] 2 0.5 0%nat
             (BendData.mk 1 45 None 5)).
    + reflexivity.
    + simpl. lia.
    + intros j b' Hj. lia.
Defined.

(** C1 as stated fails when two bends bear the same number: the second
    bend below has the segment at index 3, which starts at 25, but its
    mark is computed from the first segment called [BEND 1], which starts
    at 10. *)
Lemma C1_counterexample :
  let straights := [make_straight 1 10; make_straight 2 10;
                    make_straight 3 10] in
  let bends := [BendData.mk 1 45 None 5; BendData.mk 1 90 (Some 30) 5] in
  exists seg m,
    nth_error (fst (build_segments_and_marks straights bends 0 0)) 3
    = Some seg
    /\ seg = bend_segment (BendData.mk 1 90 (Some 30) 5) 25
    /\ nth_error (snd (build_segments_and_marks straights bends 0 0)) 1
       = Some m
    /\ MarkPosition.bend_num m = 1%Z
    /\ MarkPosition.mark_position m == 10
    /\ ~ MarkPosition.mark_position m == PathSegment.starts_at seg - 0.
Proof.
  cbv zeta. do 2 eexists.
  split; [vm_compute; reflexivity|].
  split; [vm_compute; reflexivity|].
  split; [vm_compute; reflexivity|].
  split; [reflexivity|].
  split; [reflexivity|].
  vm_compute. discriminate.
Qed.

(* ------------------------------------------------------------------ *)
(** ** Rotations in the timeline *)

Lemma straight_segments_timeline bends straights :
  forall i cumulative,
    exists cumulative',
      straight_segments (timeline bends i (straights) cumulative)
      = match straights with
        | [] => []
        | s :: rest =>
            straight_segment bends i s cumulative ::
            straight_segments (timeline bends (S i) rest cumulative')
        end.
Proof.
  destruct straights as [|s rest]; intros i cumulative.
  - exists cumulative. reflexivity.
  - cbn [timeline]. destruct (nth_error bends i) as [b|].
    + eexists. reflexivity.
    + eexists. reflexivity.
Qed.

Lemma straight_segments_length bends straights :
  forall i cumulative,
    List.length (straight_segments (timeline bends i straights cumulative))
    = List.length straights.
Proof.
  induction straights as [|s rest IH]; intros i cumulative.
  - reflexivity.
  - destruct (straight_segments_timeline bends (s :: rest) i cumulative)
      as [c' ->].
    simpl. now rewrite IH.
Qed.

Lemma straight_segments_rotation bends straights :
  forall i cumulative k seg,
    nth_error (straight_segments (timeline bends i straights cumulative)) k
    = Some seg ->
    PathSegment.segment_type seg = seg_straight
    /\ PathSegment.rotation seg = following_rotation bends (i + k).
Proof.
  induction straights as [|s rest IH]; intros i cumulative k seg H.
  - destruct k; discriminate H.
  - destruct (straight_segments_timeline bends (s :: rest) i cumulative)
      as [c' E].
    rewrite E in H. destruct k as [|k].
    + injection H as <-. rewrite Nat.add_0_r. split; reflexivity.
    + simpl in H. apply IH in H.
      now replace (i + S k)%nat with (S i + k)%nat by lia.
Qed.

Lemma bend_segments_rotation bends straights :
  forall i cumulative seg,
    In seg (timeline bends i straights cumulative) ->
    PathSegment.segment_type seg = seg_bend ->
    PathSegment.rotation seg = None.
Proof.
  induction straights as [|s rest IH]; intros i cumulative seg Hin Hty.
  - destruct Hin.
  - cbn [timeline] in Hin. destruct Hin as [<-|Hin]; [discriminate Hty|].
    destruct (nth_error bends i) as [b|].
    + destruct Hin as [<-|Hin]; [reflexivity|]. eapply IH; eauto.
    + eapply IH; eauto.
Qed.

(* ------------------------------------------------------------------ *)
(** ** Loops that may raise *)

Lemma get_Ok {A : Type} (xs : list A) (i : nat) :
  (i < List.length xs)%nat -> exists x, get xs i = Ok x.
Proof.
  intro H. unfold get.
  destruct (nth_error xs i) as [x|] eqn:E; [now exists x|].
  apply nth_error_None in E. lia.
Qed.

Lemma for_range_length {A : Type} (f : nat -> result A) :
  forall n i xs, for_range f i n = Ok xs -> List.length xs = n.
Proof.
  induction n as [|n IH]; intros i xs H; simpl in H.
  - now injection H as <-.
  - destruct (f i) as [x|e]; [|discriminate H]. simpl in H.
    destruct (for_range f (S i) n) as [ys|e] eqn:E; [|discriminate H].
    simpl in H. injection H as <-. simpl. f_equal. eapply IH, E.
Qed.

Lemma for_range_nth {A : Type} (f : nat -> result A) :
  forall n i xs k x,
    for_range f i n = Ok xs -> nth_error xs k = Some x -> f (i + k)%nat = Ok x.
Proof.
  induction n as [|n IH]; intros i xs k x H Hk; simpl in H.
  - injection H as <-. destruct k; discriminate Hk.
  - destruct (f i) as [y|e] eqn:Ey; [|discriminate H]. simpl in H.
    destruct (for_range f (S i) n) as [ys|e] eqn:E; [|discriminate H].
    simpl in H. injection H as <-. destruct k as [|k].
    + injection Hk as <-. now rewrite Nat.add_0_r.
    + simpl in Hk. replace (i + S k)%nat with (S i + k)%nat by lia.
      eapply IH; eauto.
Qed.

(** A loop whose calls all return, returns. *)
Lemma for_range_Ok {A : Type} (f : nat -> result A) :
  forall n i,
    (forall k, (i <= k < i + n)%nat -> exists x, f k = Ok x) ->
    exists xs, for_range f i n = Ok xs.
Proof.
  induction n as [|n IH]; intros i H; simpl.
  - now exists [].
  - destruct (H i) as [x ->]; [lia|]. simpl.
    destruct (IH (S i)) as [xs ->]; [intros k Hk; apply H; lia|].
    simpl. now exists (x :: xs).
Qed.

(** A loop whose calls return or raise [e0], returns or raises [e0]. *)
Lemma for_range_Ok_or {A : Type} (f : nat -> result A) (e0 : exn) :
  forall n i,
    (forall k, (i <= k < i + n)%nat ->
               (exists x, f k = Ok x) \/ f k = Raise e0) ->
    (exists xs, for_range f i n = Ok xs) \/ for_range f i n = Raise e0.
Proof.
  induction n as [|n IH]; intros i H; simpl.
  - left. now exists [].
  - destruct (H i) as [[x ->]| ->]; [lia| |now right]. simpl.
    destruct (IH (S i)) as [[xs ->]| ->];
      [intros k Hk; apply H; lia| |now right].
    simpl. left. now exists (x :: xs).
Qed.

Lemma enumerate_from_length {A : Type} (xs : list A) :
  forall i, List.length (enumerate_from i xs) = List.length xs.
Proof. induction xs as [|x xs IH]; intro i; simpl; [|rewrite IH]; reflexivity. Qed.

Lemma enumerate_from_nth {A : Type} (xs : list A) :
  forall i k, nth_error (enumerate_from i xs) k
              = option_map (fun x => ((i + k)%nat, x)) (nth_error xs k).
Proof.
  induction xs as [|x xs IH]; intros i [|k]; simpl; try reflexivity.
  - now rewrite Nat.add_0_r.
  - rewrite IH. now replace (S i + k)%nat with (i + S k)%nat by lia.
Qed.

(* ------------------------------------------------------------------ *)
(** ** [calculate_straights_and_bends] *)

Section CalculationFacts.
Context {G : Geometry}.

Lemma orient_remaining_length line_points :
  forall prev_end,
    List.length (orient_remaining prev_end line_points)
    = List.length line_points.
Proof.
  induction line_points as [|p rest IH]; intro prev_end; simpl;
    [|rewrite IH]; reflexivity.
Qed.

(** The first line is oriented like the others, with the path start in
    the place of the previous end. *)
Lemma corrected_lines_orient path_start first rest :
  corrected_lines path_start first rest
  = orient_remaining path_start (first :: rest).
Proof.
  unfold corrected_lines. destruct first as [first_start first_end].
  reflexivity.
Qed.

Lemma corrected_lines_length path_start first rest :
  List.length (corrected_lines path_start first rest)
  = S (List.length rest).
Proof.
  rewrite corrected_lines_orient. now rewrite orient_remaining_length.
Qed.

(** With enough vectors the normals loop returns. *)
Lemma normals_Ok (vectors : list Vector3D) (n : nat) :
  (n + 1 <= List.length vectors)%nat ->
  exists normals,
    for_range
      (fun i =>
         v0 <- get vectors i ;;
         v1 <- get vectors (i + 1) ;;
         Ok (cross_product v0 v1)) 0 n = Ok normals.
Proof.
  intro H. apply for_range_Ok. intros k Hk.
  destruct (get_Ok vectors k) as [v0 ->]; [lia|].
  destruct (get_Ok vectors (k + 1)) as [v1 ->]; [lia|].
  simpl. eauto.
Qed.

(** With enough vectors and normals, a bend is built or
    [ZeroVectorError] is raised. *)
Lemma bend_of_Ok_or (vectors normals : list Vector3D) (clr : Q) (i : nat) :
  (i + 1 < List.length vectors)%nat ->
  (i < List.length normals)%nat ->
  (exists b, bend_of vectors normals clr i = Ok b)
  \/ bend_of vectors normals clr i = Raise ZeroVectorError.
Proof.
  intros Hv Hn. unfold bend_of.
  destruct (get_Ok vectors i) as [v0 ->]; [lia|].
  destruct (get_Ok vectors (i + 1)) as [v1 ->]; [lia|].
  cbn [bind].
  destruct (angle_between_vectors v0 v1) as [a|]; [|now right].
  cbn [or_zero_vector_error bind].
  destruct (0 <? i)%nat eqn:E.
  - apply Nat.ltb_lt in E.
    destruct (get_Ok normals (i - 1)) as [n0 ->]; [lia|].
    destruct (get_Ok normals i) as [n1 ->]; [lia|].
    cbn [bind].
    destruct (calculate_rotation n0 n1) as [r|]; [|now right].
    cbn. left. eauto.
  - cbn. left. eauto.
Qed.

(** What a returning call has computed. *)
Lemma calculate_Ok_inv lines arcs path_start clr units straights bends :
  calculate_straights_and_bends lines arcs path_start clr units
  = Ok (straights, bends) ->
  exists first rest normals,
    map get_sketch_entity_endpoints lines = first :: rest
    /\ straights
       = map (straight_of units)
           (enumerate_from 0 (corrected_lines path_start first rest))
    /\ (List.length arcs + 1 <= List.length lines)%nat
    /\ for_range
         (bend_of (map vector_of (corrected_lines path_start first rest))
                  normals clr) 0 (List.length arcs) = Ok bends.
Proof.
  unfold calculate_straights_and_bends. intro H.
  destruct (map get_sketch_entity_endpoints lines) as [|first rest] eqn:E;
    [discriminate H|].
  destruct (_ <? _)%nat eqn:Hlen in H; [discriminate H|].
  apply Nat.ltb_ge in Hlen.
  rewrite length_map, corrected_lines_length in Hlen.
  destruct (for_range _ 0 (List.length arcs)) as [normals|e] in H;
    [|discriminate H].
  cbn [bind] in H.
  destruct (for_range _ 0 (List.length arcs)) as [bs|e] eqn:Eb in H;
    [|discriminate H].
  cbn [bind] in H. injection H as <- <-.
  exists first, rest, normals. repeat split; auto.
  apply (f_equal (@List.length _)) in E. rewrite length_map in E.
  simpl in E. lia.
Qed.

Lemma calculate_Ok_lengths lines arcs path_start clr units straights bends :
  calculate_straights_and_bends lines arcs path_start clr units
  = Ok (straights, bends) ->
  List.length straights = List.length lines
  /\ List.length bends = List.length arcs
  /\ (List.length bends < List.length straights)%nat.
Proof.
  intro H. apply calculate_Ok_inv in H.
  destruct H as [first [rest [normals [E [-> [Hlen Hb]]]]]].
  apply for_range_length in Hb.
  rewrite length_map, enumerate_from_length, corrected_lines_length.
  apply (f_equal (@List.length _)) in E. rewrite length_map in E.
  simpl in E. lia.
Qed.

(** With enough lines the call returns, unless a vector is
    degenerate. *)
Lemma calculate_enough lines arcs path_start clr units :
  (List.length arcs + 1 <= List.length lines)%nat ->
  (exists sb,
      calculate_straights_and_bends lines arcs path_start clr units = Ok sb)
  \/ calculate_straights_and_bends lines arcs path_start clr units
     = Raise ZeroVectorError.
Proof.
  intro Hlen. unfold calculate_straights_and_bends.
  destruct (map get_sketch_entity_endpoints lines) as [|first rest] eqn:E.
  - apply (f_equal (@List.length _)) in E. rewrite length_map in E.
    simpl in E. lia.
  - assert (Hv : List.length
                   (map vector_of (corrected_lines path_start first rest))
                 = List.length lines).
    { rewrite length_map, corrected_lines_length.
      apply (f_equal (@List.length _)) in E. rewrite length_map in E.
      simpl in E. lia. }
    rewrite Hv.
    destruct (Nat.ltb_spec (List.length lines) (List.length arcs + 1));
      [lia|].
    destruct (normals_Ok
                (map vector_of (corrected_lines path_start first rest))
                (List.length arcs)) as [normals En]; [lia|].
    rewrite En. cbn [bind].
    pose proof (for_range_length _ _ _ _ En) as Hn.
    destruct (for_range_Ok_or
                (bend_of
                   (map vector_of (corrected_lines path_start first rest))
                   normals clr)
                ZeroVectorError (List.length arcs) 0) as [[bs ->]| ->].
    + intros k Hk. apply bend_of_Ok_or; lia.
    + left. cbn. eauto.
    + right. reflexivity.
Qed.

Lemma calculate_no_lines arcs path_start clr units :
  calculate_straights_and_bends [] arcs path_start clr units
  = Raise (ValueError "No lines provided - cannot calculate bend data").
Proof. reflexivity. Qed.

Lemma calculate_too_few lines arcs path_start clr units :
  lines <> [] ->
  (List.length lines < List.length arcs + 1)%nat ->
  calculate_straights_and_bends lines arcs path_start clr units
  = Raise (ValueError
             (insufficient_vectors_message (List.length lines)
                                           (List.length arcs))).
Proof.
  intros Hne Hlen. unfold calculate_straights_and_bends.
  destruct lines as [|l lines]; [congruence|].
  cbn [map]. rewrite length_map, corrected_lines_length, length_map.
  cbn [List.length] in *.
  destruct (Nat.ltb_spec (S (List.length lines)) (List.length arcs + 1));
    [reflexivity|lia].
Qed.

End CalculationFacts.

(* ------------------------------------------------------------------ *)
(** ** Claims on the failures of [calculate_straights_and_bends] *)

(** C6 (as amended).  [calculate_straights_and_bends] raises
    [ValueError] exactly when there are fewer lines (hence direction
    vectors) than arcs plus one: with the message "No lines provided"
    when there is no line at all, and with the message "Insufficient
    vectors" otherwise.  A call that raises returns nothing. *)
Theorem C6_insufficient_vectors {G : Geometry}
    (lines : list SketchLine.t) (arcs : list SketchArc.t)
    (path_start : Point3D) (clr : Q) (units : UnitConfig.t) :
  ((List.length lines < List.length arcs + 1)%nat <->
   exists msg,
     calculate_straights_and_bends lines arcs path_start clr units
     = Raise (ValueError msg))
  /\ (lines = [] ->
      calculate_straights_and_bends lines arcs path_start clr units
      = Raise (ValueError "No lines provided - cannot calculate bend data"))
  /\ (lines <> [] ->
      (List.length lines < List.length arcs + 1)%nat ->
      calculate_straights_and_bends lines arcs path_start clr units
      = Raise (ValueError
                 (insufficient_vectors_message (List.length lines)
                                               (List.length arcs))))
  /\ (forall e,
         calculate_straights_and_bends lines arcs path_start clr units
         = Raise e ->
         forall sb,
           calculate_straights_and_bends lines arcs path_start clr units
           <> Ok sb).
Proof.
  repeat split.
  - intro Hlen. destruct lines as [|l lines'] eqn:El.
    + eexists. apply calculate_no_lines.
    + eexists. apply calculate_too_few; [discriminate|exact Hlen].
  - intros [msg Hmsg].
    destruct (Nat.lt_ge_cases (List.length lines) (List.length arcs + 1))
      as [Hlt|Hge]; [exact Hlt|].
    destruct (calculate_enough lines arcs path_start clr units Hge)
      as [[sb Hsb]|Hz]; congruence.
  - intros ->. apply calculate_no_lines.
  - apply calculate_too_few.
  - intros e He sb Hsb. congruence.
Qed.

(** C6 at one line and two arcs. *)
Lemma C6_insufficient_vectors_witness :
  calculate_straights_and_bends (G := sample_geometry)
    [SketchLine.mk (0, 0, 0) (10, 0, 0)] [sample_arc; sample_arc]
    (0, 0, 0) 2 sample_units
  = Raise (ValueError
             "Insufficient vectors (1) for 2 arcs - expected at least arcs + 1 vectors").
Proof.
  apply (proj1 (proj2 (proj2
           (C6_insufficient_vectors (G := sample_geometry)
              [SketchLine.mk (0, 0, 0) (10, 0, 0)] [sample_arc; sample_arc]
              (0, 0, 0) 2 sample_units)))).
  - discriminate.
  - simpl. lia.
Defined.

(** C6 as stated names an exception class the code does not have: with
    one line and two arcs the call raises, and what it raises is a
    [ValueError]. *)
Lemma C6_counterexample :
  (1 < 2 + 1)%nat
  /\ ~ exists e,
        calculate_straights_and_bends (G := sample_geometry)
          [SketchLine.mk (0, 0, 0) (10, 0, 0)] [sample_arc; sample_arc]
          (0, 0, 0) 2 sample_units = Raise e
        /\ exn_name e = "InsufficientGeometryError"%string.
Proof.
  split; [lia|].
  intros [e [He Hname]].
  vm_compute in He. injection He as <-. discriminate Hname.
Qed.

(* ------------------------------------------------------------------ *)
(** ** Claims on rotations *)

Section RotationFacts.
Context {G : Geometry}.

Lemma bend_of_first (vectors normals : list Vector3D) (clr : Q) b :
  bend_of vectors normals clr 0 = Ok b -> BendData.rotation b = None.
Proof.
  unfold bend_of. intro H.
  destruct (get vectors 0) as [v0|]; [|discriminate H].
  destruct (get vectors (0 + 1)) as [v1|]; [|discriminate H].
  cbn [bind] in H.
  destruct (angle_between_vectors v0 v1) as [a|]; [|discriminate H].
  cbn in H. now injection H as <-.
Qed.

Lemma bend_of_later (vectors normals : list Vector3D) (clr : Q) i b :
  bend_of vectors normals clr (S i) = Ok b ->
  exists r, BendData.rotation b = Some r.
Proof.
  unfold bend_of. intro H.
  destruct (get vectors (S i)) as [v0|]; [|discriminate H].
  destruct (get vectors (S i + 1)) as [v1|]; [|discriminate H].
  cbn [bind] in H.
  destruct (angle_between_vectors v0 v1) as [a|]; [|discriminate H].
  cbn [or_zero_vector_error bind Nat.ltb Nat.leb] in H.
  destruct (get normals (S i - 1)) as [n0|]; [|discriminate H].
  destruct (get normals (S i)) as [n1|]; [|discriminate H].
  cbn [bind] in H.
  destruct (calculate_rotation n0 n1) as [r|]; [|discriminate H].
  cbn in H. injection H as <-. now exists r.
Qed.

Lemma calculate_first_rotation lines arcs path_start clr units
    straights bends b :
  calculate_straights_and_bends lines arcs path_start clr units
  = Ok (straights, bends) ->
  nth_error bends 0 = Some b ->
  BendData.rotation b = None.
Proof.
  intros H Hb. apply calculate_Ok_inv in H.
  destruct H as [first [rest [normals [_ [_ [_ Hbends]]]]]].
  eapply bend_of_first.
  apply (for_range_nth _ _ _ _ _ _ Hbends Hb).
Qed.

End RotationFacts.

(** C4 (as amended).  In what [calculate_straights_and_bends] returns
    the first bend has rotation [None].  In what
    [build_segments_and_marks] returns every straight has its segment,
    the segment of the straight at index [i] carries the rotation of the
    bend at index [i] when there is one and [None] when there is none,
    and every bend segment has rotation [None]; when there are fewer
    bends than straights, the last straight has no bend at its index, and
    its rotation is [None]. *)
Theorem C4_rotations :
  (forall (G : Geometry) lines arcs path_start clr units straights bends b,
      calculate_straights_and_bends lines arcs path_start clr units
      = Ok (straights, bends) ->
      nth_error bends 0 = Some b ->
      BendData.rotation b = None)
  /\
  (forall straights bends extra_material die_offset,
      let segments :=
        fst (build_segments_and_marks straights bends
               extra_material die_offset) in
      List.length (straight_segments segments) = List.length straights
      /\ (forall i seg,
             nth_error (straight_segments segments) i = Some seg ->
             PathSegment.rotation seg
             = match nth_error bends i with
               | Some b => BendData.rotation b
               | None => None
               end)
      /\ (forall seg,
             In seg segments ->
             PathSegment.segment_type seg = seg_bend ->
             PathSegment.rotation seg = None)
      /\ ((List.length bends < List.length straights)%nat ->
          forall seg,
            nth_error (straight_segments segments)
                      (List.length straights - 1) = Some seg ->
            PathSegment.rotation seg = None)).
Proof.
  split.
  - intros G lines arcs path_start clr units straights bends b.
    apply calculate_first_rotation.
  - intros straights bends extra_material die_offset segments.
    subst segments. rewrite build_segments_timeline.
    assert (Hrot : forall i seg,
               nth_error
                 (straight_segments (timeline bends 0 straights extra_material))
                 i = Some seg ->
               PathSegment.rotation seg = following_rotation bends i).
    { intros i seg H. now apply straight_segments_rotation in H. }
    repeat split.
    + apply straight_segments_length.
    + exact Hrot.
    + apply bend_segments_rotation.
    + intros Hlen seg H. rewrite (Hrot _ _ H). unfold following_rotation.
      destruct (nth_error bends (List.length straights - 1)) eqn:E;
        [|reflexivity].
      assert (nth_error bends (List.length straights - 1) <> None)
        by congruence.
      apply nth_error_Some in H0. lia.
Qed.

(** C4 on the sample lines (first part) and on the straights and bends
    of [test_rotation_on_segments] (last part). *)
Lemma C4_rotations_witness :
  BendData.rotation (BendData.mk 1 90 None (63900 # 20340)) = None
  /\ forall seg,
       nth_error
         (straight_segments
            (fst (build_segments_and_marks
                    [make_straight 1 10; make_straight 2 10;
                     make_straight 3 10]
                    [BendData.mk 1 45 None 5; BendData.mk 2 90 (Some 30) 5]
                    0 0))) (3 - 1) = Some seg ->
       PathSegment.rotation seg = None.
Proof.
  split.
  - apply (proj1 C4_rotations sample_geometry sample_lines
             [sample_arc; sample_arc] (0, 0, 0) 2 sample_units
             (map (straight_of (G := sample_geometry) sample_units)
                (enumerate_from 0
                   (oriented_lines (G := sample_geometry) (0, 0, 0)
                      (map get_sketch_entity_endpoints sample_lines))))
             [BendData.mk 1 90 None (63900 # 20340);
              BendData.mk 2 90 (Some 90) (63900 # 20340)]).
    + vm_compute. reflexivity.
    + reflexivity.
  - apply (proj2 C4_rotations
             [make_straight 1 10; make_straight 2 10; make_straight 3 10]
             [BendData.mk 1 45 None 5; BendData.mk 2 90 (Some 30) 5] 0 0).
    simpl. lia.
Defined.

(** C4 as stated fails when the last straight is followed by a bend: its
    segment carries that bend's rotation. *)
Lemma C4_counterexample :
  let straights := [make_straight 1 10] in
  let bends := [BendData.mk 1 45 (Some 30) 5] in
  exists seg,
    nth_error
      (straight_segments
         (fst (build_segments_and_marks straights bends 0 0)))
      (List.length straights - 1) = Some seg
    /\ PathSegment.rotation seg = Some 30
    /\ PathSegment.rotation seg <> None.
Proof.
  cbv zeta. eexists.
  split; [vm_compute; reflexivity|].
  split; [reflexivity|discriminate].
Qed.

(* ------------------------------------------------------------------ *)
(** ** The generator *)

Section GeneratorFacts.
Context {G : Geometry}.

(** An exception of [calculate_straights_and_bends] leaves [generate]. *)
Lemma generate_Raise units ordered_path start_point params
    component_name travel_direction starts_with_arc ends_with_arc e :
  calculate_straights_and_bends (lines_of ordered_path) (arcs_of ordered_path)
    start_point (fst (fst (validate_clr_consistency (arcs_of ordered_path) units)))
    units = Raise e ->
  generate units ordered_path start_point params component_name
    travel_direction starts_with_arc ends_with_arc = Raise e.
Proof.
  unfold generate. intro H.
  destruct (validate_clr_consistency (arcs_of ordered_path) units)
    as [[clr mismatch] values].
  cbn [fst] in H. now rewrite H.
Qed.

(** When [calculate_straights_and_bends] returns, [generate] returns a
    success whose data are as follows. *)
Lemma generate_Ok units ordered_path start_point params
    component_name travel_direction starts_with_arc ends_with_arc
    straights bends :
  calculate_straights_and_bends (lines_of ordered_path) (arcs_of ordered_path)
    start_point (fst (fst (validate_clr_consistency (arcs_of ordered_path) units)))
    units = Ok (straights, bends) ->
  exists d first_straight rest,
    generate units ordered_path start_point params component_name
      travel_direction starts_with_arc ends_with_arc
    = Ok (GenerationResult.mk true (Some d) "")
    /\ straights = first_straight :: rest
    /\ BendSheetData.straights d = straights
    /\ BendSheetData.bends d = bends
    /\ BendSheetData.extra_material d
       = (if Qgtb (BendSheetParams.min_grip params) 0
          then max2 0 (BendSheetParams.min_grip params
                       - (StraightSection.length first_straight
                          - BendSheetParams.die_offset params))
          else 0)
    /\ BendSheetData.segments d
       = fst (build_segments_and_marks straights bends
                (BendSheetData.extra_material d)
                (BendSheetParams.die_offset params))
    /\ BendSheetData.mark_positions d
       = snd (build_segments_and_marks straights bends
                (BendSheetData.extra_material d)
                (BendSheetParams.die_offset params))
    /\ BendSheetData.total_cut_length d
       = sum (map StraightSection.length straights)
         + sum (map BendData.arc_length bends)
         + BendSheetData.extra_material d
    /\ BendSheetData.grip_violations d
       = grip_violations_of (BendSheetParams.min_grip params) straights
    /\ BendSheetData.tail_violation d
       = tail_violation_of (BendSheetParams.min_tail params) straights.
Proof.
  intro H. pose proof (calculate_Ok_lengths _ _ _ _ _ _ _ H) as [_ [_ Hlen]].
  unfold generate.
  destruct (validate_clr_consistency (arcs_of ordered_path) units)
    as [[clr mismatch] values].
  cbn [fst] in H. rewrite H. cbn [bind].
  destruct straights as [|first_straight rest]; [simpl in Hlen; lia|].
  destruct (build_segments_and_marks _ _ _ _) as [segments marks] eqn:Eb.
  eexists. exists first_straight, rest.
  split; [reflexivity|].
  cbn [BendSheetData.straights BendSheetData.bends
       BendSheetData.extra_material BendSheetData.segments
       BendSheetData.mark_positions BendSheetData.total_cut_length
       BendSheetData.grip_violations BendSheetData.tail_violation].
  rewrite Eb. repeat split; reflexivity.
Qed.

(** [generate] returns only when [calculate_straights_and_bends] did. *)
Lemma generate_Ok_inv units ordered_path start_point params
    component_name travel_direction starts_with_arc ends_with_arc r :
  generate units ordered_path start_point params component_name
    travel_direction starts_with_arc ends_with_arc = Ok r ->
  exists straights bends,
    calculate_straights_and_bends (lines_of ordered_path)
      (arcs_of ordered_path) start_point
      (fst (fst (validate_clr_consistency (arcs_of ordered_path) units)))
      units = Ok (straights, bends).
Proof.
  intro H.
  destruct (calculate_straights_and_bends (lines_of ordered_path)
              (arcs_of ordered_path) start_point
              (fst (fst (validate_clr_consistency (arcs_of ordered_path) units)))
              units) as [[straights bends]|e] eqn:E.
  - now exists straights, bends.
  - erewrite generate_Raise in H by exact E. discriminate H.
Qed.

End GeneratorFacts.

(* ------------------------------------------------------------------ *)
(** ** Claims on the totals *)

(** The running offset after the loop is the start offset with the
    lengths of the segments added to it one at a time, in their order. *)
Lemma timeline_running_total bends straights :
  forall i cumulative,
    final_end cumulative (timeline bends i straights cumulative)
    = fold_left Qplus (lengths_in_order bends i straights) cumulative.
Proof.
  induction straights as [|s rest IH]; intros i cumulative; [reflexivity|].
  cbn [timeline lengths_in_order final_end straight_segment
       PathSegment.ends_at fold_left].
  destruct (nth_error bends i) as [b|].
  - cbn [final_end bend_segment PathSegment.ends_at fold_left]. apply IH.
  - apply IH.
Qed.

Lemma timeline_lengths bends straights :
  forall i cumulative,
    map PathSegment.length (timeline bends i straights cumulative)
    = lengths_in_order bends i straights.
Proof.
  induction straights as [|s rest IH]; intros i cumulative; [reflexivity|].
  cbn [timeline lengths_in_order map straight_segment PathSegment.length].
  f_equal.
  destruct (nth_error bends i) as [b|].
  - cbn [map bend_segment PathSegment.length]. f_equal. apply IH.
  - apply IH.
Qed.

Lemma skipn_nth_error {A : Type} (xs : list A) :
  forall i x, nth_error xs i = Some x -> skipn i xs = x :: skipn (S i) xs.
Proof.
  induction xs as [|y ys IH]; intros [|i] x H; try discriminate H.
  - now injection H as ->.
  - simpl in H. cbn [skipn]. now apply IH.
Qed.

(** The lengths in the timeline are those of all the straights and of
    the first [len(straights)] bends, interleaved. *)
Lemma lengths_in_order_permutation bends straights :
  forall i,
    Permutation
      (lengths_in_order bends i straights)
      (map StraightSection.length straights
       ++ map BendData.arc_length
            (firstn (List.length straights) (skipn i bends))).
Proof.
  induction straights as [|s rest IH]; intro i.
  - cbn [lengths_in_order map List.length firstn app]. constructor.
  - cbn [lengths_in_order map List.length app]. apply perm_skip.
    destruct (nth_error bends i) as [b|] eqn:Hb.
    + rewrite (skipn_nth_error _ _ _ Hb). cbn [firstn map].
      apply Permutation_cons_app. apply IH.
    + apply nth_error_None in Hb.
      rewrite (skipn_all2 bends) by lia. rewrite firstn_nil.
      specialize (IH (S i)).
      rewrite (skipn_all2 bends) in IH by lia.
      now rewrite firstn_nil in IH.
Qed.

(** C5 (as amended).  For every list of straights and bends the
    segments of [build_segments_and_marks] are contiguous, and their
    lengths are, in order, the length of each straight followed by the
    arc length of the bend at its index when there is one: the lengths
    of all the straights and of the first [len(straights)] bends, which
    are all the bends when there are no more bends than straights.  When
    there is a straight there is a final segment, and its [ends_at] is
    the extra material with these lengths added to it one at a time, in
    the order of the segments.  What [generate] returns has fewer bends
    than straights, its [total_cut_length] is the sum of its straight
    lengths, plus the sum of its arc lengths, plus its extra material,
    added in that order, and its last segment ends at its extra material
    with the same lengths added one at a time in the order of the
    segments. *)
Theorem C5_timeline_totals :
  (forall straights bends extra_material die_offset,
      let segments :=
        fst (build_segments_and_marks straights bends
               extra_material die_offset) in
      (forall k a b,
          nth_error segments k = Some a ->
          nth_error segments (S k) = Some b ->
          PathSegment.ends_at a = PathSegment.starts_at b)
      /\ map PathSegment.length segments
         = lengths_in_order bends 0 straights
      /\ Permutation
           (lengths_in_order bends 0 straights)
           (map StraightSection.length straights
            ++ map BendData.arc_length
                 (firstn (List.length straights) bends))
      /\ ((List.length bends <= List.length straights)%nat ->
          Permutation
            (lengths_in_order bends 0 straights)
            (map StraightSection.length straights
             ++ map BendData.arc_length bends))
      /\ (straights <> [] ->
          exists seg,
            last_segment segments = Some seg
            /\ PathSegment.ends_at seg
               = fold_left Qplus (lengths_in_order bends 0 straights)
                   extra_material))
  /\
  (forall (G : Geometry) units ordered_path start_point params
          component_name travel_direction starts_with_arc ends_with_arc r,
      generate units ordered_path start_point params component_name
        travel_direction starts_with_arc ends_with_arc = Ok r ->
      exists d seg,
        r = GenerationResult.mk true (Some d) ""
        /\ (List.length (BendSheetData.bends d)
            < List.length (BendSheetData.straights d))%nat
        /\ BendSheetData.total_cut_length d
           = sum (map StraightSection.length (BendSheetData.straights d))
             + sum (map BendData.arc_length (BendSheetData.bends d))
             + BendSheetData.extra_material d
        /\ last_segment (BendSheetData.segments d) = Some seg
        /\ PathSegment.ends_at seg
           = fold_left Qplus
               (lengths_in_order (BendSheetData.bends d) 0
                  (BendSheetData.straights d))
               (BendSheetData.extra_material d)
        /\ Permutation
             (lengths_in_order (BendSheetData.bends d) 0
                (BendSheetData.straights d))
             (map StraightSection.length (BendSheetData.straights d)
              ++ map BendData.arc_length (BendSheetData.bends d))).
Proof.
  assert (Hlast : forall straights bends extra_material die_offset,
             straights <> [] ->
             exists seg,
               last_segment
                 (fst (build_segments_and_marks straights bends
                         extra_material die_offset)) = Some seg
               /\ PathSegment.ends_at seg
                  = fold_left Qplus (lengths_in_order bends 0 straights)
                      extra_material).
  { intros straights bends extra_material die_offset Hne.
    rewrite build_segments_timeline.
    destruct straights as [|s rest]; [congruence|].
    destruct (timeline_nonempty bends 0 s rest extra_material) as [seg Hseg].
    exists seg. split; [exact Hseg|].
    rewrite <- (final_end_last _ extra_material _ Hseg).
    apply timeline_running_total. }
  assert (Hperm : forall straights bends,
             (List.length bends <= List.length straights)%nat ->
             Permutation
               (lengths_in_order bends 0 straights)
               (map StraightSection.length straights
                ++ map BendData.arc_length bends)).
  { intros straights bends Hlen.
    pose proof (lengths_in_order_permutation bends straights 0) as H.
    cbn [skipn] in H. now rewrite firstn_all2 in H by exact Hlen. }
  split.
  - intros straights bends extra_material die_offset segments.
    split; [|split; [|split; [|split]]].
    + subst segments. rewrite build_segments_timeline. intros k a b.
      apply chained_adjacent with (c := extra_material).
      apply timeline_chained.
    + subst segments. rewrite build_segments_timeline.
      apply timeline_lengths.
    + apply (lengths_in_order_permutation bends straights 0).
    + apply Hperm.
    + apply Hlast.
  - intros G units ordered_path start_point params component_name
      travel_direction starts_with_arc ends_with_arc r Hr.
    destruct (generate_Ok_inv _ _ _ _ _ _ _ _ _ Hr) as [straights [bends Hc]].
    pose proof (calculate_Ok_lengths _ _ _ _ _ _ _ Hc) as [_ [_ Hlen]].
    destruct (generate_Ok units ordered_path start_point params
                component_name travel_direction starts_with_arc
                ends_with_arc straights bends Hc)
      as [d [first [rest [Hg [Hs [Hds [Hdb [_ [Hseg [_ [Htot _]]]]]]]]]]].
    rewrite Hg in Hr. injection Hr as <-.
    destruct (Hlast straights bends (BendSheetData.extra_material d)
                (BendSheetParams.die_offset params)) as [seg [Hl Hend]];
      [rewrite Hs; discriminate|].
    exists d, seg. rewrite Hseg, Hds, Hdb, Htot.
    split; [reflexivity|]. split; [exact Hlen|]. split; [reflexivity|].
    split; [exact Hl|]. split; [exact Hend|].
    apply Hperm. lia.
Qed.

(** C5 at the scenario of [test_cumulative_position_accuracy], and on
    the sample path. *)
Lemma C5_timeline_totals_witness :
  (exists seg,
    last_segment
      (fst (build_segments_and_marks
              [make_straight 1 5; make_straight 2 7; make_straight 3 3]
              [BendData.mk 1 45 None 2; BendData.mk 2 90 (Some 15) 4] 1 0))
    = Some seg
    /\ PathSegment.ends_at seg
       = fold_left Qplus [5; 2; 7; 4; 3] 1)
  /\
  (exists d seg,
      GenerationResult.mk true sample_sheet ""
      = GenerationResult.mk true (Some d) ""
      /\ (List.length (BendSheetData.bends d)
          < List.length (BendSheetData.straights d))%nat
      /\ BendSheetData.total_cut_length d
         = sum (map StraightSection.length (BendSheetData.straights d))
           + sum (map BendData.arc_length (BendSheetData.bends d))
           + BendSheetData.extra_material d
      /\ last_segment (BendSheetData.segments d) = Some seg
      /\ PathSegment.ends_at seg
         = fold_left Qplus
             (lengths_in_order (BendSheetData.bends d) 0
                (BendSheetData.straights d))
             (BendSheetData.extra_material d)
      /\ Permutation
           (lengths_in_order (BendSheetData.bends d) 0
              (BendSheetData.straights d))
           (map StraightSection.length (BendSheetData.straights d)
            ++ map BendData.arc_length (BendSheetData.bends d))).
Proof.
  split.
  - apply (proj2 (proj2 (proj2 (proj2 (proj1 C5_timeline_totals
                    [make_straight 1 5; make_straight 2 7; make_straight 3 3]
                    [BendData.mk 1 45 None 2; BendData.mk 2 90 (Some 15) 4]
                    1 0))))).
    discriminate.
  - apply (proj2 C5_timeline_totals sample_geometry sample_units sample_path
             (0, 0, 0) sample_params "part"%string "+X"%string false false).
    vm_compute. reflexivity.
Defined.

Section FloatingPoint.
Import PrimFloat.
#[local] Set Warnings "-inexact-float".

(** C5 as stated fails in two ways.  With more bends than straights, the
    bends without a straight before them are not in the timeline.  And
    in binary floating point the two totals, which add the same lengths
    in different orders, need not be the same number: for straights of
    0.1 and 0.2, a minimum grip of 0.5 and no die offset, the extra
    material is 0.4, the last segment ends at 0.7 = (0.4 + 0.1) + 0.2 and
    the total cut length is 0.7000000000000001 = (0.1 + 0.2) + 0.4. *)
Lemma C5_counterexample :
  (let straights := [make_straight 1 10] in
   let bends := [BendData.mk 1 45 None 5; BendData.mk 2 90 (Some 30) 7] in
   exists seg,
     last_segment (fst (build_segments_and_marks straights bends 0 0))
     = Some seg
     /\ PathSegment.ends_at seg == 15
     /\ ~ PathSegment.ends_at seg
          == 0 + sum (map StraightSection.length straights)
             + sum (map BendData.arc_length bends))
  /\
  (exists extra_material segments total_cut_length ends_at,
     Binary64.totals 0.5%float 0%float [0.1; 0.2]%float []
     = Some (extra_material, segments, total_cut_length)
     /\ Binary64.last_ends_at segments = Some ends_at
     /\ PrimFloat.eqb extra_material 0.4%float = true
     /\ PrimFloat.eqb ends_at 0.7%float = true
     /\ PrimFloat.eqb total_cut_length 0.7000000000000001%float = true
     /\ PrimFloat.eqb ends_at total_cut_length = false
     /\ PrimFloat.ltb ends_at total_cut_length = true).
Proof.
  split.
  - cbv zeta. eexists.
    split; [vm_compute; reflexivity|].
    split; [reflexivity|].
    vm_compute. discriminate.
  - do 4 eexists.
    split; [vm_compute; reflexivity|].
    split; [vm_compute; reflexivity|].
    repeat split; vm_compute; reflexivity.
Qed.

End FloatingPoint.

(* ------------------------------------------------------------------ *)
(** ** Orientation *)

Section OrientationFacts.
Context {G : Geometry}.

Lemma orient_cases ref raw :
  orient ref raw
  = (if Qltb (distance_between_points (snd raw) ref)
             (distance_between_points (fst raw) ref)
     then swap_pair raw else raw).
Proof. destruct raw as [s e]. reflexivity. Qed.

(** The oriented pair has its nearer point first. *)
Lemma orient_nearer ref raw :
  distance_between_points (fst (orient ref raw)) ref
  <= distance_between_points (snd (orient ref raw)) ref.
Proof.
  rewrite orient_cases.
  destruct (Qltb _ _) eqn:E.
  - apply Qltb_lt in E. apply Qlt_le_weak. exact E.
  - apply Qltb_ge in E. exact E.
Qed.

Lemma orient_raw_or_swapped ref raw :
  orient ref raw = raw \/ orient ref raw = swap_pair raw.
Proof. rewrite orient_cases. destruct (Qltb _ _); auto. Qed.

(** With its endpoints at different distances, a pair and its exchange
    are oriented alike. *)
Lemma orient_swap ref raw :
  ~ distance_between_points (fst raw) ref
    == distance_between_points (snd raw) ref ->
  orient ref (swap_pair raw) = orient ref raw.
Proof.
  intro Hne. rewrite !orient_cases. destruct raw as [s e].
  unfold swap_pair. cbn [fst snd] in *.
  destruct (Qltb (distance_between_points s ref)
                 (distance_between_points e ref)) eqn:E1;
    destruct (Qltb (distance_between_points e ref)
                   (distance_between_points s ref)) eqn:E2;
    try reflexivity.
  - apply Qltb_lt in E1. apply Qltb_lt in E2.
    exfalso. apply (Qlt_irrefl (distance_between_points s ref)).
    eapply Qlt_trans; eauto.
  - apply Qltb_ge in E1. apply Qltb_ge in E2.
    exfalso. apply Hne. apply Qle_antisym; assumption.
Qed.

Lemma reference_point_cons ref c tail j :
  reference_point ref (c :: tail) (S j) = reference_point (snd c) tail j.
Proof. destruct j; reflexivity. Qed.

(** Every line is oriented against its reference point. *)
Lemma orient_remaining_nth line_points :
  forall ref i raw c,
    nth_error line_points i = Some raw ->
    nth_error (orient_remaining ref line_points) i = Some c ->
    exists ref_i,
      reference_point ref (orient_remaining ref line_points) i = Some ref_i
      /\ c = orient ref_i raw.
Proof.
  induction line_points as [|p rest IH]; intros ref i raw c Hraw Hc.
  - destruct i; discriminate Hraw.
  - destruct i as [|j].
    + injection Hraw as <-. injection Hc as <-.
      exists ref. split; reflexivity.
    + cbn [orient_remaining] in *. rewrite reference_point_cons.
      apply (IH _ j raw c Hraw Hc).
Qed.

Lemma orient_remaining_swapped line_points :
  forall line_points' ref,
    Forall2 (fun p p' => p' = p \/ p' = swap_pair p) line_points line_points' ->
    distinct_distances ref line_points ->
    orient_remaining ref line_points' = orient_remaining ref line_points.
Proof.
  induction line_points as [|p rest IH]; intros line_points' ref HF Hd;
    inversion HF as [|p0 p' rest0 rest' Hp Hrest]; subst.
  - reflexivity.
  - destruct Hd as [Hne Hd]. cbn [orient_remaining].
    assert (E : orient ref p' = orient ref p).
    { destruct Hp as [->| ->]; [reflexivity|now apply orient_swap]. }
    rewrite E. f_equal. now apply IH.
Qed.

Lemma endpoints_swapped_points lines lines' :
  endpoints_swapped lines lines' ->
  Forall2 (fun p p' => p' = p \/ p' = swap_pair p)
          (map get_sketch_entity_endpoints lines)
          (map get_sketch_entity_endpoints lines').
Proof.
  unfold endpoints_swapped.
  induction 1 as [|l l' ls ls' Hl _ IH]; cbn [map]; constructor; auto.
  destruct Hl as [->| ->]; [now left|now right].
Qed.

Lemma oriented_lines_orient path_start line_points :
  oriented_lines path_start line_points
  = orient_remaining path_start line_points.
Proof.
  destruct line_points as [|first rest]; [reflexivity|].
  apply corrected_lines_orient.
Qed.

(** The result is a function of the oriented lines. *)
Lemma calculate_oriented lines lines' arcs path_start clr units :
  oriented_lines path_start (map get_sketch_entity_endpoints lines')
  = oriented_lines path_start (map get_sketch_entity_endpoints lines) ->
  calculate_straights_and_bends lines' arcs path_start clr units
  = calculate_straights_and_bends lines arcs path_start clr units.
Proof.
  unfold calculate_straights_and_bends, oriented_lines.
  destruct (map get_sketch_entity_endpoints lines') as [|f' r'];
    destruct (map get_sketch_entity_endpoints lines) as [|f r]; intro H.
  - reflexivity.
  - apply (f_equal (@List.length _)) in H.
    rewrite corrected_lines_length in H. discriminate H.
  - apply (f_equal (@List.length _)) in H.
    rewrite corrected_lines_length in H. discriminate H.
  - now rewrite H.
Qed.

End OrientationFacts.

(** C2.  For a non-empty list of lines, the oriented list has one pair
    per line; the pair at index [i] is the raw pair of endpoints or its
    exchange (the exchange when the raw end is strictly nearer to the
    reference point than the raw start, the raw pair otherwise), so that
    its start is at most as far from the reference point as its end; the
    reference point is
    the path start for the first line and the end of the oriented pair
    before it for every other line.  The straights returned are built
    from these pairs: a call that returns gives one straight per line,
    and the straight of the line at index [i] has number [i + 1], the
    start, the end and the vector of the pair oriented as above.  The
    call does return when there are no arcs, and with at least
    [len(arcs) + 1] lines it returns unless a vector is degenerate. *)
Theorem C2_orientation {G : Geometry}
    (lines : list SketchLine.t) (arcs : list SketchArc.t)
    (path_start : Point3D) (clr : Q) (units : UnitConfig.t) :
  lines <> [] ->
  let line_points := map get_sketch_entity_endpoints lines in
  let corrected := oriented_lines path_start line_points in
  List.length corrected = List.length lines
  /\ reference_point path_start corrected 0 = Some path_start
  /\ (forall i c, nth_error corrected i = Some c ->
                  reference_point path_start corrected (S i) = Some (snd c))
  /\ (forall i raw c ref,
         nth_error line_points i = Some raw ->
         nth_error corrected i = Some c ->
         reference_point path_start corrected i = Some ref ->
         (c = raw \/ c = swap_pair raw)
         /\ (distance_between_points (snd raw) ref
             < distance_between_points (fst raw) ref ->
             c = swap_pair raw)
         /\ (distance_between_points (fst raw) ref
             <= distance_between_points (snd raw) ref ->
             c = raw)
         /\ distance_between_points (fst c) ref
            <= distance_between_points (snd c) ref)
  /\ (forall straights bends i s,
         calculate_straights_and_bends lines arcs path_start clr units
         = Ok (straights, bends) ->
         nth_error straights i = Some s ->
         exists c,
           nth_error corrected i = Some c
           /\ StraightSection.start s = scale_point units (fst c)
           /\ StraightSection.end_ s = scale_point units (snd c)
           /\ StraightSection.vector s = vector_of c)
  /\ (forall straights bends,
         calculate_straights_and_bends lines arcs path_start clr units
         = Ok (straights, bends) ->
         List.length straights = List.length lines
         /\ (forall i raw,
                nth_error line_points i = Some raw ->
                exists s c ref,
                  nth_error straights i = Some s
                  /\ nth_error corrected i = Some c
                  /\ reference_point path_start corrected i = Some ref
                  /\ (c = raw \/ c = swap_pair raw)
                  /\ (distance_between_points (snd raw) ref
                      < distance_between_points (fst raw) ref ->
                      c = swap_pair raw)
                  /\ (distance_between_points (fst raw) ref
                      <= distance_between_points (snd raw) ref ->
                      c = raw)
                  /\ distance_between_points (fst c) ref
                     <= distance_between_points (snd c) ref
                  /\ StraightSection.number s = (Z.of_nat i + 1)%Z
                  /\ StraightSection.start s = scale_point units (fst c)
                  /\ StraightSection.end_ s = scale_point units (snd c)
                  /\ StraightSection.vector s = vector_of c))
  /\ (exists straights,
         calculate_straights_and_bends lines [] path_start clr units
         = Ok (straights, [])
         /\ List.length straights = List.length lines)
  /\ ((List.length arcs + 1 <= List.length lines)%nat ->
      (exists straights bends,
          calculate_straights_and_bends lines arcs path_start clr units
          = Ok (straights, bends))
      \/ calculate_straights_and_bends lines arcs path_start clr units
         = Raise ZeroVectorError).
Proof.
  intros Hne line_points corrected.
  assert (Hcorr : corrected = orient_remaining path_start line_points)
    by apply oriented_lines_orient.
  assert (Horient : forall i raw c ref,
             nth_error line_points i = Some raw ->
             nth_error corrected i = Some c ->
             reference_point path_start corrected i = Some ref ->
             (c = raw \/ c = swap_pair raw)
             /\ (distance_between_points (snd raw) ref
                 < distance_between_points (fst raw) ref ->
                 c = swap_pair raw)
             /\ (distance_between_points (fst raw) ref
                 <= distance_between_points (snd raw) ref ->
                 c = raw)
             /\ distance_between_points (fst c) ref
                <= distance_between_points (snd c) ref).
  { intros i raw c ref Hraw Hc Href. rewrite Hcorr in Hc, Href.
    destruct (orient_remaining_nth _ _ _ _ _ Hraw Hc) as [ref' [Href' ->]].
    assert (ref' = ref) by congruence. subst ref'.
    split; [apply orient_raw_or_swapped|].
    split; [|split; [|apply orient_nearer]]; rewrite orient_cases.
    - intro H. apply Qltb_lt in H. now rewrite H.
    - intro H. apply Qltb_ge in H. now rewrite H. }
  assert (Hlen : List.length corrected = List.length lines).
  { rewrite Hcorr, orient_remaining_length. apply length_map. }
  split; [exact Hlen|].
  split; [reflexivity|].
  split; [intros i c Hc; cbn [reference_point]; now rewrite Hc|].
  split; [exact Horient|].
  split; [|split; [|split]].
  - intros straights bends i s Hcalc Hs.
    apply calculate_Ok_inv in Hcalc.
    destruct Hcalc as [first [rest [normals [E [-> _]]]]].
    subst corrected line_points. rewrite E. cbn [oriented_lines].
    rewrite nth_error_map, enumerate_from_nth in Hs.
    destruct (nth_error (corrected_lines path_start first rest) i)
      as [[c_start c_end]|]; [|discriminate Hs].
    cbn in Hs. injection Hs as <-.
    exists (c_start, c_end). repeat split; reflexivity.
  - intros straights bends Hcalc.
    split; [apply (calculate_Ok_lengths _ _ _ _ _ _ _ Hcalc)|].
    intros i raw Hraw.
    apply calculate_Ok_inv in Hcalc.
    destruct Hcalc as [first [rest [normals [E [Hs _]]]]].
    assert (Ec : corrected = corrected_lines path_start first rest).
    { subst corrected line_points. now rewrite E. }
    rewrite <- Ec in Hs.
    destruct (nth_error corrected i) as [c|] eqn:Hc.
    + rewrite Hcorr in Hc.
      destruct (orient_remaining_nth _ _ _ _ _ Hraw Hc) as [ref [Href _]].
      rewrite <- Hcorr in Hc, Href.
      exists (straight_of units (i, c)), c, ref.
      split.
      { rewrite Hs, nth_error_map, enumerate_from_nth, Hc. reflexivity. }
      split; [reflexivity|]. split; [exact Href|].
      destruct (Horient i raw c ref Hraw Hc Href) as [H1 [H2 [H3 H4]]].
      destruct c as [c_start c_end].
      repeat (split; [assumption|]).
      repeat split; reflexivity.
    + exfalso. apply nth_error_None in Hc.
      assert (Hi : (i < List.length line_points)%nat)
        by (apply nth_error_Some; congruence).
      subst line_points. rewrite length_map in Hi. lia.
  - destruct lines as [|l lines']; [congruence|].
    eexists. split.
    + unfold calculate_straights_and_bends. cbn [map].
      rewrite length_map, corrected_lines_length.
      cbn [List.length Nat.add Nat.ltb Nat.leb for_range bind].
      reflexivity.
    + rewrite length_map, enumerate_from_length, corrected_lines_length,
        length_map.
      reflexivity.
  - intro Henough.
    destruct (calculate_enough lines arcs path_start clr units Henough)
      as [[[straights bends] H]|H]; [left; eauto|right; exact H].
Qed.

(** C2 on the sample lines.  The second one is stored end first: its
    reference point is the end of the first line, and it is exchanged;
    the straight returned for it runs from (10, 0, 0) to (10, 8, 0). *)
Lemma C2_orientation_witness :
  let raw : Point3D * Point3D := ((10, 8, 0), (10, 0, 0)) in
  let c : Point3D * Point3D := ((10, 0, 0), (10, 8, 0)) in
  let ref : Point3D := (10, 0, 0) in
  ((c = raw \/ c = swap_pair raw)
   /\ (distance_between_points (Geometry := sample_geometry) (snd raw) ref
       < distance_between_points (Geometry := sample_geometry) (fst raw) ref ->
       c = swap_pair raw)
   /\ (distance_between_points (Geometry := sample_geometry) (fst raw) ref
       <= distance_between_points (Geometry := sample_geometry) (snd raw) ref ->
       c = raw)
   /\ distance_between_points (Geometry := sample_geometry) (fst c) ref
      <= distance_between_points (Geometry := sample_geometry) (snd c) ref)
  /\ (List.length sample_straights = List.length sample_lines
      /\ exists s c' ref',
           nth_error sample_straights 1 = Some s
           /\ nth_error
                (oriented_lines (G := sample_geometry) (0, 0, 0)
                   (map get_sketch_entity_endpoints sample_lines)) 1
              = Some c'
           /\ reference_point (0, 0, 0)
                (oriented_lines (G := sample_geometry) (0, 0, 0)
                   (map get_sketch_entity_endpoints sample_lines)) 1
              = Some ref'
           /\ c' = swap_pair raw
           /\ StraightSection.number s = 2%Z
           /\ StraightSection.start s
              = scale_point sample_units (10, 0, 0)
           /\ StraightSection.end_ s
              = scale_point sample_units (10, 8, 0)).
Proof.
  cbv zeta.
  pose proof (C2_orientation (G := sample_geometry) sample_lines
                [sample_arc; sample_arc] (0, 0, 0) 2 sample_units
                ltac:(discriminate)) as H.
  cbv zeta in H.
  destruct H as [_ [_ [_ [H4 [_ [H6 _]]]]]].
  split.
  - apply (H4 1%nat ((10, 8, 0), (10, 0, 0)) ((10, 0, 0), (10, 8, 0))
              (10, 0, 0)); reflexivity.
  - destruct (H6 sample_straights sample_bends) as [Hlen Hall];
      [vm_compute; reflexivity|].
    split; [exact Hlen|].
    destruct (Hall 1%nat ((10, 8, 0), (10, 0, 0)) eq_refl)
      as [s [c' [ref' [Hs [Hc [Href [_ [_ [_ [_ [Hn [Hst [He _]]]]]]]]]]]]].
    exists s, c', ref'.
    split; [exact Hs|]. split; [exact Hc|]. split; [exact Href|].
    split; [vm_compute in Hc; now injection Hc as <-|].
    split; [exact Hn|].
    assert (Ec : c' = ((10, 0, 0), (10, 8, 0)))
      by (vm_compute in Hc; now injection Hc as <-).
    rewrite Ec in Hst, He. split; assumption.
Defined.

(** C10.  When no line has its two endpoints at the same distance from
    the point it is oriented against, exchanging the endpoints of any of
    the lines changes neither the oriented lines nor the result of
    [calculate_straights_and_bends], be it the straights and bends
    returned or the exception raised. *)
Theorem C10_endpoint_order {G : Geometry}
    (lines lines' : list SketchLine.t) (arcs : list SketchArc.t)
    (path_start : Point3D) (clr : Q) (units : UnitConfig.t) :
  endpoints_swapped lines lines' ->
  distinct_distances path_start (map get_sketch_entity_endpoints lines) ->
  oriented_lines path_start (map get_sketch_entity_endpoints lines')
  = oriented_lines path_start (map get_sketch_entity_endpoints lines)
  /\ calculate_straights_and_bends lines' arcs path_start clr units
     = calculate_straights_and_bends lines arcs path_start clr units.
Proof.
  intros Hswap Hdist.
  assert (E : oriented_lines path_start
                (map get_sketch_entity_endpoints lines')
              = oriented_lines path_start
                  (map get_sketch_entity_endpoints lines)).
  { rewrite !oriented_lines_orient.
    apply orient_remaining_swapped; [|exact Hdist].
    now apply endpoints_swapped_points. }
  split; [exact E|].
  now apply calculate_oriented.
Qed.

(** C10 on the sample lines, exchanging the endpoints of the first and
    of the third. *)
Lemma C10_endpoint_order_witness :
  calculate_straights_and_bends (G := sample_geometry)
    [swap_line (SketchLine.mk (0, 0, 0) (10, 0, 0));
     SketchLine.mk (10, 8, 0) (10, 0, 0);
     swap_line (SketchLine.mk (10, 8, 0) (10, 8, 6))]
    [sample_arc; sample_arc] (0, 0, 0) 2 sample_units
  = calculate_straights_and_bends (G := sample_geometry) sample_lines
      [sample_arc; sample_arc] (0, 0, 0) 2 sample_units.
Proof.
  apply (C10_endpoint_order (G := sample_geometry) sample_lines).
  - unfold endpoints_swapped, sample_lines.
    apply Forall2_cons; [right; reflexivity|].
    apply Forall2_cons; [left; reflexivity|].
    apply Forall2_cons; [right; reflexivity|].
    apply Forall2_nil.
  - cbn [distinct_distances map sample_lines].
    repeat split; vm_compute; discriminate.
Defined.

(* ------------------------------------------------------------------ *)
(** ** Claims on [validate_clr_consistency] *)

Lemma validate_clr_cons a arcs units :
  let first := SketchArc.radius a * UnitConfig.cm_to_unit units in
  let values := clr_display (a :: arcs) units in
  validate_clr_consistency (a :: arcs) units
  = if Qle_bool first 0 then (0, true, values)
    else (first,
          any (fun c => Qgtb (Qabs (c - first))
                             (max2 (first * CLR_TOLERANCE_RATIO) 0.001))
              values,
          values).
Proof. reflexivity. Qed.

(** The mismatch test, in mathematical terms. *)
Lemma any_deviation (first : Q) (values : list Q) :
  any (fun c => Qgtb (Qabs (c - first))
                     (max2 (first * CLR_TOLERANCE_RATIO) 0.001)) values = true
  <-> exists c, In c values
                /\ Qmax (first * 0.002) 0.001 < Qabs (c - first).
Proof.
  unfold any. rewrite existsb_exists.
  split; intros [c [Hin Hc]]; exists c; (split; [exact Hin|]).
  - apply Qgtb_gt in Hc. rewrite max2_Qmax in Hc. exact Hc.
  - apply Qgtb_gt. rewrite max2_Qmax. exact Hc.
Qed.

(** C3.  With no arc the CLR is 0 and there is no mismatch.  Otherwise
    all the radii are returned in display units; the working CLR is the
    first of them when it is positive, and 0 with the mismatch flag set
    when it is not; and the mismatch flag is set if and only if some
    radius deviates from the first by more than
    max(first * 0.002, 0.001), or the first is at most 0.  Display radii
    [5.0, 5.1] are a mismatch; [5.0, 5.005] and [0.01, 0.0105] are not. *)
Theorem C3_clr_consistency :
  (forall units, validate_clr_consistency [] units = (0, false, []))
  /\
  (forall a arcs units,
      let first := SketchArc.radius a * UnitConfig.cm_to_unit units in
      let values := clr_display (a :: arcs) units in
      exists clr mismatch,
        validate_clr_consistency (a :: arcs) units = (clr, mismatch, values)
        /\ (0 < first -> clr = first)
        /\ (first <= 0 -> clr = 0 /\ mismatch = true)
        /\ (mismatch = true <->
            (exists c, In c values
                       /\ Qmax (first * 0.002) 0.001 < Qabs (c - first))
            \/ first <= 0))
  /\
  (forall arcs units,
      Forall2 Qeq (clr_display arcs units) [5.0; 5.1] ->
      snd (fst (validate_clr_consistency arcs units)) = true)
  /\
  (forall arcs units,
      Forall2 Qeq (clr_display arcs units) [5.0; 5.005] ->
      snd (fst (validate_clr_consistency arcs units)) = false)
  /\
  (forall arcs units,
      Forall2 Qeq (clr_display arcs units) [0.01; 0.0105] ->
      snd (fst (validate_clr_consistency arcs units)) = false).
Proof.
  assert (General : forall a arcs units,
      let first := SketchArc.radius a * UnitConfig.cm_to_unit units in
      let values := clr_display (a :: arcs) units in
      exists clr mismatch,
        validate_clr_consistency (a :: arcs) units = (clr, mismatch, values)
        /\ (0 < first -> clr = first)
        /\ (first <= 0 -> clr = 0 /\ mismatch = true)
        /\ (mismatch = true <->
            (exists c, In c values
                       /\ Qmax (first * 0.002) 0.001 < Qabs (c - first))
            \/ first <= 0)).
  { intros a arcs units first values.
    rewrite validate_clr_cons. fold first. fold values.
    destruct (Qle_bool first 0) eqn:E.
    - apply Qle_bool_iff in E.
      exists 0, true. split; [reflexivity|]. split; [|split].
      + intro H. exfalso. apply (Qlt_not_le _ _ H E).
      + auto.
      + split; auto.
    - assert (Hpos : 0 < first).
      { apply Qnot_le_lt. intro H. apply Qle_bool_iff in H. congruence. }
      eexists. eexists. split; [reflexivity|]. split; [|split].
      + reflexivity.
      + intro H. exfalso. apply (Qlt_not_le _ _ Hpos H).
      + rewrite any_deviation. split.
        * auto.
        * intros [H|H]; [exact H|].
          exfalso. apply (Qlt_not_le _ _ Hpos H). }
  assert (Two : forall arcs units (x y : Q),
      Forall2 Qeq (clr_display arcs units) [x; y] ->
      exists a1 a2,
        arcs = [a1; a2]
        /\ SketchArc.radius a1 * UnitConfig.cm_to_unit units == x
        /\ SketchArc.radius a2 * UnitConfig.cm_to_unit units == y).
  { intros arcs units x y H.
    destruct arcs as [|a1 [|a2 [|a3 rest]]]; cbn in H;
      inversion H as [|? ? ? ? H1 H']; subst;
      inversion H' as [|? ? ? ? H2 H'']; subst;
      inversion H''; subst.
    exists a1, a2. auto. }
  split; [reflexivity|]. split; [exact General|].
  split; [|split].
  - intros arcs units H.
    destruct (Two _ _ _ _ H) as [a1 [a2 [-> [H1 H2]]]].
    destruct (General a1 [a2] units) as [clr [mm [E [_ [_ Hiff]]]]].
    rewrite E. cbn [fst snd]. apply Hiff. left.
    eexists. split; [right; left; reflexivity|].
    rewrite H1, H2. reflexivity.
  - intros arcs units H.
    destruct (Two _ _ _ _ H) as [a1 [a2 [-> [H1 H2]]]].
    destruct (General a1 [a2] units) as [clr [mm [E [_ [_ Hiff]]]]].
    rewrite E. cbn [fst snd]. apply not_true_is_false. intro Hmm.
    apply Hiff in Hmm.
    destruct Hmm as [[c [[<-|[<-|[]]] Hc]]|Hle].
    + rewrite H1 in Hc. vm_compute in Hc. discriminate Hc.
    + rewrite H1, H2 in Hc. vm_compute in Hc. discriminate Hc.
    + rewrite H1 in Hle. apply Hle. reflexivity.
  - intros arcs units H.
    destruct (Two _ _ _ _ H) as [a1 [a2 [-> [H1 H2]]]].
    destruct (General a1 [a2] units) as [clr [mm [E [_ [_ Hiff]]]]].
    rewrite E. cbn [fst snd]. apply not_true_is_false. intro Hmm.
    apply Hiff in Hmm.
    destruct Hmm as [[c [[<-|[<-|[]]] Hc]]|Hle].
    + rewrite H1 in Hc. vm_compute in Hc. discriminate Hc.
    + rewrite H1, H2 in Hc. vm_compute in Hc. discriminate Hc.
    + rewrite H1 in Hle. apply Hle. reflexivity.
Qed.

(** C3 on the radii of [test_arcs_outside_tolerance],
    [test_arcs_within_tolerance] and
    [test_very_small_clr_uses_minimum_tolerance]. *)
Lemma C3_clr_consistency_witness :
  snd (fst (validate_clr_consistency
              [SketchArc.mk (0, 0, 0) (1, 0, 0) 5.0;
               SketchArc.mk (1, 0, 0) (2, 0, 0) 5.1] sample_units)) = true
  /\ snd (fst (validate_clr_consistency
                 [SketchArc.mk (0, 0, 0) (1, 0, 0) 5.0;
                  SketchArc.mk (1, 0, 0) (2, 0, 0) 5.005] sample_units))
     = false
  /\ snd (fst (validate_clr_consistency
                 [SketchArc.mk (0, 0, 0) (1, 0, 0) 0.01;
                  SketchArc.mk (1, 0, 0) (2, 0, 0) 0.0105] sample_units))
     = false.
Proof.
  split; [|split].
  - apply (proj1 (proj2 (proj2 C3_clr_consistency))).
    apply Forall2_cons; [reflexivity|].
    apply Forall2_cons; [reflexivity|].
    apply Forall2_nil.
  - apply (proj1 (proj2 (proj2 (proj2 C3_clr_consistency)))).
    apply Forall2_cons; [reflexivity|].
    apply Forall2_cons; [reflexivity|].
    apply Forall2_nil.
  - apply (proj2 (proj2 (proj2 (proj2 C3_clr_consistency)))).
    apply Forall2_cons; [reflexivity|].
    apply Forall2_cons; [reflexivity|].
    apply Forall2_nil.
Defined.

(* ------------------------------------------------------------------ *)
(** ** Claims on [determine_primary_axis] *)

Lemma Qeq_bool_false_neq (a b : Q) : Qeq_bool a b = false -> ~ a == b.
Proof.
  intros H E. apply Qeq_bool_iff in E. congruence.
Qed.

Lemma max3_ge (t : Q * Q * Q) :
  idx0 t <= max3 t /\ idx1 t <= max3 t /\ idx2 t <= max3 t.
Proof.
  unfold max3. repeat split.
  - eapply Qle_trans; [apply max2_ge_l|apply max2_ge_l].
  - eapply Qle_trans; [apply max2_ge_r|apply max2_ge_l].
  - apply max2_ge_r.
Qed.

Lemma max3_cases (t : Q * Q * Q) :
  max3 t = idx0 t \/ max3 t = idx1 t \/ max3 t = idx2 t.
Proof.
  unfold max3.
  destruct (max2_cases (max2 (idx0 t) (idx1 t)) (idx2 t)) as [->| ->];
    [|auto].
  destruct (max2_cases (idx0 t) (idx1 t)) as [->| ->]; auto.
Qed.

Lemma Qle_neq_lt (a b : Q) : a <= b -> ~ a == b -> a < b.
Proof.
  intros Hle Hne. destruct (Qlt_le_dec a b) as [H|H]; [exact H|].
  exfalso. apply Hne. now apply Qle_antisym.
Qed.

(** C9.  The axis returned is the one with the greatest absolute
    displacement, X before Y before Z when they tie; the current label is
    "+" and the axis when the displacement on that axis is positive, "-"
    and the axis otherwise, and the opposite label has the other sign;
    a zero displacement gives X (with the label "-X"). *)
Theorem C9_primary_axis (start end_ : Point3D) :
  let d := displacement_of start end_ in
  exists axis idx current opposite,
    determine_primary_axis start end_ = (axis, idx, current, opposite)
    /\ ((axis = "X"%string /\ idx = 0%nat
         /\ Qabs (idx1 d) <= Qabs (idx0 d) /\ Qabs (idx2 d) <= Qabs (idx0 d))
        \/ (axis = "Y"%string /\ idx = 1%nat
            /\ Qabs (idx0 d) < Qabs (idx1 d)
            /\ Qabs (idx2 d) <= Qabs (idx1 d))
        \/ (axis = "Z"%string /\ idx = 2%nat
            /\ Qabs (idx0 d) < Qabs (idx2 d)
            /\ Qabs (idx1 d) < Qabs (idx2 d)))
    /\ (0 < tuple_get d idx ->
        current = ("+" ++ axis)%string /\ opposite = ("-" ++ axis)%string)
    /\ (tuple_get d idx <= 0 ->
        current = ("-" ++ axis)%string /\ opposite = ("+" ++ axis)%string)
    /\ (idx0 d == 0 -> idx1 d == 0 -> idx2 d == 0 ->
        axis = "X"%string /\ current = "-X"%string
        /\ opposite = "+X"%string).
Proof.
  intro d.
  set (abs_disp := (Qabs (idx0 d), Qabs (idx1 d), Qabs (idx2 d))).
  pose proof (max3_ge abs_disp) as [G0 [G1 G2]].
  pose proof (max3_cases abs_disp) as Hcases.
  cbn [abs_disp idx0 idx1 idx2 fst snd] in G0, G1, G2, Hcases.
  fold (idx0 d) in *. fold (idx1 d) in *. fold (idx2 d) in *.
  assert (Hsign : forall (axis : string) (idx : nat),
             (0 < tuple_get d idx ->
              (if Qgtb (tuple_get d idx) 0
               then ("+" ++ axis)%string else ("-" ++ axis)%string)
              = ("+" ++ axis)%string
              /\ (if Qgtb (tuple_get d idx) 0
                  then ("-" ++ axis)%string else ("+" ++ axis)%string)
                 = ("-" ++ axis)%string)
             /\ (tuple_get d idx <= 0 ->
                 (if Qgtb (tuple_get d idx) 0
                  then ("+" ++ axis)%string else ("-" ++ axis)%string)
                 = ("-" ++ axis)%string
                 /\ (if Qgtb (tuple_get d idx) 0
                     then ("-" ++ axis)%string else ("+" ++ axis)%string)
                    = ("+" ++ axis)%string)).
  { intros axis idx. split; intro H.
    - apply Qgtb_gt in H. now rewrite H.
    - apply Qgtb_le in H. now rewrite H. }
  unfold determine_primary_axis.
  change (idx0 end_ - idx0 start, idx1 end_ - idx1 start,
          idx2 end_ - idx2 start) with d.
  change (Qabs (idx0 d), Qabs (idx1 d), Qabs (idx2 d)) with abs_disp.
  cbn [abs_disp idx0 idx1 idx2 fst snd]. fold (idx0 d) (idx1 d) (idx2 d).
  fold abs_disp.
  destruct (Qeq_bool (Qabs (idx0 d)) (max3 abs_disp)) eqn:E0.
  - apply Qeq_bool_iff in E0.
    do 4 eexists. split; [reflexivity|]. split; [|split; [|split]].
    + left. rewrite E0. auto.
    + apply Hsign.
    + apply Hsign.
    + intros H0 _ _. split; [reflexivity|].
      apply (Hsign "X"%string 0%nat). cbn [tuple_get]. rewrite H0.
      apply Qle_refl.
  - apply Qeq_bool_false_neq in E0.
    pose proof (Qle_neq_lt _ _ G0 E0) as L0.
    assert (Hzero : idx0 d == 0 -> idx1 d == 0 -> idx2 d == 0 -> False).
    { intros H0 H1 H2. apply E0.
      destruct Hcases as [->|[->| ->]];
        rewrite ?H0, ?H1, ?H2; reflexivity. }
    destruct (Qeq_bool (Qabs (idx1 d)) (max3 abs_disp)) eqn:E1.
    + apply Qeq_bool_iff in E1.
      do 4 eexists. split; [reflexivity|]. split; [|split; [|split]].
      * right. left. rewrite E1. auto.
      * apply Hsign.
      * apply Hsign.
      * intros H0 H1 H2. destruct (Hzero H0 H1 H2).
    + apply Qeq_bool_false_neq in E1.
      pose proof (Qle_neq_lt _ _ G1 E1) as L1.
      assert (E2 : max3 abs_disp = Qabs (idx2 d)).
      { destruct Hcases as [H|[H|H]]; [| |exact H].
        - exfalso. apply E0. rewrite H. reflexivity.
        - exfalso. apply E1. rewrite H. reflexivity. }
      do 4 eexists. split; [reflexivity|]. split; [|split; [|split]].
      * right. right. rewrite <- E2. auto.
      * apply Hsign.
      * apply Hsign.
      * intros H0 H1 H2. destruct (Hzero H0 H1 H2).
Qed.

(** C9 on the points of [test_primary_axis_x_negative]. *)
Lemma C9_primary_axis_witness :
  let d := displacement_of (10, 0, 0) (0, 1, 0.5) in
  exists axis idx current opposite,
    determine_primary_axis (10, 0, 0) (0, 1, 0.5)
    = (axis, idx, current, opposite)
    /\ ((axis = "X"%string /\ idx = 0%nat
         /\ Qabs (idx1 d) <= Qabs (idx0 d) /\ Qabs (idx2 d) <= Qabs (idx0 d))
        \/ (axis = "Y"%string /\ idx = 1%nat
            /\ Qabs (idx0 d) < Qabs (idx1 d)
            /\ Qabs (idx2 d) <= Qabs (idx1 d))
        \/ (axis = "Z"%string /\ idx = 2%nat
            /\ Qabs (idx0 d) < Qabs (idx2 d)
            /\ Qabs (idx1 d) < Qabs (idx2 d)))
    /\ (0 < tuple_get d idx ->
        current = ("+" ++ axis)%string /\ opposite = ("-" ++ axis)%string)
    /\ (tuple_get d idx <= 0 ->
        current = ("-" ++ axis)%string /\ opposite = ("+" ++ axis)%string)
    /\ (idx0 d == 0 -> idx1 d == 0 -> idx2 d == 0 ->
        axis = "X"%string /\ current = "-X"%string
        /\ opposite = "+X"%string).
Proof.
  exact (C9_primary_axis (10, 0, 0) (0, 1, 0.5)).
Defined.

(* ------------------------------------------------------------------ *)
(** ** Claims on [generate] *)

(** The members of [l[:-1]] are the members of [l] before the last. *)
Lemma In_removelast {A : Type} (l : list A) (x : A) :
  In x (removelast l)
  <-> exists i, nth_error l i = Some x /\ (S i < List.length l)%nat.
Proof.
  induction l as [|a l IH].
  - split; [intros []|intros [i [H _]]; destruct i; discriminate H].
  - destruct l as [|b l'].
    + split; [intros []|]. intros [i [_ H]]. simpl in H. lia.
    + change (removelast (a :: b :: l')) with (a :: removelast (b :: l')).
      split.
      * intros [<-|H].
        -- exists 0%nat. split; [reflexivity|simpl; lia].
        -- apply IH in H. destruct H as [i [Hi Hlen]].
           exists (S i). split; [exact Hi|simpl in *; lia].
      * intros [[|i] [Hi Hlen]].
        -- left. now injection Hi.
        -- right. apply IH. exists i. split; [exact Hi|simpl in *; lia].
Qed.

(** [l[-1]] is the head of the reversed list. *)
Lemma rev_head_last {A : Type} (l : list A) (x : A) :
  nth_error l (List.length l - 1) = Some x ->
  exists t, rev l = x :: t.
Proof.
  intro H. destruct (rev l) as [|y t] eqn:E.
  - apply (f_equal (@List.length _)) in E. rewrite length_rev in E.
    destruct l; [discriminate H|discriminate E].
  - exists t. f_equal.
    apply (f_equal (@rev _)) in E. rewrite rev_involutive in E.
    subst l. cbn [rev] in H.
    rewrite nth_error_app2 in H by (rewrite length_app; simpl; lia).
    rewrite length_app in H. cbn [List.length] in H.
    replace (List.length (rev t) + 1 - 1 - List.length (rev t))%nat
      with 0%nat in H by lia.
    now injection H.
Qed.

Lemma grip_violations_of_spec (min_grip : Q) straights (n : Z) :
  0 < min_grip ->
  (In n (grip_violations_of min_grip straights)
   <-> exists i s,
         nth_error straights i = Some s
         /\ (S i < List.length straights)%nat
         /\ StraightSection.length s < min_grip
         /\ StraightSection.number s = n).
Proof.
  intro Hpos. unfold grip_violations_of.
  apply Qgtb_gt in Hpos. rewrite Hpos. cbn [andb].
  destruct (Nat.ltb_spec 1 (List.length straights)) as [Hlen|Hlen].
  - rewrite in_map_iff. split.
    + intros [s [Hn Hin]]. apply filter_In in Hin. destruct Hin as [Hin Hlt].
      apply In_removelast in Hin. destruct Hin as [i [Hi Hil]].
      apply Qltb_lt in Hlt. exists i, s. auto.
    + intros [i [s [Hi [Hil [Hlt Hn]]]]]. exists s. split; [exact Hn|].
      apply filter_In. split.
      * apply In_removelast. eauto.
      * now apply Qltb_lt.
  - split; [intros []|]. intros [i [s [_ [Hil _]]]]. lia.
Qed.

Lemma tail_violation_of_spec (min_tail : Q) straights last_straight :
  0 < min_tail ->
  nth_error straights (List.length straights - 1) = Some last_straight ->
  (tail_violation_of min_tail straights = true
   <-> StraightSection.length last_straight < min_tail).
Proof.
  intros Hpos Hlast. unfold tail_violation_of.
  apply Qgtb_gt in Hpos. rewrite Hpos. cbn [andb].
  destruct (rev_head_last _ _ Hlast) as [t ->].
  destruct (Nat.ltb_spec 0 (List.length straights)) as [Hlen|Hlen].
  - apply Qltb_lt.
  - destruct straights; [discriminate Hlast|simpl in Hlen; lia].
Qed.

(** C7.  Whenever [calculate_straights_and_bends] returns, [generate]
    returns a success, whatever the violations.  In its data: with a
    positive [min_grip] the extra material is
    max(0, min_grip - (first length - die_offset)), and without one it is
    0; with a positive [min_grip] the grip violations are the numbers of
    the straights, the last one excepted, that are shorter than
    [min_grip]; with a positive [min_tail] the tail violation flag is set
    exactly when the last straight is shorter than [min_tail]. *)
Theorem C7_grip_and_tail {G : Geometry} units ordered_path start_point
    params component_name travel_direction starts_with_arc ends_with_arc
    straights bends :
  calculate_straights_and_bends (lines_of ordered_path) (arcs_of ordered_path)
    start_point
    (fst (fst (validate_clr_consistency (arcs_of ordered_path) units)))
    units = Ok (straights, bends) ->
  exists d first_straight,
    generate units ordered_path start_point params component_name
      travel_direction starts_with_arc ends_with_arc
    = Ok (GenerationResult.mk true (Some d) "")
    /\ BendSheetData.straights d = straights
    /\ nth_error straights 0 = Some first_straight
    /\ (0 < BendSheetParams.min_grip params ->
        BendSheetData.extra_material d
        == Qmax 0 (BendSheetParams.min_grip params
                   - (StraightSection.length first_straight
                      - BendSheetParams.die_offset params)))
    /\ (BendSheetParams.min_grip params <= 0 ->
        BendSheetData.extra_material d == 0)
    /\ (0 < BendSheetParams.min_grip params ->
        forall n,
          In n (BendSheetData.grip_violations d)
          <-> exists i s,
                nth_error straights i = Some s
                /\ (S i < List.length straights)%nat
                /\ StraightSection.length s < BendSheetParams.min_grip params
                /\ StraightSection.number s = n)
    /\ (0 < BendSheetParams.min_tail params ->
        forall last_straight,
          nth_error straights (List.length straights - 1)
          = Some last_straight ->
          (BendSheetData.tail_violation d = true
           <-> StraightSection.length last_straight
               < BendSheetParams.min_tail params)).
Proof.
  intro Hc.
  destruct (generate_Ok units ordered_path start_point params
              component_name travel_direction starts_with_arc
              ends_with_arc straights bends Hc)
    as [d [first [rest [Hg [Hs [Hds [_ [Hex [_ [_ [_ [Hgrip Htail]]]]]]]]]]]].
  exists d, first. split; [exact Hg|]. split; [exact Hds|].
  split; [now rewrite Hs|].
  split; [|split; [|split]].
  - intro Hpos. rewrite Hex. apply Qgtb_gt in Hpos. rewrite Hpos.
    apply max2_Qmax.
  - intro Hle. rewrite Hex. apply Qgtb_le in Hle. rewrite Hle. reflexivity.
  - intros Hpos n. rewrite Hgrip. now apply grip_violations_of_spec.
  - intros Hpos last_straight Hlast. rewrite Htail.
    now apply tail_violation_of_spec.
Qed.

(** C8, evaluated.  With no line in the path, be the path empty or made
    of arcs only, [generate] does not return a failure: the [ValueError]
    of [calculate_straights_and_bends] leaves it. *)
Theorem C8_no_straights_raises {G : Geometry} units start_point params
    component_name travel_direction starts_with_arc ends_with_arc :
  generate units [] start_point params component_name
    travel_direction starts_with_arc ends_with_arc
  = Raise (ValueError "No lines provided - cannot calculate bend data")
  /\ forall a,
       generate units [ArcElement a] start_point params component_name
         travel_direction starts_with_arc ends_with_arc
       = Raise (ValueError "No lines provided - cannot calculate bend data").
Proof.
  split; [|intro a]; apply generate_Raise; reflexivity.
Qed.

(** C7 on the sample path: a grip of 9 and a die offset of 2 against a
    first straight of 10, a second straight of 8 and a tail of 6 against
    a minimum of 7. *)
Lemma C7_grip_and_tail_witness :
  exists d first_straight,
    generate (G := sample_geometry) sample_units sample_path (0, 0, 0)
      sample_params "part" "+X" false false
    = Ok (GenerationResult.mk true (Some d) "")
    /\ BendSheetData.straights d = sample_straights
    /\ nth_error sample_straights 0 = Some first_straight
    /\ (0 < BendSheetParams.min_grip sample_params ->
        BendSheetData.extra_material d
        == Qmax 0 (BendSheetParams.min_grip sample_params
                   - (StraightSection.length first_straight
                      - BendSheetParams.die_offset sample_params)))
    /\ (BendSheetParams.min_grip sample_params <= 0 ->
        BendSheetData.extra_material d == 0)
    /\ (0 < BendSheetParams.min_grip sample_params ->
        forall n,
          In n (BendSheetData.grip_violations d)
          <-> exists i s,
                nth_error sample_straights i = Some s
                /\ (S i < List.length sample_straights)%nat
                /\ StraightSection.length s
                   < BendSheetParams.min_grip sample_params
                /\ StraightSection.number s = n)
    /\ (0 < BendSheetParams.min_tail sample_params ->
        forall last_straight,
          nth_error sample_straights (List.length sample_straights - 1)
          = Some last_straight ->
          (BendSheetData.tail_violation d = true
           <-> StraightSection.length last_straight
               < BendSheetParams.min_tail sample_params)).
Proof.
  apply (C7_grip_and_tail (G := sample_geometry) sample_units sample_path
           (0, 0, 0) sample_params "part" "+X" false false
           sample_straights sample_bends).
  vm_compute. reflexivity.
Defined.

(* ------------------------------------------------------------------ *)
(** ** [UnitConfig.from_design] *)

Lemma from_design_cases (design : Design.t) :
  let u := UnitsManager.defaultLengthUnits (Design.unitsManager design) in
  (exists config,
      In (u, config) unit_configs /\ from_design design = Ok config)
  \/ (~ In u ["in"; "ft"; "mm"; "cm"; "m"]%string
      /\ from_design design
         = Raise (ValueError
                    ("Unsupported unit system: '" ++ u
                       ++ "'. Supported units: cm, ft, in, m, mm")%string)).
Proof.
  destruct design as [[u]]. cbn [Design.unitsManager
    UnitsManager.defaultLengthUnits]. unfold from_design.
  cbn [Design.unitsManager UnitsManager.defaultLengthUnits].
  unfold dict_get, unit_configs. cbn [find fst snd].
  destruct (String.eqb_spec "in" u) as [<-|Hin];
    [left; eexists; split; [|reflexivity]; cbn; auto|].
  destruct (String.eqb_spec "ft" u) as [<-|Hft];
    [left; eexists; split; [|reflexivity]; cbn; auto|].
  destruct (String.eqb_spec "mm" u) as [<-|Hmm];
    [left; eexists; split; [|reflexivity]; cbn; auto 6|].
  destruct (String.eqb_spec "cm" u) as [<-|Hcm];
    [left; eexists; split; [|reflexivity]; cbn; auto 6|].
  destruct (String.eqb_spec "m" u) as [<-|Hm];
    [left; eexists; split; [|reflexivity]; cbn; auto 7|].
  right. split; [|reflexivity].
  cbn [In]. intuition congruence.
Qed.

(** X1.  [from_design] returns a configuration exactly for the length
    units in, ft, mm, cm and m, and the configuration returned bears the
    name of the design's unit; for any other unit it raises [ValueError]
    with a message that quotes the unit and lists the supported ones in
    alphabetical order. *)
Theorem X1_from_design_units (design : Design.t) :
  let u := UnitsManager.defaultLengthUnits (Design.unitsManager design) in
  (In u ["in"; "ft"; "mm"; "cm"; "m"]%string ->
   exists config,
     from_design design = Ok config /\ UnitConfig.unit_name config = u)
  /\ (~ In u ["in"; "ft"; "mm"; "cm"; "m"]%string ->
      from_design design
      = Raise (ValueError
                 ("Unsupported unit system: '" ++ u
                    ++ "'. Supported units: cm, ft, in, m, mm")%string)).
Proof.
  intro u. destruct (from_design_cases design) as [[config [Hin Hok]]|[Hn He]];
    fold u in Hin || fold u in Hn, He.
  - split.
    + intros _. exists config. split; [exact Hok|].
      unfold unit_configs in Hin. cbn [In] in Hin.
      repeat (destruct Hin as [Hin|Hin];
              [injection Hin as <- <-; reflexivity|]).
      destruct Hin.
    + intro Hn. exfalso. apply Hn.
      unfold unit_configs in Hin. cbn [In] in Hin. cbn [In].
      repeat (destruct Hin as [Hin|Hin];
              [injection Hin as <- _; auto 6|]).
      destruct Hin.
  - split; [intro H; contradiction|intros _; exact He].
Qed.

(** X1 on a design in inches. *)
Lemma X1_from_design_units_witness :
  exists config,
    from_design (Design.mk (UnitsManager.mk "in")) = Ok config
    /\ UnitConfig.unit_name config = "in"%string.
Proof.
  apply (proj1 (X1_from_design_units (Design.mk (UnitsManager.mk "in")))).
  cbn. auto.
Defined.

(** X2.  Every configuration [from_design] returns has a positive
    conversion factor, a default precision that is one of its valid
    precisions, and the metric precisions exactly when it is metric,
    which it is exactly for mm, cm and m. *)
Theorem X2_from_design_invariants (design : Design.t)
    (config : UnitConfig.t) :
  from_design design = Ok config ->
  0 < UnitConfig.cm_to_unit config
  /\ In (UnitConfig.default_precision config)
        (UnitConfig.valid_precisions config)
  /\ UnitConfig.valid_precisions config
     = (if UnitConfig.is_metric config
        then VALID_PRECISIONS_METRIC else VALID_PRECISIONS_IMPERIAL)
  /\ (UnitConfig.is_metric config = true
      <-> In (UnitConfig.unit_name config) ["mm"; "cm"; "m"]%string).
Proof.
  intro Hok.
  destruct (from_design_cases design) as [[c [Hin Hc]]|[_ He]];
    [|congruence].
  assert (c = config) by congruence. subst c.
  unfold unit_configs in Hin. cbn [In] in Hin.
  repeat (destruct Hin as [Hin|Hin];
          [injection Hin as _ <-;
           split; [reflexivity|];
           split; [cbn; auto 6|];
           split; [reflexivity|];
           cbn; split; intro H; try discriminate H; auto;
           repeat (destruct H as [H|H]; [discriminate H|]); destruct H|]).
  destruct Hin.
Qed.

(** X2 on a design in millimetres. *)
Lemma X2_from_design_invariants_witness :
  0 < 10.0
  /\ In 1%Z VALID_PRECISIONS_METRIC
  /\ VALID_PRECISIONS_METRIC = VALID_PRECISIONS_METRIC
  /\ (true = true <-> In "mm"%string ["mm"; "cm"; "m"]%string).
Proof.
  apply (X2_from_design_invariants (Design.mk (UnitsManager.mk "mm"))
           (UnitConfig.mk true "mm" "mm" 10.0 "44.45"
              DEFAULT_PRECISION_METRIC VALID_PRECISIONS_METRIC)).
  reflexivity.
Defined.

Lemma from_design_factor_positive (design : Design.t) (config : UnitConfig.t) :
  from_design design = Ok config -> 0 < UnitConfig.cm_to_unit config.
Proof.
  intro Hok.
  destruct (from_design_cases design) as [[c [Hin Hc]]|[_ He]];
    [|congruence].
  assert (c = config) by congruence. subst c.
  unfold unit_configs in Hin. cbn [In] in Hin.
  repeat (destruct Hin as [Hin|Hin]; [injection Hin as _ <-; reflexivity|]).
  destruct Hin.
Qed.

(** X3.  With the units of any supported design,
    [validate_clr_consistency] reports degenerate geometry (CLR 0,
    mismatch set) whenever the first arc's stored radius is at most 0;
    and a positive CLR is only ever returned for a positive first
    radius: it is then that radius times the conversion factor, and the
    values returned with it are all the radii times that factor. *)
Theorem X3_units_keep_sign (design : Design.t) (units : UnitConfig.t)
    (a : SketchArc.t) (arcs : list SketchArc.t) :
  from_design design = Ok units ->
  (SketchArc.radius a <= 0 ->
   validate_clr_consistency (a :: arcs) units
   = (0, true, clr_display (a :: arcs) units))
  /\ (forall clr mismatch values,
         validate_clr_consistency (a :: arcs) units
         = (clr, mismatch, values) ->
         0 < clr ->
         0 < SketchArc.radius a
         /\ clr = SketchArc.radius a * UnitConfig.cm_to_unit units
         /\ values = clr_display (a :: arcs) units).
Proof.
  intro Hok. pose proof (from_design_factor_positive _ _ Hok) as Hpos.
  assert (Hneg : SketchArc.radius a <= 0 ->
                 SketchArc.radius a * UnitConfig.cm_to_unit units <= 0).
  { intro Hr.
    setoid_replace 0 with (0 * UnitConfig.cm_to_unit units) by ring.
    apply Qmult_le_compat_r; [exact Hr|apply Qlt_le_weak, Hpos]. }
  rewrite validate_clr_cons. cbv zeta. split.
  - intro Hr. apply Hneg in Hr. apply Qle_bool_iff in Hr. now rewrite Hr.
  - intros clr mismatch values Hv Hclr.
    destruct (Qle_bool (SketchArc.radius a * UnitConfig.cm_to_unit units) 0)
      eqn:E.
    + injection Hv as <- _ _. exfalso. apply (Qlt_irrefl 0 Hclr).
    + injection Hv as <- _ <-.
      split; [|split; reflexivity].
      destruct (Qlt_le_dec 0 (SketchArc.radius a)) as [Hr|Hr]; [exact Hr|].
      apply Hneg in Hr. apply Qle_bool_iff in Hr. congruence.
Qed.

(** X3 on a design in inches and an arc of radius 5.08 cm. *)
Lemma X3_units_keep_sign_witness :
  0 < 5.08
  /\ 5.08 * (1.0 / 2.54) = 5.08 * (1.0 / 2.54)
  /\ [5.08 * (1.0 / 2.54)]
     = clr_display [SketchArc.mk (0, 0, 0) (1, 0, 0) 5.08]
         (UnitConfig.mk false "in" double_quote (1.0 / 2.54) "1.75"
            DEFAULT_PRECISION_IMPERIAL VALID_PRECISIONS_IMPERIAL).
Proof.
  apply (proj2 (X3_units_keep_sign (Design.mk (UnitsManager.mk "in")) _
                  (SketchArc.mk (0, 0, 0) (1, 0, 0) 5.08) []
                  eq_refl)
           (5.08 * (1.0 / 2.54)) false [5.08 * (1.0 / 2.54)]).
  - reflexivity.
  - reflexivity.
Defined.

(* ------------------------------------------------------------------ *)
(** ** [get_free_endpoint] *)

Section FreeEndpointFacts.
Context {P : Proximity}.

Lemma is_same_iff (a b : ElementRef.t) :
  is_same a b = true <-> ElementRef.object_id a = ElementRef.object_id b.
Proof. unfold is_same. apply Nat.eqb_eq. Qed.

(** The loop finds exactly the elements of [touches_other]. *)
Lemma connected_to_other_spec ep element all_elements :
  connected_to_other ep element all_elements = true
  <-> touches_other ep element all_elements.
Proof.
  unfold touches_other.
  induction all_elements as [|other rest IH]; cbn [connected_to_other].
  - split; [discriminate|]. intros [o [[] _]].
  - destruct (is_same other element) eqn:Es.
    + apply is_same_iff in Es. rewrite IH. split.
      * intros [o [Hin H]]. exists o. split; [now right|exact H].
      * intros [o [[<-|Hin] [Hne H]]]; [contradiction|].
        exists o. auto.
    + assert (Hne : ElementRef.object_id other
                    <> ElementRef.object_id element).
      { intro E. apply is_same_iff in E. congruence. }
      destruct (points_are_close ep
                  (fst (endpoints (ElementRef.element other)))
                || points_are_close ep
                     (snd (endpoints (ElementRef.element other)))) eqn:Ec.
      * split; [intros _|reflexivity].
        exists other. split; [now left|]. split; [exact Hne|].
        now apply orb_true_iff.
      * rewrite IH. split.
        -- intros [o [Hin H]]. exists o. split; [now right|exact H].
        -- intros [o [[<-|Hin] [Hno H]]].
           ++ apply orb_true_iff in H. congruence.
           ++ exists o. auto.
Qed.

(** The loop reads the list as a set. *)
Lemma connected_to_other_members ep element all_elements all_elements' :
  (forall o, In o all_elements <-> In o all_elements') ->
  connected_to_other ep element all_elements
  = connected_to_other ep element all_elements'.
Proof.
  intro Hmem.
  assert (H : touches_other ep element all_elements
              <-> touches_other ep element all_elements').
  { unfold touches_other.
    split; intros [o [Hin Ho]]; exists o; (split; [now apply Hmem|exact Ho]). }
  rewrite <- !connected_to_other_spec in H.
  destruct (connected_to_other ep element all_elements);
    destruct (connected_to_other ep element all_elements');
    try reflexivity.
  - symmetry. now apply H.
  - now apply H.
Qed.

Lemma connected_to_other_skips_self ep element all_elements :
  connected_to_other ep element (element :: all_elements)
  = connected_to_other ep element all_elements.
Proof.
  cbn [connected_to_other].
  assert (E : is_same element element = true) by now apply is_same_iff.
  now rewrite E.
Qed.

End FreeEndpointFacts.

(** X4.  [get_free_endpoint] returns the element's first endpoint when
    no other element has an endpoint close to it; failing that its second
    endpoint when no other element has an endpoint close to that one; and
    its first endpoint again when both are touched.  It never returns
    anything but one of the element's two endpoints, and the endpoint it
    returns is touched by another element only if both are. *)
Theorem X4_free_endpoint {P : Proximity} (element : ElementRef.t)
    (all_elements : list ElementRef.t) :
  let ep0 := fst (endpoints (ElementRef.element element)) in
  let ep1 := snd (endpoints (ElementRef.element element)) in
  let result := get_free_endpoint element all_elements in
  (~ touches_other ep0 element all_elements -> result = ep0)
  /\ (touches_other ep0 element all_elements ->
      ~ touches_other ep1 element all_elements -> result = ep1)
  /\ (touches_other ep0 element all_elements ->
      touches_other ep1 element all_elements -> result = ep0)
  /\ (result = ep0 \/ result = ep1)
  /\ (touches_other result element all_elements ->
      touches_other ep0 element all_elements
      /\ touches_other ep1 element all_elements).
Proof.
  intros ep0 ep1 result. subst result. unfold get_free_endpoint.
  destruct (endpoints (ElementRef.element element)) as [e0 e1] eqn:E.
  cbn [fst snd] in ep0, ep1. subst ep0 ep1.
  pose proof (connected_to_other_spec e0 element all_elements) as H0.
  pose proof (connected_to_other_spec e1 element all_elements) as H1.
  destruct (connected_to_other e0 element all_elements);
    destruct (connected_to_other e1 element all_elements); cbn [negb].
  - assert (T0 : touches_other e0 element all_elements) by now apply H0.
    assert (T1 : touches_other e1 element all_elements) by now apply H1.
    tauto.
  - assert (T0 : touches_other e0 element all_elements) by now apply H0.
    assert (N1 : ~ touches_other e1 element all_elements).
    { intro H. apply H1 in H. discriminate H. }
    tauto.
  - assert (N0 : ~ touches_other e0 element all_elements).
    { intro H. apply H0 in H. discriminate H. }
    tauto.
  - assert (N0 : ~ touches_other e0 element all_elements).
    { intro H. apply H0 in H. discriminate H. }
    tauto.
Qed.

(** X4 on the first element of the sample chain, whose start is free. *)
Lemma X4_free_endpoint_witness :
  get_free_endpoint (P := sample_proximity)
    (ElementRef.mk 1 (LineElement (SketchLine.mk (0, 0, 0) (1, 0, 0))))
    sample_chain
  = (0, 0, 0).
Proof.
  apply (proj1 (X4_free_endpoint (P := sample_proximity)
                  (ElementRef.mk 1
                     (LineElement (SketchLine.mk (0, 0, 0) (1, 0, 0))))
                  sample_chain)).
  intros [o [Hin [Hne Hclose]]].
  cbn [sample_chain In] in Hin.
  destruct Hin as [<-|[<-|[<-|[]]]].
  - apply Hne. reflexivity.
  - vm_compute in Hclose. destruct Hclose; discriminate.
  - vm_compute in Hclose. destruct Hclose; discriminate.
Defined.

(** X5.  [get_free_endpoint] reads [all_elements] as a set of objects
    that leaves the element itself out: reordering the list, or adding
    the element itself to it, does not change the result. *)
Theorem X5_free_endpoint_list {P : Proximity} (element : ElementRef.t)
    (all_elements all_elements' : list ElementRef.t) :
  Permutation all_elements all_elements' ->
  get_free_endpoint element all_elements'
  = get_free_endpoint element all_elements
  /\ get_free_endpoint element (element :: all_elements)
     = get_free_endpoint element all_elements.
Proof.
  intro Hperm. unfold get_free_endpoint.
  destruct (endpoints (ElementRef.element element)) as [e0 e1].
  assert (Hmem : forall o, In o all_elements' <-> In o all_elements).
  { intro o. split; apply Permutation_in;
      [now apply Permutation_sym|exact Hperm]. }
  split.
  - now rewrite !(connected_to_other_members _ _ _ _ Hmem).
  - now rewrite !connected_to_other_skips_self.
Qed.

(** X5 on the sample chain, reversed. *)
Lemma X5_free_endpoint_list_witness :
  get_free_endpoint (P := sample_proximity)
    (ElementRef.mk 3 (LineElement (SketchLine.mk (2, 0, 0) (3, 0, 0))))
    (rev sample_chain)
  = get_free_endpoint (P := sample_proximity)
      (ElementRef.mk 3 (LineElement (SketchLine.mk (2, 0, 0) (3, 0, 0))))
      sample_chain.
Proof.
  apply (proj1 (X5_free_endpoint_list (P := sample_proximity)
                  (ElementRef.mk 3
                     (LineElement (SketchLine.mk (2, 0, 0) (3, 0, 0))))
                  sample_chain (rev sample_chain)
                  (Permutation_rev sample_chain))).
Defined.

(* ------------------------------------------------------------------ *)
(** ** More on [calculate_straights_and_bends] and [generate] *)

Section PipelineFacts.
Context {G : Geometry}.

Lemma bend_of_number (vectors normals : list Vector3D) (clr : Q) i b :
  bend_of vectors normals clr i = Ok b ->
  BendData.number b = (Z.of_nat i + 1)%Z.
Proof.
  unfold bend_of. intro H.
  destruct (get vectors i) as [v0|]; [|discriminate H].
  destruct (get vectors (i + 1)) as [v1|]; [|discriminate H].
  cbn [bind] in H.
  destruct (angle_between_vectors v0 v1) as [a|]; [|discriminate H].
  cbn [or_zero_vector_error bind] in H.
  destruct (0 <? i)%nat.
  - destruct (get normals (i - 1)) as [n0|]; [|discriminate H].
    destruct (get normals i) as [n1|]; [|discriminate H].
    cbn [bind] in H.
    destruct (calculate_rotation n0 n1) as [r|]; [|discriminate H].
    cbn in H. now injection H as <-.
  - cbn in H. now injection H as <-.
Qed.

(** The straights and the bends returned are numbered from 1, in
    order. *)
Lemma calculate_numbering lines arcs path_start clr units straights bends :
  calculate_straights_and_bends lines arcs path_start clr units
  = Ok (straights, bends) ->
  (forall i s, nth_error straights i = Some s ->
               StraightSection.number s = (Z.of_nat i + 1)%Z)
  /\ (forall i b, nth_error bends i = Some b ->
                  BendData.number b = (Z.of_nat i + 1)%Z).
Proof.
  intro H. apply calculate_Ok_inv in H.
  destruct H as [first [rest [normals [_ [-> [_ Hbends]]]]]].
  split.
  - intros i s Hs. rewrite nth_error_map, enumerate_from_nth in Hs.
    destruct (nth_error (corrected_lines path_start first rest) i)
      as [[c_start c_end]|]; [|discriminate Hs].
    cbn in Hs. now injection Hs as <-.
  - intros i b Hb. eapply bend_of_number.
    apply (for_range_nth _ _ _ _ _ _ Hbends Hb).
Qed.

(** The rotation is undefined for the first bend only. *)
Lemma calculate_rotation_defined lines arcs path_start clr units
    straights bends i b :
  calculate_straights_and_bends lines arcs path_start clr units
  = Ok (straights, bends) ->
  nth_error bends i = Some b ->
  (BendData.rotation b = None <-> i = 0%nat).
Proof.
  intros H Hb. apply calculate_Ok_inv in H.
  destruct H as [first [rest [normals [_ [_ [_ Hbends]]]]]].
  pose proof (for_range_nth _ _ _ _ _ _ Hbends Hb) as Hi.
  cbn [Nat.add] in Hi. destruct i as [|i].
  - apply bend_of_first in Hi. tauto.
  - apply bend_of_later in Hi. destruct Hi as [r Hr].
    rewrite Hr. split; discriminate.
Qed.

Lemma calculate_not_index_error lines arcs path_start clr units :
  calculate_straights_and_bends lines arcs path_start clr units
  <> Raise IndexError.
Proof.
  destruct (Nat.lt_ge_cases (List.length lines) (List.length arcs + 1))
    as [Hlt|Hge].
  - destruct lines as [|l lines'].
    + rewrite calculate_no_lines. discriminate.
    + rewrite calculate_too_few by (discriminate || exact Hlt). discriminate.
  - destruct (calculate_enough lines arcs path_start clr units Hge)
      as [[sb ->]| ->]; discriminate.
Qed.

End PipelineFacts.

(** X6.  Neither [calculate_straights_and_bends] nor [generate] ever
    raises [IndexError]: the checks made before the loops keep every list
    index in range.  What they raise is a [ValueError] or a
    [ZeroVectorError]. *)
Theorem X6_indices_in_range {G : Geometry} lines arcs path_start clr units
    ordered_path params component_name travel_direction
    starts_with_arc ends_with_arc :
  (forall e,
      calculate_straights_and_bends lines arcs path_start clr units
      = Raise e ->
      e = ZeroVectorError \/ exists msg, e = ValueError msg)
  /\ (forall e,
         generate units ordered_path path_start params component_name
           travel_direction starts_with_arc ends_with_arc = Raise e ->
         e = ZeroVectorError \/ exists msg, e = ValueError msg).
Proof.
  assert (Hcalc : forall lines arcs clr e,
             calculate_straights_and_bends lines arcs path_start clr units
             = Raise e ->
             e = ZeroVectorError \/ exists msg, e = ValueError msg).
  { intros ls ars c e He.
    pose proof (calculate_not_index_error ls ars path_start c units) as Hn.
    destruct e as [msg| |]; [right; eauto|now left|congruence]. }
  split; [apply Hcalc|].
  intros e He.
  destruct (calculate_straights_and_bends (lines_of ordered_path)
              (arcs_of ordered_path) path_start
              (fst (fst (validate_clr_consistency (arcs_of ordered_path) units)))
              units) as [[straights bends]|e'] eqn:E.
  - destruct (generate_Ok units ordered_path path_start params
                component_name travel_direction starts_with_arc
                ends_with_arc straights bends E) as [d [f [r [Hg _]]]].
    congruence.
  - rewrite (generate_Raise _ _ _ _ _ _ _ _ _ E) in He.
    injection He as <-. eapply Hcalc, E.
Qed.

(** X6 on one line with two arcs, which raises. *)
Lemma X6_indices_in_range_witness :
  ValueError
    "Insufficient vectors (1) for 2 arcs - expected at least arcs + 1 vectors"
  = ZeroVectorError
  \/ exists msg,
       ValueError
         "Insufficient vectors (1) for 2 arcs - expected at least arcs + 1 vectors"
       = ValueError msg.
Proof.
  apply (proj1 (X6_indices_in_range (G := sample_geometry)
                  [SketchLine.mk (0, 0, 0) (10, 0, 0)]
                  [sample_arc; sample_arc] (0, 0, 0) 2 sample_units
                  [] sample_params "part" "+X" false false)).
  reflexivity.
Defined.

(** X7.  When [calculate_straights_and_bends] returns, there is one
    straight per line and one bend per arc, strictly fewer bends than
    straights, and straights and bends are numbered 1, 2, 3, ... in
    order, so that no two bends bear the same number. *)
Theorem X7_counts_and_numbers {G : Geometry} lines arcs path_start clr
    units straights bends :
  calculate_straights_and_bends lines arcs path_start clr units
  = Ok (straights, bends) ->
  List.length straights = List.length lines
  /\ List.length bends = List.length arcs
  /\ (List.length bends < List.length straights)%nat
  /\ (forall i s, nth_error straights i = Some s ->
                  StraightSection.number s = (Z.of_nat i + 1)%Z)
  /\ (forall i b, nth_error bends i = Some b ->
                  BendData.number b = (Z.of_nat i + 1)%Z)
  /\ NoDup (map BendData.number bends).
Proof.
  intro H.
  destruct (calculate_Ok_lengths _ _ _ _ _ _ _ H) as [Hs [Hb Hlt]].
  destruct (calculate_numbering _ _ _ _ _ _ _ H) as [Hns Hnb].
  repeat split; auto.
  apply NoDup_nth_error. intros i j Hi Hij.
  rewrite length_map in Hi.
  rewrite !nth_error_map in Hij.
  destruct (nth_error bends i) as [bi|] eqn:Ei;
    [|apply nth_error_None in Ei; lia].
  destruct (nth_error bends j) as [bj|] eqn:Ej; [|discriminate Hij].
  cbn in Hij. injection Hij as Hij.
  rewrite (Hnb _ _ Ei), (Hnb _ _ Ej) in Hij. lia.
Qed.

(** X7 on the sample lines. *)
Lemma X7_counts_and_numbers_witness :
  List.length sample_straights = List.length sample_lines
  /\ List.length sample_bends = 2%nat
  /\ (List.length sample_bends < List.length sample_straights)%nat
  /\ (forall i s, nth_error sample_straights i = Some s ->
                  StraightSection.number s = (Z.of_nat i + 1)%Z)
  /\ (forall i b, nth_error sample_bends i = Some b ->
                  BendData.number b = (Z.of_nat i + 1)%Z)
  /\ NoDup (map BendData.number sample_bends).
Proof.
  apply (X7_counts_and_numbers (G := sample_geometry) sample_lines
           [sample_arc; sample_arc] (0, 0, 0) 2 sample_units).
  vm_compute. reflexivity.
Defined.

(** X8.  In what [calculate_straights_and_bends] returns, the rotation
    is [None] for the first bend and for no other: every later bend has
    a rotation, the one [calculate_rotation] gave. *)
Theorem X8_rotation_defined {G : Geometry} lines arcs path_start clr units
    straights bends i b :
  calculate_straights_and_bends lines arcs path_start clr units
  = Ok (straights, bends) ->
  nth_error bends i = Some b ->
  (BendData.rotation b = None <-> i = 0%nat).
Proof. apply calculate_rotation_defined. Qed.

(** X8 on the second bend of the sample lines. *)
Lemma X8_rotation_defined_witness :
  Some 90 = None <-> 1%nat = 0%nat.
Proof.
  apply (X8_rotation_defined (G := sample_geometry) sample_lines
           [sample_arc; sample_arc] (0, 0, 0) 2 sample_units
           sample_straights sample_bends 1
           (BendData.mk 2 90 (Some 90) (63900 # 20340))).
  - vm_compute. reflexivity.
  - reflexivity.
Defined.

(* ------------------------------------------------------------------ *)
(** ** Marks in the pipeline *)

Lemma bend_segment_start_inj b c c' :
  bend_segment b c = bend_segment b c' -> c = c'.
Proof. intro H. now injection H. Qed.

(** In a list without repetition, an earlier position holds another
    value. *)
Lemma NoDup_numbers_fresh (bends : list BendData.t) i b :
  NoDup (map BendData.number bends) ->
  nth_error bends i = Some b ->
  forall j b', (j < i)%nat -> nth_error bends j = Some b' ->
               BendData.number b' <> BendData.number b.
Proof.
  intros Hnd Hb j b' Hj Hb' E.
  rewrite NoDup_nth_error in Hnd.
  assert (Hlen : (j < List.length (map BendData.number bends))%nat).
  { rewrite length_map. apply nth_error_Some. congruence. }
  specialize (Hnd j i Hlen). rewrite !nth_error_map, Hb, Hb' in Hnd.
  cbn in Hnd. rewrite E in Hnd. specialize (Hnd eq_refl). lia.
Qed.

(** X9.  In the data [generate] returns there is one mark per bend, and
    the mark of the bend at index [i] bears the number [i + 1] and lies
    at the start of that bend's own segment, the one at index
    [2 * i + 1] of the timeline, minus the die offset. *)
Theorem X9_generated_marks {G : Geometry} units ordered_path start_point
    params component_name travel_direction starts_with_arc ends_with_arc r :
  generate units ordered_path start_point params component_name
    travel_direction starts_with_arc ends_with_arc = Ok r ->
  exists d,
    r = GenerationResult.mk true (Some d) ""
    /\ List.length (BendSheetData.mark_positions d)
       = List.length (BendSheetData.bends d)
    /\ forall i b,
         nth_error (BendSheetData.bends d) i = Some b ->
         exists seg m,
           nth_error (BendSheetData.segments d) (2 * i + 1) = Some seg
           /\ PathSegment.segment_type seg = seg_bend
           /\ PathSegment.length seg = BendData.arc_length b
           /\ nth_error (BendSheetData.mark_positions d) i = Some m
           /\ MarkPosition.bend_num m = (Z.of_nat i + 1)%Z
           /\ MarkPosition.bend_angle m = BendData.angle b
           /\ MarkPosition.mark_position m
              = PathSegment.starts_at seg - BendSheetParams.die_offset params.
Proof.
  intro Hr.
  destruct (generate_Ok_inv _ _ _ _ _ _ _ _ _ Hr) as [straights [bends Hc]].
  pose proof (calculate_Ok_lengths _ _ _ _ _ _ _ Hc) as [_ [_ Hlen]].
  pose proof (calculate_numbering _ _ _ _ _ _ _ Hc) as [_ Hnum].
  destruct (generate_Ok units ordered_path start_point params
              component_name travel_direction starts_with_arc
              ends_with_arc straights bends Hc)
    as [d [first [rest [Hg [_ [_ [Hdb [_ [Hseg [Hmarks _]]]]]]]]]].
  rewrite Hg in Hr. injection Hr as <-.
  exists d. split; [reflexivity|].
  rewrite Hmarks, Hseg, Hdb, build_marks, build_segments_timeline.
  split; [apply length_map|].
  intros i b Hb.
  assert (Hi : (i < List.length bends)%nat)
    by (apply nth_error_Some; congruence).
  destruct (find_bend_start_timeline bends b i straights 0
              (BendSheetData.extra_material d)) as [c [Hnth Hfind]];
    [exact Hb|lia| |].
  - intros j b' Hj Hb' E.
    rewrite (Hnum _ _ Hb), (Hnum _ _ Hb') in E. lia.
  - exists (bend_segment b c),
           (mark_of (timeline bends 0 straights
                       (BendSheetData.extra_material d))
                    (BendSheetParams.die_offset params) b).
    split; [exact Hnth|]. split; [reflexivity|]. split; [reflexivity|].
    split; [now rewrite nth_error_map, Hb|].
    split; [apply (Hnum _ _ Hb)|]. split; [reflexivity|].
    unfold mark_of. cbn [MarkPosition.mark_position]. now rewrite Hfind.
Qed.

(** X9 on the sample path. *)
Lemma X9_generated_marks_witness :
  exists d,
    GenerationResult.mk true sample_sheet ""
    = GenerationResult.mk true (Some d) ""
    /\ List.length (BendSheetData.mark_positions d)
       = List.length (BendSheetData.bends d)
    /\ forall i b,
         nth_error (BendSheetData.bends d) i = Some b ->
         exists seg m,
           nth_error (BendSheetData.segments d) (2 * i + 1) = Some seg
           /\ PathSegment.segment_type seg = seg_bend
           /\ PathSegment.length seg = BendData.arc_length b
           /\ nth_error (BendSheetData.mark_positions d) i = Some m
           /\ MarkPosition.bend_num m = (Z.of_nat i + 1)%Z
           /\ MarkPosition.bend_angle m = BendData.angle b
           /\ MarkPosition.mark_position m
              = PathSegment.starts_at seg
                - BendSheetParams.die_offset sample_params.
Proof.
  apply (X9_generated_marks (G := sample_geometry) sample_units sample_path
           (0, 0, 0) sample_params "part"%string "+X"%string false false).
  vm_compute. reflexivity.
Defined.

(** X10.  With a positive minimum grip, the extra material [generate]
    adds is never negative; it is zero when the first straight less the
    die offset already reaches the minimum grip, and the minimum grip
    less that difference otherwise.  The first mark is placed at the
    extra material plus the length of the first straight, less the die
    offset. *)
Theorem X10_grip_guarantee {G : Geometry} units ordered_path start_point
    params component_name travel_direction starts_with_arc ends_with_arc r :
  generate units ordered_path start_point params component_name
    travel_direction starts_with_arc ends_with_arc = Ok r ->
  0 < BendSheetParams.min_grip params ->
  exists d first_straight,
    r = GenerationResult.mk true (Some d) ""
    /\ nth_error (BendSheetData.straights d) 0 = Some first_straight
    /\ 0 <= BendSheetData.extra_material d
    /\ (BendSheetParams.min_grip params
        <= StraightSection.length first_straight
           - BendSheetParams.die_offset params ->
        BendSheetData.extra_material d = 0)
    /\ (StraightSection.length first_straight
        - BendSheetParams.die_offset params
        < BendSheetParams.min_grip params ->
        BendSheetData.extra_material d
        = BendSheetParams.min_grip params
          - (StraightSection.length first_straight
             - BendSheetParams.die_offset params))
    /\ (forall m,
           nth_error (BendSheetData.mark_positions d) 0 = Some m ->
           MarkPosition.mark_position m
           = BendSheetData.extra_material d
             + StraightSection.length first_straight
             - BendSheetParams.die_offset params).
Proof.
  intros Hr Hgrip.
  destruct (generate_Ok_inv _ _ _ _ _ _ _ _ _ Hr) as [straights [bends Hc]].
  destruct (generate_Ok units ordered_path start_point params
              component_name travel_direction starts_with_arc
              ends_with_arc straights bends Hc)
    as [d [first [rest [Hg [Hs [Hds [_ [Hex [_ [Hmarks _]]]]]]]]]].
  rewrite Hg in Hr. injection Hr as <-.
  apply Qgtb_gt in Hgrip. rewrite Hgrip in Hex.
  pose proof (max2_ge_l 0 (BendSheetParams.min_grip params
                           - (StraightSection.length first
                              - BendSheetParams.die_offset params))) as H0.
  rewrite <- Hex in H0.
  exists d, first. split; [reflexivity|].
  split; [now rewrite Hds, Hs|]. split; [exact H0|].
  split; [|split].
  - intro Hfeed. rewrite Hex. unfold max2.
    destruct (Qgtb (BendSheetParams.min_grip params
                    - (StraightSection.length first
                       - BendSheetParams.die_offset params)) 0) eqn:E;
      [|reflexivity].
    apply Qgtb_gt in E. lra.
  - intro Hfeed. rewrite Hex. unfold max2.
    destruct (Qgtb (BendSheetParams.min_grip params
                    - (StraightSection.length first
                       - BendSheetParams.die_offset params)) 0) eqn:E;
      [reflexivity|].
    apply Qgtb_le in E. lra.
  - intros m Hm. rewrite Hmarks, build_marks, nth_error_map in Hm.
    destruct (nth_error bends 0) as [b|] eqn:Hb; [|discriminate Hm].
    cbn in Hm. injection Hm as <-.
    unfold mark_of. cbn [MarkPosition.mark_position].
    rewrite Hs. cbn [timeline]. rewrite Hb. find_step.
    rewrite String.eqb_refl. reflexivity.
Qed.

(** X10 on the sample path: a first straight of 10, a die offset of 2
    and a minimum grip of 9 give 1 of extra material and a first mark at
    9. *)
Lemma X10_grip_guarantee_witness :
  exists d first_straight,
    GenerationResult.mk true sample_sheet ""
    = GenerationResult.mk true (Some d) ""
    /\ nth_error (BendSheetData.straights d) 0 = Some first_straight
    /\ 0 <= BendSheetData.extra_material d
    /\ (BendSheetParams.min_grip sample_params
        <= StraightSection.length first_straight
           - BendSheetParams.die_offset sample_params ->
        BendSheetData.extra_material d = 0)
    /\ (StraightSection.length first_straight
        - BendSheetParams.die_offset sample_params
        < BendSheetParams.min_grip sample_params ->
        BendSheetData.extra_material d
        = BendSheetParams.min_grip sample_params
          - (StraightSection.length first_straight
             - BendSheetParams.die_offset sample_params))
    /\ (forall m,
           nth_error (BendSheetData.mark_positions d) 0 = Some m ->
           MarkPosition.mark_position m
           = BendSheetData.extra_material d
             + StraightSection.length first_straight
             - BendSheetParams.die_offset sample_params).
Proof.
  apply (X10_grip_guarantee (G := sample_geometry) sample_units sample_path
           (0, 0, 0) sample_params "part"%string "+X"%string false false).
  - vm_compute. reflexivity.
  - reflexivity.
Defined.

(* ------------------------------------------------------------------ *)
(** ** Positions along the timeline *)

(** Every segment ends at its start plus its length. *)
Lemma timeline_segment_length bends straights :
  forall i cumulative seg,
    In seg (timeline bends i straights cumulative) ->
    PathSegment.ends_at seg
    = PathSegment.starts_at seg + PathSegment.length seg.
Proof.
  induction straights as [|s rest IH]; intros i cumulative seg Hin.
  - destruct Hin.
  - cbn [timeline] in Hin. destruct Hin as [<-|Hin]; [reflexivity|].
    destruct (nth_error bends i) as [b|].
    + destruct Hin as [<-|Hin]; [reflexivity|]. eapply IH, Hin.
    + eapply IH, Hin.
Qed.

(** The lengths in the timeline are those of the straights and bends. *)
Lemma timeline_length_nonneg bends straights :
  (forall s, In s straights -> 0 <= StraightSection.length s) ->
  (forall b, In b bends -> 0 <= BendData.arc_length b) ->
  forall i cumulative seg,
    In seg (timeline bends i straights cumulative) ->
    0 <= PathSegment.length seg.
Proof.
  intros Hs Hb.
  induction straights as [|s rest IH]; intros i cumulative seg Hin.
  - destruct Hin.
  - assert (Hrest : forall s', In s' rest -> 0 <= StraightSection.length s')
      by (intros s' H'; apply Hs; now right).
    cbn [timeline] in Hin. destruct Hin as [<-|Hin].
    + apply Hs. now left.
    + destruct (nth_error bends i) as [b|] eqn:Eb.
      * destruct Hin as [<-|Hin].
        -- apply Hb. eapply nth_error_In, Eb.
        -- eapply (IH Hrest), Hin.
      * eapply (IH Hrest), Hin.
Qed.

(** Along a chained list of segments of non-negative length the
    positions do not decrease. *)
Lemma chained_monotone segments :
  forall c,
    chained c segments ->
    (forall seg, In seg segments ->
                 PathSegment.ends_at seg
                 = PathSegment.starts_at seg + PathSegment.length seg
                 /\ 0 <= PathSegment.length seg) ->
    forall k k' a b,
      (k <= k')%nat ->
      nth_error segments k = Some a ->
      nth_error segments k' = Some b ->
      c <= PathSegment.starts_at a
      /\ PathSegment.starts_at a <= PathSegment.starts_at b
      /\ PathSegment.starts_at b <= PathSegment.ends_at b.
Proof.
  induction segments as [|seg rest IH]; intros c Hc Hok k k' a b Hk Ha Hb.
  - destruct k; discriminate Ha.
  - destruct Hc as [Hstart Hrest].
    assert (Hok' : forall s, In s rest ->
                PathSegment.ends_at s
                = PathSegment.starts_at s + PathSegment.length s
                /\ 0 <= PathSegment.length s)
      by (intros s Hin; apply Hok; now right).
    destruct (Hok seg (or_introl eq_refl)) as [Hend Hlen].
    destruct k as [|k]; destruct k' as [|k']; try lia.
    + injection Ha as <-. injection Hb as <-. rewrite Hend, Hstart.
      repeat split; lra.
    + injection Ha as <-. cbn [nth_error] in Hb.
      destruct (IH _ Hrest Hok' k' k' b b (Nat.le_refl _) Hb Hb)
        as [H1 [_ H3]].
      rewrite Hend, Hstart in H1. rewrite Hstart. repeat split; lra.
    + cbn [nth_error] in Ha, Hb.
      destruct (IH _ Hrest Hok' k k' a b ltac:(lia) Ha Hb) as [H1 [H2 H3]].
      rewrite Hend, Hstart in H1. repeat split; lra.
Qed.

(** X11.  Every segment of the timeline ends at its start plus its
    length.  When no straight length and no arc length is negative, the
    segments run forward: none starts before the extra material, none
    starts before a segment that comes earlier in the list, and none ends
    before it starts. *)
Theorem X11_timeline_runs_forward
    (straights : list StraightSection.t) (bends : list BendData.t)
    (extra_material die_offset : Q) :
  (forall s, In s straights -> 0 <= StraightSection.length s) ->
  (forall b, In b bends -> 0 <= BendData.arc_length b) ->
  (forall seg,
      In seg (fst (build_segments_and_marks straights bends
                     extra_material die_offset)) ->
      PathSegment.ends_at seg
      = PathSegment.starts_at seg + PathSegment.length seg)
  /\ (forall k k' a b,
         (k <= k')%nat ->
         nth_error (fst (build_segments_and_marks straights bends
                           extra_material die_offset)) k = Some a ->
         nth_error (fst (build_segments_and_marks straights bends
                           extra_material die_offset)) k' = Some b ->
         extra_material <= PathSegment.starts_at a
         /\ PathSegment.starts_at a <= PathSegment.starts_at b
         /\ PathSegment.starts_at b <= PathSegment.ends_at b).
Proof.
  intros Hs Hb. rewrite build_segments_timeline. split.
  - apply timeline_segment_length.
  - apply chained_monotone; [apply timeline_chained|].
    intros seg Hin. split.
    + eapply timeline_segment_length, Hin.
    + eapply timeline_length_nonneg; eauto.
Qed.

(** X11 on the first bend segment and the second straight segment of
    [test_multi_bend_path], which run from 10 to 14 and from 14 to 22. *)
Lemma X11_timeline_runs_forward_witness :
  0 <= PathSegment.starts_at (bend_segment (BendData.mk 1 45 None 4) (0 + 10))
  /\ PathSegment.starts_at (bend_segment (BendData.mk 1 45 None 4) (0 + 10))
     <= PathSegment.starts_at
          (straight_segment
             [BendData.mk 1 45 None 4; BendData.mk 2 90 (Some 30) 6] 1
             (make_straight 2 8) (0 + 10 + 4))
  /\ PathSegment.starts_at
       (straight_segment
          [BendData.mk 1 45 None 4; BendData.mk 2 90 (Some 30) 6] 1
          (make_straight 2 8) (0 + 10 + 4))
     <= PathSegment.ends_at
          (straight_segment
             [BendData.mk 1 45 None 4; BendData.mk 2 90 (Some 30) 6] 1
             (make_straight 2 8) (0 + 10 + 4)).
Proof.
  apply (proj2 (X11_timeline_runs_forward
                  [make_straight 1 10; make_straight 2 8; make_straight 3 12]
                  [BendData.mk 1 45 None 4; BendData.mk 2 90 (Some 30) 6]
                  0 1
                  ltac:(intros s [<-|[<-|[<-|[]]]]; discriminate)
                  ltac:(intros b [<-|[<-|[]]]; discriminate))
           1%nat 2%nat).
  - lia.
  - reflexivity.
  - reflexivity.
Defined.

(** X12.  When the bends bear different numbers and no length is
    negative, the marks of the bends that are in the timeline come in
    order: a later bend is never marked before an earlier one. *)
Theorem X12_marks_in_order
    (straights : list StraightSection.t) (bends : list BendData.t)
    (extra_material die_offset : Q) (i j : nat)
    (mi mj : MarkPosition.t) :
  NoDup (map BendData.number bends) ->
  (forall s, In s straights -> 0 <= StraightSection.length s) ->
  (forall b, In b bends -> 0 <= BendData.arc_length b) ->
  (i <= j)%nat ->
  (j < List.length straights)%nat ->
  nth_error (snd (build_segments_and_marks straights bends
                    extra_material die_offset)) i = Some mi ->
  nth_error (snd (build_segments_and_marks straights bends
                    extra_material die_offset)) j = Some mj ->
  MarkPosition.mark_position mi <= MarkPosition.mark_position mj.
Proof.
  intros Hnd Hs Hb Hij Hj Hmi Hmj.
  rewrite build_marks, nth_error_map in Hmi, Hmj.
  destruct (nth_error bends i) as [bi|] eqn:Ei; [|discriminate Hmi].
  destruct (nth_error bends j) as [bj|] eqn:Ej; [|discriminate Hmj].
  cbn in Hmi, Hmj. injection Hmi as <-. injection Hmj as <-.
  destruct (find_bend_start_timeline bends bi i straights 0 extra_material)
    as [ci [Hni Hfi]]; [exact Ei|lia| |].
  { intros k b' Hk. apply (NoDup_numbers_fresh bends i bi Hnd Ei). lia. }
  destruct (find_bend_start_timeline bends bj j straights 0 extra_material)
    as [cj [Hnj Hfj]]; [exact Ej|lia| |].
  { intros k b' Hk. apply (NoDup_numbers_fresh bends j bj Hnd Ej). lia. }
  unfold mark_of. cbn [MarkPosition.mark_position]. rewrite Hfi, Hfj.
  destruct (chained_monotone (timeline bends 0 straights extra_material)
              extra_material (timeline_chained _ _ _ _)) with
      (k := (2 * i + 1)%nat) (k' := (2 * j + 1)%nat)
      (a := bend_segment bi ci) (b := bend_segment bj cj)
    as [_ [H _]]; [|lia|exact Hni|exact Hnj|].
  - intros seg Hin. split.
    + eapply timeline_segment_length, Hin.
    + eapply timeline_length_nonneg; eauto.
  - cbn [bend_segment PathSegment.starts_at] in H. lra.
Qed.

(** X12 on the marks of [test_multi_bend_path], at 9 and 21. *)
Lemma X12_marks_in_order_witness :
  MarkPosition.mark_position (MarkPosition.mk 1 9 45 None)
  <= MarkPosition.mark_position (MarkPosition.mk 2 21 90 (Some 30)).
Proof.
  apply (X12_marks_in_order
           [make_straight 1 10; make_straight 2 8; make_straight 3 12]
           [BendData.mk 1 45 None 4; BendData.mk 2 90 (Some 30) 6]
           0 1 0 1).
  - repeat constructor; cbn; intuition discriminate.
  - intros s [<-|[<-|[<-|[]]]]; discriminate.
  - intros b [<-|[<-|[]]]; discriminate.
  - lia.
  - simpl. lia.
  - reflexivity.
  - reflexivity.
Defined.

(** No bend segment of the timeline is called [BEND n] when none of the
    bends in it bears the number [n]. *)
Lemma find_bend_start_absent bends (n : Z) :
  forall straights k cumulative,
    (forall j b', (j < List.length straights)%nat ->
                  nth_error bends (k + j) = Some b' ->
                  BendData.number b' <> n) ->
    find_bend_start ("BEND " ++ str_int n)
      (timeline bends k straights cumulative) 0 = 0.
Proof.
  induction straights as [|s rest IH]; intros k cumulative Hfresh.
  - reflexivity.
  - cbn [timeline].
    assert (Hrest : forall j b', (j < List.length rest)%nat ->
                nth_error bends (S k + j) = Some b' ->
                BendData.number b' <> n).
    { intros j b' Hj Hb'. apply (Hfresh (S j)); [simpl; lia|].
      now replace (k + S j)%nat with (S k + j)%nat by lia. }
    destruct (nth_error bends k) as [bk|] eqn:Hk.
    + find_step. rewrite bend_name_eqb.
      destruct (Z.eqb_spec (BendData.number bk) n) as [E|_].
      * exfalso. apply (Hfresh 0%nat bk); [simpl; lia| |exact E].
        now rewrite Nat.add_0_r.
      * now apply IH.
    + find_step. now apply IH.
Qed.

(** X13.  A bend that is not in the timeline, because there is no
    straight at its index, is given a mark all the same: when no bend of
    the timeline bears its number, that mark lies at 0 minus the die
    offset. *)
Theorem X13_mark_without_segment
    (straights : list StraightSection.t) (bends : list BendData.t)
    (extra_material die_offset : Q) (i : nat) (b : BendData.t) :
  nth_error bends i = Some b ->
  (List.length straights <= i)%nat ->
  (forall j b', (j < List.length straights)%nat ->
                nth_error bends j = Some b' ->
                BendData.number b' <> BendData.number b) ->
  List.length (snd (build_segments_and_marks straights bends
                      extra_material die_offset)) = List.length bends
  /\ exists m,
       nth_error (snd (build_segments_and_marks straights bends
                         extra_material die_offset)) i = Some m
       /\ MarkPosition.bend_num m = BendData.number b
       /\ MarkPosition.mark_position m = 0 - die_offset.
Proof.
  intros Hb Hi Hfresh. rewrite build_marks.
  split; [apply length_map|].
  exists (mark_of (timeline bends 0 straights extra_material) die_offset b).
  split; [now rewrite nth_error_map, Hb|]. split; [reflexivity|].
  unfold mark_of. cbn [MarkPosition.mark_position].
  now rewrite find_bend_start_absent.
Qed.

(** X13 on one straight and two bends: the second bend has no segment,
    and with a die offset of 3 its mark lies at -3. *)
Lemma X13_mark_without_segment_witness :
  List.length (snd (build_segments_and_marks [make_straight 1 10]
                      [BendData.mk 1 45 None 5; BendData.mk 2 90 (Some 30) 7]
                      0 3)) = 2%nat
  /\ exists m,
       nth_error (snd (build_segments_and_marks [make_straight 1 10]
                         [BendData.mk 1 45 None 5;
                          BendData.mk 2 90 (Some 30) 7] 0 3)) 1 = Some m
       /\ MarkPosition.bend_num m = 2%Z
       /\ MarkPosition.mark_position m = 0 - 3.
Proof.
  apply (X13_mark_without_segment [make_straight 1 10]
           [BendData.mk 1 45 None 5; BendData.mk 2 90 (Some 30) 7] 0 3 1
           (BendData.mk 2 90 (Some 30) 7)).
  - reflexivity.
  - simpl. lia.
  - intros [|j] b' Hj Hb'; [|simpl in Hj; lia].
    injection Hb' as <-. discriminate.
Defined.

(* ------------------------------------------------------------------ *)
(** ** More on [validate_clr_consistency] *)

Lemma clr_display_app arcs arcs' units :
  clr_display (arcs ++ arcs') units
  = clr_display arcs units ++ clr_display arcs' units.
Proof. unfold clr_display. apply map_app. Qed.

(** X14.  The working CLR is never negative.  It is decided by the
    first arc alone, whatever arcs follow; and further arcs can set the
    mismatch flag but never clear it. *)
Theorem X14_clr_first_arc (arcs arcs' : list SketchArc.t)
    (units : UnitConfig.t) :
  0 <= fst (fst (validate_clr_consistency arcs units))
  /\ (arcs <> [] ->
      fst (fst (validate_clr_consistency (arcs ++ arcs') units))
      = fst (fst (validate_clr_consistency arcs units)))
  /\ (snd (fst (validate_clr_consistency arcs units)) = true ->
      snd (fst (validate_clr_consistency (arcs ++ arcs') units)) = true).
Proof.
  destruct arcs as [|a arcs].
  - split; [apply Qle_refl|]. split; [congruence|discriminate].
  - change ((a :: arcs) ++ arcs') with (a :: (arcs ++ arcs')).
    rewrite !validate_clr_cons. cbv zeta.
    destruct (Qle_bool (SketchArc.radius a * UnitConfig.cm_to_unit units) 0)
      eqn:E; cbn [fst snd].
    + split; [apply Qle_refl|]. split; reflexivity.
    + split.
      * apply Qlt_le_weak, Qnot_le_lt. intro H.
        apply Qle_bool_iff in H. congruence.
      * split; [reflexivity|].
        change (a :: arcs ++ arcs') with ((a :: arcs) ++ arcs').
        rewrite clr_display_app. unfold any. rewrite existsb_app.
        intros ->. reflexivity.
Qed.

(** X14 on the radii 5.0 and 5.1, followed by a third arc. *)
Lemma X14_clr_first_arc_witness :
  snd (fst (validate_clr_consistency
              ([SketchArc.mk (0, 0, 0) (1, 0, 0) 5.0;
                SketchArc.mk (1, 0, 0) (2, 0, 0) 5.1]
               ++ [SketchArc.mk (2, 0, 0) (3, 0, 0) 5.0]) sample_units))
  = true.
Proof.
  apply (proj2 (proj2 (X14_clr_first_arc
                         [SketchArc.mk (0, 0, 0) (1, 0, 0) 5.0;
                          SketchArc.mk (1, 0, 0) (2, 0, 0) 5.1]
                         [SketchArc.mk (2, 0, 0) (3, 0, 0) 5.0]
                         sample_units))).
  reflexivity.
Defined.

(** X15.  Arcs that all have the radius of the first one never
    mismatch, however many they are, unless that radius, in display
    units, is at most 0. *)
Theorem X15_equal_radii (a : SketchArc.t) (arcs : list SketchArc.t)
    (units : UnitConfig.t) :
  (forall a', In a' arcs -> SketchArc.radius a' == SketchArc.radius a) ->
  (snd (fst (validate_clr_consistency (a :: arcs) units)) = true
   <-> SketchArc.radius a * UnitConfig.cm_to_unit units <= 0).
Proof.
  intro Heq. rewrite validate_clr_cons. cbv zeta.
  destruct (Qle_bool (SketchArc.radius a * UnitConfig.cm_to_unit units) 0)
    eqn:E; cbn [fst snd].
  - apply Qle_bool_iff in E. tauto.
  - split.
    + intro H. apply any_deviation in H. destruct H as [c [Hin Hc]].
      exfalso.
      assert (Hc0 : c == SketchArc.radius a * UnitConfig.cm_to_unit units).
      { unfold clr_display in Hin. apply in_map_iff in Hin.
        destruct Hin as [a' [<- Hin']].
        destruct Hin' as [<-|Hin']; [reflexivity|].
        now rewrite (Heq a' Hin'). }
      assert (Hz : Qabs (c - SketchArc.radius a * UnitConfig.cm_to_unit units)
                   == 0).
      { setoid_replace
          (c - SketchArc.radius a * UnitConfig.cm_to_unit units)
          with 0 by (rewrite Hc0; ring).
        reflexivity. }
      rewrite Hz in Hc.
      pose proof (Q.le_max_r
                    (SketchArc.radius a * UnitConfig.cm_to_unit units * 0.002)
                    0.001) as Hmax.
      assert (H001 : 0 < 0.001) by reflexivity.
      lra.
    + intro H. apply Qle_bool_iff in H. congruence.
Qed.

(** X15 on the three arcs of [test_multiple_matching_arcs]. *)
Lemma X15_equal_radii_witness :
  snd (fst (validate_clr_consistency
              [SketchArc.mk (0, 0, 0) (1, 0, 0) 5.0;
               SketchArc.mk (1, 0, 0) (2, 0, 0) 5.0;
               SketchArc.mk (2, 0, 0) (3, 0, 0) 5.0] sample_units)) = true
  <-> 5.0 * 1 <= 0.
Proof.
  apply (X15_equal_radii (SketchArc.mk (0, 0, 0) (1, 0, 0) 5.0)
           [SketchArc.mk (1, 0, 0) (2, 0, 0) 5.0;
            SketchArc.mk (2, 0, 0) (3, 0, 0) 5.0] sample_units).
  intros a' [<-|[<-|[]]]; reflexivity.
Defined.

(* ------------------------------------------------------------------ *)
(** ** More on [determine_primary_axis] *)

(** What [determine_primary_axis] returns, in terms of the
    displacement. *)
Lemma determine_primary_axis_spec (start end_ : Point3D) :
  let d := displacement_of start end_ in
  exists axis idx current opposite,
    determine_primary_axis start end_ = (axis, idx, current, opposite)
    /\ ((axis = "X"%string /\ idx = 0%nat
         /\ Qabs (idx1 d) <= Qabs (idx0 d) /\ Qabs (idx2 d) <= Qabs (idx0 d))
        \/ (axis = "Y"%string /\ idx = 1%nat
            /\ Qabs (idx0 d) < Qabs (idx1 d)
            /\ Qabs (idx2 d) <= Qabs (idx1 d))
        \/ (axis = "Z"%string /\ idx = 2%nat
            /\ Qabs (idx0 d) < Qabs (idx2 d)
            /\ Qabs (idx1 d) < Qabs (idx2 d)))
    /\ (0 < tuple_get d idx ->
        current = ("+" ++ axis)%string /\ opposite = ("-" ++ axis)%string)
    /\ (tuple_get d idx <= 0 ->
        current = ("-" ++ axis)%string /\ opposite = ("+" ++ axis)%string)
    /\ (idx0 d == 0 -> idx1 d == 0 -> idx2 d == 0 ->
        axis = "X"%string /\ current = "-X"%string
        /\ opposite = "+X"%string).
Proof.
  intro d.
  set (abs_disp := (Qabs (idx0 d), Qabs (idx1 d), Qabs (idx2 d))).
  pose proof (max3_ge abs_disp) as [G0 [G1 G2]].
  pose proof (max3_cases abs_disp) as Hcases.
  cbn [abs_disp idx0 idx1 idx2 fst snd] in G0, G1, G2, Hcases.
  fold (idx0 d) in *. fold (idx1 d) in *. fold (idx2 d) in *.
  assert (Hsign : forall (axis : string) (idx : nat),
             (0 < tuple_get d idx ->
              (if Qgtb (tuple_get d idx) 0
               then ("+" ++ axis)%string else ("-" ++ axis)%string)
              = ("+" ++ axis)%string
              /\ (if Qgtb (tuple_get d idx) 0
                  then ("-" ++ axis)%string else ("+" ++ axis)%string)
                 = ("-" ++ axis)%string)
             /\ (tuple_get d idx <= 0 ->
                 (if Qgtb (tuple_get d idx) 0
                  then ("+" ++ axis)%string else ("-" ++ axis)%string)
                 = ("-" ++ axis)%string
                 /\ (if Qgtb (tuple_get d idx) 0
                     then ("-" ++ axis)%string else ("+" ++ axis)%string)
                    = ("+" ++ axis)%string)).
  { intros axis idx. split; intro H.
    - apply Qgtb_gt in H. now rewrite H.
    - apply Qgtb_le in H. now rewrite H. }
  unfold determine_primary_axis.
  change (idx0 end_ - idx0 start, idx1 end_ - idx1 start,
          idx2 end_ - idx2 start) with d.
  change (Qabs (idx0 d), Qabs (idx1 d), Qabs (idx2 d)) with abs_disp.
  cbn [abs_disp idx0 idx1 idx2 fst snd]. fold (idx0 d) (idx1 d) (idx2 d).
  fold abs_disp.
  destruct (Qeq_bool (Qabs (idx0 d)) (max3 abs_disp)) eqn:E0.
  - apply Qeq_bool_iff in E0.
    do 4 eexists. split; [reflexivity|]. split; [|split; [|split]].
    + left. rewrite E0. auto.
    + apply Hsign.
    + apply Hsign.
    + intros H0 _ _. split; [reflexivity|].
      apply (Hsign "X"%string 0%nat). cbn [tuple_get]. rewrite H0.
      apply Qle_refl.
  - apply Qeq_bool_false_neq in E0.
    pose proof (Qle_neq_lt _ _ G0 E0) as L0.
    assert (Hzero : idx0 d == 0 -> idx1 d == 0 -> idx2 d == 0 -> False).
    { intros H0 H1 H2. apply E0.
      destruct Hcases as [->|[->| ->]];
        rewrite ?H0, ?H1, ?H2; reflexivity. }
    destruct (Qeq_bool (Qabs (idx1 d)) (max3 abs_disp)) eqn:E1.
    + apply Qeq_bool_iff in E1.
      do 4 eexists. split; [reflexivity|]. split; [|split; [|split]].
      * right. left. rewrite E1. auto.
      * apply Hsign.
      * apply Hsign.
      * intros H0 H1 H2. destruct (Hzero H0 H1 H2).
    + apply Qeq_bool_false_neq in E1.
      pose proof (Qle_neq_lt _ _ G1 E1) as L1.
      assert (E2 : max3 abs_disp = Qabs (idx2 d)).
      { destruct Hcases as [H|[H|H]]; [| |exact H].
        - exfalso. apply E0. rewrite H. reflexivity.
        - exfalso. apply E1. rewrite H. reflexivity. }
      do 4 eexists. split; [reflexivity|]. split; [|split; [|split]].
      * right. right. rewrite <- E2. auto.
      * apply Hsign.
      * apply Hsign.
      * intros H0 H1 H2. destruct (Hzero H0 H1 H2).
Qed.

Lemma displacement_reversed (start end_ : Point3D) :
  idx0 (displacement_of end_ start) == - idx0 (displacement_of start end_)
  /\ idx1 (displacement_of end_ start) == - idx1 (displacement_of start end_)
  /\ idx2 (displacement_of end_ start) == - idx2 (displacement_of start end_).
Proof.
  unfold displacement_of. cbn [idx0 idx1 idx2 fst snd].
  repeat split; ring.
Qed.

(** X16.  Reversing the path keeps the primary axis and exchanges the
    two direction labels, unless the displacement along that axis is
    zero: then the path has no displacement at all, and both ways give
    "-X" with "+X" as the opposite. *)
Theorem X16_reversed_path (start end_ : Point3D) :
  exists axis idx current opposite current' opposite',
    determine_primary_axis start end_ = (axis, idx, current, opposite)
    /\ determine_primary_axis end_ start = (axis, idx, current', opposite')
    /\ (~ tuple_get (displacement_of start end_) idx == 0 ->
        current' = opposite /\ opposite' = current /\ current <> opposite)
    /\ (tuple_get (displacement_of start end_) idx == 0 ->
        axis = "X"%string
        /\ current = "-X"%string /\ opposite = "+X"%string
        /\ current' = "-X"%string /\ opposite' = "+X"%string).
Proof.
  destruct (determine_primary_axis_spec start end_)
    as [axis [idx [cur [opp [E [Hcase [Hpos [Hneg Hzero]]]]]]]].
  destruct (determine_primary_axis_spec end_ start)
    as [axis' [idx' [cur' [opp' [E' [Hcase' [Hpos' [Hneg' Hzero']]]]]]]].
  destruct (displacement_reversed start end_) as [R0 [R1 R2]].
  set (d := displacement_of start end_) in *.
  set (d' := displacement_of end_ start) in *.
  assert (A0 : Qabs (idx0 d') == Qabs (idx0 d))
    by (rewrite R0; apply Qabs_opp).
  assert (A1 : Qabs (idx1 d') == Qabs (idx1 d))
    by (rewrite R1; apply Qabs_opp).
  assert (A2 : Qabs (idx2 d') == Qabs (idx2 d))
    by (rewrite R2; apply Qabs_opp).
  assert (Hsame : axis' = axis /\ idx' = idx).
  { destruct Hcase as [[-> [-> [H1 H2]]]|[[-> [-> [H1 H2]]]|[-> [-> [H1 H2]]]]];
      destruct Hcase'
        as [[-> [-> [H1' H2']]]|[[-> [-> [H1' H2']]]|[-> [-> [H1' H2']]]]];
      try (split; reflexivity); exfalso; lra. }
  destruct Hsame as [-> ->].
  assert (Rd : tuple_get d' idx == - tuple_get d idx).
  { destruct Hcase as [[_ [-> _]]|[[_ [-> _]]|[_ [-> _]]]];
      cbn [tuple_get]; assumption. }
  exists axis, idx, cur, opp, cur', opp'.
  split; [exact E|]. split; [exact E'|]. split.
  - intro Hnz.
    destruct (Qlt_le_dec 0 (tuple_get d idx)) as [Hp|Hn].
    + destruct (Hpos Hp) as [-> ->].
      destruct Hneg' as [-> ->]; [lra|].
      repeat split. intro H. now inversion H.
    + assert (Hlt : tuple_get d idx < 0).
      { apply Qle_neq_lt; assumption. }
      destruct (Hneg Hn) as [-> ->].
      destruct Hpos' as [-> ->]; [lra|].
      repeat split. intro H. now inversion H.
  - intro Hz.
    assert (Hall : idx0 d == 0 /\ idx1 d == 0 /\ idx2 d == 0).
    { assert (Ha : Qabs (tuple_get d idx) == 0) by (rewrite Hz; reflexivity).
      pose proof (Qabs_nonneg (idx0 d)) as N0.
      pose proof (Qabs_nonneg (idx1 d)) as N1.
      pose proof (Qabs_nonneg (idx2 d)) as N2.
      assert (Z0 : forall x, Qabs x <= 0 -> x == 0).
      { intros x Hx. apply Qabs_Qle_condition in Hx. lra. }
      destruct Hcase as [[_ [-> [L1 L2]]]|[[_ [-> [L1 L2]]]|[_ [-> [L1 L2]]]]];
        cbn [tuple_get] in Ha; repeat split; apply Z0; lra. }
    destruct Hall as [Z0 [Z1 Z2]].
    destruct (Hzero Z0 Z1 Z2) as [-> [-> ->]].
    destruct Hzero' as [_ [-> ->]]; [lra|lra|lra|].
    repeat split.
Qed.

(** X16 on the points of [test_primary_axis_x_positive]. *)
Lemma X16_reversed_path_witness :
  exists axis idx current opposite current' opposite',
    determine_primary_axis (0, 0, 0) (10, 1, 0.5)
    = (axis, idx, current, opposite)
    /\ determine_primary_axis (10, 1, 0.5) (0, 0, 0)
       = (axis, idx, current', opposite')
    /\ (~ tuple_get (displacement_of (0, 0, 0) (10, 1, 0.5)) idx == 0 ->
        current' = opposite /\ opposite' = current /\ current <> opposite)
    /\ (tuple_get (displacement_of (0, 0, 0) (10, 1, 0.5)) idx == 0 ->
        axis = "X"%string
        /\ current = "-X"%string /\ opposite = "+X"%string
        /\ current' = "-X"%string /\ opposite' = "+X"%string).
Proof.
  exact (X16_reversed_path (0, 0, 0) (10, 1, 0.5)).
Defined.

(* ------------------------------------------------------------------ *)
(** ** Paths that [generate] cannot process *)

(** In an alternating path the lines outnumber the arcs by one at most,
    and not at all when the path starts with an arc. *)
Lemma alternating_counts (path : list PathElement) :
  alternating path ->
  match path with
  | [] => True
  | LineElement _ :: _ =>
      (List.length (lines_of path) <= List.length (arcs_of path) + 1)%nat
  | ArcElement _ :: _ =>
      (List.length (lines_of path) <= List.length (arcs_of path))%nat
  end.
Proof.
  induction path as [|e rest IH]; [exact (fun _ => I)|].
  intro Halt. cbn [alternating] in Halt.
  destruct rest as [|e' rest'].
  - destruct e; simpl; lia.
  - destruct Halt as [Hne Hrest]. specialize (IH Hrest).
    destruct e as [l|a]; destruct e' as [l'|a'];
      try (exfalso; apply Hne; reflexivity);
      cbn [lines_of arcs_of List.length] in *; lia.
Qed.

(** In an alternating path that ends with an arc the lines do not
    outnumber the arcs. *)
Lemma alternating_ends_with_arc (front : list PathElement) a :
  forall e,
    alternating (e :: front ++ [ArcElement a]) ->
    match e with
    | LineElement _ =>
        (List.length (lines_of (e :: front ++ [ArcElement a]))
         <= List.length (arcs_of (e :: front ++ [ArcElement a])))%nat
    | ArcElement _ =>
        (List.length (lines_of (e :: front ++ [ArcElement a])) + 1
         <= List.length (arcs_of (e :: front ++ [ArcElement a])))%nat
    end.
Proof.
  induction front as [|e' front' IH]; intros e Halt.
  - cbn [app alternating] in Halt. destruct Halt as [Hne _].
    destruct e as [l|a0]; [simpl; lia|].
    exfalso. apply Hne. reflexivity.
  - change ((e' :: front') ++ [ArcElement a])
      with (e' :: front' ++ [ArcElement a]) in *.
    cbn [alternating] in Halt. destruct Halt as [Hne Hrest].
    specialize (IH e' Hrest).
    destruct e as [l|a0]; destruct e' as [l'|a'];
      try (exfalso; apply Hne; reflexivity);
      cbn [lines_of arcs_of List.length] in *; lia.
Qed.

(** X17.  [generate] needs more lines than arcs.  An alternating path
    that starts with an arc or ends with an arc has not: for such a path
    [generate] raises [ValueError], whatever its [starts_with_arc] and
    [ends_with_arc] arguments say. *)
Theorem X17_arc_at_an_end {G : Geometry} units
    (ordered_path : list PathElement) start_point params component_name
    travel_direction starts_with_arc ends_with_arc :
  alternating ordered_path ->
  (exists a rest, ordered_path = ArcElement a :: rest)
  \/ (exists front a, ordered_path = front ++ [ArcElement a]) ->
  exists msg,
    generate units ordered_path start_point params component_name
      travel_direction starts_with_arc ends_with_arc
    = Raise (ValueError msg).
Proof.
  intros Halt Hend.
  assert (Hlen : (List.length (lines_of ordered_path)
                  < List.length (arcs_of ordered_path) + 1)%nat).
  { destruct Hend as [[a [rest ->]]|[front [a ->]]].
    - pose proof (alternating_counts _ Halt) as H. cbn beta iota in H. lia.
    - destruct front as [|e front'].
      + simpl. lia.
      + change ((e :: front') ++ [ArcElement a])
          with (e :: front' ++ [ArcElement a]) in *.
        pose proof (alternating_ends_with_arc front' a e Halt) as H.
        destruct e; lia. }
  destruct (lines_of ordered_path) as [|l lines'] eqn:El.
  - eexists. apply generate_Raise. rewrite El. apply calculate_no_lines.
  - eexists. apply generate_Raise. rewrite El.
    apply calculate_too_few; [discriminate|exact Hlen].
Qed.

(** X17 on the path arc, line, arc. *)
Lemma X17_arc_at_an_end_witness :
  exists msg,
    generate (G := sample_geometry) sample_units
      [ArcElement sample_arc;
       LineElement (SketchLine.mk (0, 0, 0) (10, 0, 0));
       ArcElement sample_arc]
      (0, 0, 0) sample_params "part" "+X" true true
    = Raise (ValueError msg).
Proof.
  apply (X17_arc_at_an_end (G := sample_geometry)).
  - cbn. repeat split; discriminate.
  - left. eauto.
Defined.

(* ------------------------------------------------------------------ *)
(** ** Orientation, end to end *)

Section ChainFacts.
Context {G : Geometry}.

Lemma lines_of_swapped path path' :
  path_endpoints_swapped path path' ->
  endpoints_swapped (lines_of path) (lines_of path')
  /\ arcs_of path' = arcs_of path.
Proof.
  unfold path_endpoints_swapped, endpoints_swapped.
  induction 1 as [|e e' p p' He _ [IHl IHa]]; [split; constructor|].
  destruct He as [->|[l [-> ->]]].
  - destruct e as [l|a]; cbn [lines_of arcs_of].
    + split; [constructor; auto|exact IHa].
    + split; [exact IHl|now rewrite IHa].
  - cbn [lines_of arcs_of]. split; [constructor; auto|exact IHa].
Qed.

(** [generate] is a function of the lines and the arcs of the path. *)
Lemma generate_lines_arcs units path path' start_point params
    component_name travel_direction starts_with_arc ends_with_arc :
  arcs_of path' = arcs_of path ->
  (forall clr,
      calculate_straights_and_bends (lines_of path') (arcs_of path)
        start_point clr units
      = calculate_straights_and_bends (lines_of path) (arcs_of path)
          start_point clr units) ->
  generate units path' start_point params component_name
    travel_direction starts_with_arc ends_with_arc
  = generate units path start_point params component_name
      travel_direction starts_with_arc ends_with_arc.
Proof.
  intros Ha Hc. unfold generate. rewrite Ha.
  destruct (validate_clr_consistency (arcs_of path) units)
    as [[clr mismatch] values].
  now rewrite Hc.
Qed.

(** Lines laid head to tail are oriented into a chain. *)
Lemma orient_remaining_chain line_points :
  (forall p, distance_between_points p p == 0) ->
  (forall p q, 0 <= distance_between_points p q) ->
  forall ref,
    laid_head_to_tail ref line_points ->
    connected_chain ref (orient_remaining ref line_points).
Proof.
  intros Hrefl Hnonneg.
  induction line_points as [|p rest IH]; intros ref Hlaid; [exact I|].
  destruct Hlaid as [Hp Hrest]. cbn [orient_remaining connected_chain].
  split; [|now apply IH].
  rewrite orient_cases.
  destruct p as [s e]. cbn [fst snd] in *.
  destruct Hp as [->|[-> Hpos]].
  - destruct (Qltb (distance_between_points e ref)
                   (distance_between_points ref ref)) eqn:E; [|reflexivity].
    apply Qltb_lt in E. rewrite Hrefl in E.
    exfalso. apply (Qlt_not_le _ _ E (Hnonneg e ref)).
  - destruct (Qltb (distance_between_points ref ref)
                   (distance_between_points s ref)) eqn:E; [reflexivity|].
    apply Qltb_ge in E. rewrite Hrefl in E.
    exfalso. apply (Qlt_not_le _ _ Hpos E).
Qed.

Lemma connected_chain_adjacent corrected :
  forall ref i c c',
    connected_chain ref corrected ->
    nth_error corrected i = Some c ->
    nth_error corrected (S i) = Some c' ->
    fst c' = snd c.
Proof.
  induction corrected as [|x rest IH]; intros ref i c c' Hch Hc Hc'.
  - destruct i; discriminate Hc.
  - destruct Hch as [_ Hrest]. destruct i as [|i].
    + injection Hc as <-. destruct rest as [|y rest']; [discriminate Hc'|].
      injection Hc' as <-. now destruct Hrest.
    + apply (IH _ i c c' Hrest Hc Hc').
Qed.

End ChainFacts.

(** X18.  [generate] does not depend on the stored endpoint order of
    the lines of the path: when no line has its two endpoints at the same
    distance from the point it is oriented against, exchanging the
    endpoints of any of the lines gives the same result, be it the sheet
    returned or the exception raised. *)
Theorem X18_generate_endpoint_order {G : Geometry} units
    (ordered_path ordered_path' : list PathElement) start_point params
    component_name travel_direction starts_with_arc ends_with_arc :
  path_endpoints_swapped ordered_path ordered_path' ->
  distinct_distances start_point
    (map get_sketch_entity_endpoints (lines_of ordered_path)) ->
  generate units ordered_path' start_point params component_name
    travel_direction starts_with_arc ends_with_arc
  = generate units ordered_path start_point params component_name
      travel_direction starts_with_arc ends_with_arc.
Proof.
  intros Hswap Hdist.
  destruct (lines_of_swapped _ _ Hswap) as [Hlines Harcs].
  apply generate_lines_arcs; [exact Harcs|].
  intro clr. apply calculate_oriented.
  rewrite !oriented_lines_orient.
  apply orient_remaining_swapped; [|exact Hdist].
  now apply endpoints_swapped_points.
Qed.

(** X18 on the sample path, exchanging the endpoints of its first
    line. *)
Lemma X18_generate_endpoint_order_witness :
  generate (G := sample_geometry) sample_units
    [LineElement (swap_line (SketchLine.mk (0, 0, 0) (10, 0, 0)));
     ArcElement sample_arc;
     LineElement (SketchLine.mk (10, 8, 0) (10, 0, 0));
     ArcElement sample_arc;
     LineElement (SketchLine.mk (10, 8, 0) (10, 8, 6))]
    (0, 0, 0) sample_params "part" "+X" false false
  = generate (G := sample_geometry) sample_units sample_path
      (0, 0, 0) sample_params "part" "+X" false false.
Proof.
  apply (X18_generate_endpoint_order (G := sample_geometry)).
  - unfold path_endpoints_swapped, sample_path.
    apply Forall2_cons; [right; eauto|].
    repeat (apply Forall2_cons; [left; reflexivity|]).
    apply Forall2_nil.
  - cbn [distinct_distances map lines_of sample_path].
    repeat split; vm_compute; discriminate.
Defined.

(** X19.  When the distance of a point to itself is 0 and no distance
    is negative, lines laid head to tail from the path start, each
    stored in either direction, are oriented into a chain: the first
    oriented line starts at the path start and every other one starts
    where the one before it ends; and so do the straights returned, in
    display units. *)
Theorem X19_head_to_tail {G : Geometry}
    (lines : list SketchLine.t) (arcs : list SketchArc.t)
    (path_start : Point3D) (clr : Q) (units : UnitConfig.t) :
  (forall p, distance_between_points p p == 0) ->
  (forall p q, 0 <= distance_between_points p q) ->
  laid_head_to_tail path_start (map get_sketch_entity_endpoints lines) ->
  connected_chain path_start
    (oriented_lines path_start (map get_sketch_entity_endpoints lines))
  /\ forall straights bends,
       calculate_straights_and_bends lines arcs path_start clr units
       = Ok (straights, bends) ->
       (forall s, nth_error straights 0 = Some s ->
                  StraightSection.start s = scale_point units path_start)
       /\ (forall i s s',
              nth_error straights i = Some s ->
              nth_error straights (S i) = Some s' ->
              StraightSection.start s' = StraightSection.end_ s).
Proof.
  intros Hrefl Hnonneg Hlaid.
  assert (Hchain : connected_chain path_start
                     (oriented_lines path_start
                        (map get_sketch_entity_endpoints lines))).
  { rewrite oriented_lines_orient. now apply orient_remaining_chain. }
  split; [exact Hchain|].
  intros straights bends Hc. apply calculate_Ok_inv in Hc.
  destruct Hc as [first [rest [normals [E [-> _]]]]].
  rewrite E in Hchain. cbn [oriented_lines] in Hchain.
  set (corrected := corrected_lines path_start first rest) in *.
  assert (Hnth : forall i s,
             nth_error (map (straight_of units) (enumerate_from 0 corrected)) i
             = Some s ->
             exists c, nth_error corrected i = Some c
                       /\ StraightSection.start s = scale_point units (fst c)
                       /\ StraightSection.end_ s = scale_point units (snd c)).
  { intros i s Hs. rewrite nth_error_map, enumerate_from_nth in Hs.
    destruct (nth_error corrected i) as [[c_start c_end]|];
      [|discriminate Hs].
    cbn in Hs. injection Hs as <-. exists (c_start, c_end). auto. }
  split.
  - intros s Hs. destruct (Hnth _ _ Hs) as [c [Hc0 [-> _]]].
    destruct corrected as [|c0 tl]; [discriminate Hc0|].
    injection Hc0 as <-. destruct Hchain as [-> _]. reflexivity.
  - intros i s s' Hs Hs'.
    destruct (Hnth _ _ Hs) as [c [Hci [_ ->]]].
    destruct (Hnth _ _ Hs') as [c' [Hci' [-> _]]].
    now rewrite (connected_chain_adjacent _ _ _ _ _ Hchain Hci Hci').
Qed.

(** X19 on the sample lines, under the sample geometry. *)
Lemma X19_head_to_tail_witness :
  connected_chain (0, 0, 0)
    (oriented_lines (G := sample_geometry) (0, 0, 0)
       (map get_sketch_entity_endpoints sample_lines)).
Proof.
  apply (proj1 (X19_head_to_tail (G := sample_geometry) sample_lines
                  [sample_arc; sample_arc] (0, 0, 0) 2 sample_units
                  ltac:(intro p; cbn [distance_between_points
                                       sample_geometry];
                        setoid_replace (idx0 p - idx0 p) with 0 by ring;
                        setoid_replace (idx1 p - idx1 p) with 0 by ring;
                        setoid_replace (idx2 p - idx2 p) with 0 by ring;
                        reflexivity)
                  ltac:(intros p q; cbn [distance_between_points
                                          sample_geometry];
                        pose proof (Qabs_nonneg (idx0 q - idx0 p));
                        pose proof (Qabs_nonneg (idx1 q - idx1 p));
                        pose proof (Qabs_nonneg (idx2 q - idx2 p));
                        lra)
                  ltac:(cbn [laid_head_to_tail map sample_lines];
                        split; [left; reflexivity|];
                        split; [right; split; reflexivity|];
                        split; [left; reflexivity|exact I]))).
Defined.


